(** * Dytor relay servers: a shallow embedding and its checked properties

    The repository holds three Node.js programs:
    - [server/websocket-server.js] (global mode: one controller, remotes,
      displays, one-time auth tokens, the permission engine),
    - [server/room-server.js] (room mode: the room store, its HTTP
      endpoints and the per-connection WebSocket handlers),
    - [server/auth-server.js] (accounts; its room creation draws a code
      with a bounded retry loop).

    Conventions of the embedding.
    - A JavaScript [Map] is an insertion-ordered association list
      ([JsMap]); a [Set] is an insertion-ordered list ([JsSet]).
    - [Date.now()], [crypto.randomBytes] and [crypto.randomUUID] are inputs
      of the operation that calls them.
    - A WebSocket object is a handle [WS]; its [readyState] belongs to the
      transport, so every handler receives the predicate [env] telling
      which handles are OPEN when it runs.
    - A call [w.send(JSON.stringify(m))] is recorded as the pair [(w, m)]
      in the list of sends returned by the handler, in call order.
    - Inbound frames are decoded as the protocol lays them out; string
      fields are strings. A JOIN_ROOM frame may come without its
      [clientInfo] object.
    - What a handler raises is a [Throw]; the [try]/[catch] around the
      room server's message handler is [RoomServer.onMessage].
    - A host or participant object of the room server is reached from the
      room store and from the closures of connections. Each reference
      holds the fields of the object and its identity; an assignment to
      [ws] is made at the store reference the code goes through and at
      every closure that refers to the object, and in every run all
      references to one object hold the same fields ([run_coherent]). *)

From Stdlib Require Import List String Ascii Bool Arith ZArith Lia Permutation.
From Stdlib.Strings Require Byte.
From Equations Require Import Equations.
Import ListNotations.
Open Scope string_scope.
Open Scope list_scope.

Set Implicit Arguments.

(* ------------------------------------------------------------------ *)
(** ** Keys with a boolean equality *)

Class Key (K : Type) := {
  keq : K -> K -> bool;
  keq_spec : forall a b : K, reflect (a = b) (keq a b)
}.

#[export] Instance Key_string : Key string :=
  {| keq := String.eqb; keq_spec := String.eqb_spec |}.

#[export] Instance Key_nat : Key nat :=
  {| keq := Nat.eqb; keq_spec := Nat.eqb_spec |}.

#[export] Instance Key_Z : Key Z :=
  {| keq := Z.eqb; keq_spec := Z.eqb_spec |}.

(* ------------------------------------------------------------------ *)
(** ** JavaScript [Map]: insertion-ordered, [set] on a present key keeps
       its position *)

Module JsMap.
Section Defs.
Context {K V : Type} `{Key K}.

Definition t := list (K * V).

Definition empty : t := [].

Fixpoint get (k : K) (m : t) : option V :=
  match m with
  | [] => None
  | (k', v) :: rest => if keq k k' then Some v else get k rest
  end.

Definition has (k : K) (m : t) : bool :=
  match get k m with Some _ => true | None => false end.

Fixpoint set (k : K) (v : V) (m : t) : t :=
  match m with
  | [] => [(k, v)]
  | (k', v') :: rest =>
      if keq k k' then (k, v) :: rest else (k', v') :: set k v rest
  end.

Definition delete (k : K) (m : t) : t :=
  filter (fun kv => negb (keq k (fst kv))) m.

Definition size (m : t) : nat := List.length m.

Definition keys (m : t) : list K := map fst m.

Definition values (m : t) : list V := map snd m.
End Defs.
Arguments t : clear implicits.
End JsMap.

(** What the values of a map hold, in the order of the map, for a
    function [g] that lists what one value holds. *)
Definition flatOf {K V A : Type} (g : V -> list A) (m : JsMap.t K V) : list A :=
  flat_map (fun kv => g (snd kv)) m.

(** ** JavaScript [Set] of handles *)

Module JsSet.
Section Defs.
Context {K : Type} `{Key K}.

Definition t := list K.

Definition has (k : K) (s : t) : bool := existsb (keq k) s.

Definition add (k : K) (s : t) : t := if has k s then s else s ++ [k].

Definition delete (k : K) (s : t) : t := filter (fun x => negb (keq k x)) s.

Definition size (s : t) : nat := List.length s.
End Defs.
Arguments t : clear implicits.
End JsSet.

(** ** Completions: a value, or an exception that unwinds to the nearest
       [try]/[catch] *)

Inductive Completion (A : Type) : Type :=
| Normal (a : A)
| Throw (message : string).
Arguments Normal {A} a.
Arguments Throw {A} message.

(** [x || d] on a string field: [undefined] and the empty string are falsy. *)
Definition truthy (s : option string) : option string :=
  match s with
  | Some x => if String.eqb x "" then None else Some x
  | None => None
  end.

(** The own properties of [Object.prototype]: an object literal used as a
    table answers these keys with an inherited function (or, for
    [__proto__], the prototype object), none of which has [includes] or
    [some]. *)
Definition objectPrototypeKeys : list string :=
  [ "constructor"; "__defineGetter__"; "__defineSetter__"; "hasOwnProperty";
    "__lookupGetter__"; "__lookupSetter__"; "isPrototypeOf";
    "propertyIsEnumerable"; "toString"; "valueOf"; "__proto__";
    "toLocaleString" ].

Definition inherited (k : string) : bool :=
  existsb (String.eqb k) objectPrototypeKeys.

Definition includes (x : string) (l : list string) : bool :=
  existsb (String.eqb x) l.

(* ================================================================== *)
(** * server/websocket-server.js (global mode) *)

Module WebsocketServer.

Definition WS := nat.
Definition ClientId := Z.
Definition Payload := string.

Definition REMOTE_AUTH_TIMEOUT : Z := 5 * 60 * 1000.

(** ** One-time auth tokens *)

Record AuthData := { expires : Z; used : bool }.

Definition AuthTokens := JsMap.t string AuthData.

(** [generateAuthToken]: [token] is the value of
    [crypto.randomBytes(32).toString('hex')], [now] of [Date.now()]. *)
Definition generateAuthToken (token : string) (now : Z) (authTokens : AuthTokens)
  : string * AuthTokens :=
  (token,
   JsMap.set token {| expires := now + REMOTE_AUTH_TIMEOUT; used := false |}
             authTokens).

(** The callback handed to [setTimeout] by [generateAuthToken]. *)
Definition tokenTimeout (token : string) (authTokens : AuthTokens) : AuthTokens :=
  JsMap.delete token authTokens.

Definition validateAuthToken (token : string) (now : Z) (authTokens : AuthTokens)
  : bool * AuthTokens :=
  match JsMap.get token authTokens with
  | None => (false, authTokens)
  | Some authData =>
      if (expires authData <? now)%Z then (false, JsMap.delete token authTokens)
      else if used authData then (false, authTokens)
      else (true,
            JsMap.set token {| expires := expires authData; used := true |}
                      authTokens)
  end.

(** The life of the token store: tokens are issued, presented, and their
    clean-up timers fire. *)
Inductive AuthEvent :=
| Generate (token : string)
| Validate (token : string)
| Timeout (token : string).

Definition authStep (now : Z) (e : AuthEvent) (authTokens : AuthTokens)
  : option bool * AuthTokens :=
  match e with
  | Generate token => (None, snd (generateAuthToken token now authTokens))
  | Validate token =>
      let r := validateAuthToken token now authTokens in (Some (fst r), snd r)
  | Timeout token => (None, tokenTimeout token authTokens)
  end.

(** Runs a timed trace; the answer of every [Validate] is logged with the
    token and the time of the call. *)
Fixpoint authRun (evs : list (Z * AuthEvent)) (authTokens : AuthTokens)
  : list (string * Z * bool) :=
  match evs with
  | [] => []
  | (now, e) :: rest =>
      let r := authStep now e authTokens in
      match e, fst r with
      | Validate token, Some b => (token, now, b) :: authRun rest (snd r)
      | _, _ => authRun rest (snd r)
      end
  end.

(** Is [token] issued (again) somewhere in the trace? *)
Definition regenerated (token : string) (evs : list (Z * AuthEvent)) : bool :=
  existsb (fun ne => match snd ne with
                     | Generate t => String.eqb t token
                     | _ => false
                     end) evs.

(** The token store at the end of a timed trace. *)
Fixpoint authStore (evs : list (Z * AuthEvent)) (authTokens : AuthTokens) : AuthTokens :=
  match evs with
  | [] => authTokens
  | (now, e) :: rest => authStore rest (snd (authStep now e authTokens))
  end.

(** Is [token] presented somewhere in the trace? *)
Definition presented (token : string) (evs : list (Z * AuthEvent)) : bool :=
  existsb (fun ne => match snd ne with
                     | Validate t => String.eqb t token
                     | _ => false
                     end) evs.

(** Does a clean-up timer of [token] fire somewhere in the trace? *)
Definition timedOut (token : string) (evs : list (Z * AuthEvent)) : bool :=
  existsb (fun ne => match snd ne with
                     | Timeout t => String.eqb t token
                     | _ => false
                     end) evs.

(** How many logged calls accepted [token]. *)
Fixpoint accepted (token : string) (log : list (string * Z * bool)) : nat :=
  match log with
  | [] => 0
  | (t, _, b) :: rest =>
      (if String.eqb t token && b then 1 else 0) + accepted token rest
  end.

(** The token cannot be accepted any more. *)
Definition spent (token : string) (s : AuthTokens) : Prop :=
  match JsMap.get token s with
  | Some d => used d = true
  | None => True
  end.

(** If stored, the token expires at [g + REMOTE_AUTH_TIMEOUT]. *)
Definition expiresAfter (token : string) (g : Z) (s : AuthTokens) : Prop :=
  match JsMap.get token s with
  | Some d => expires d = (g + REMOTE_AUTH_TIMEOUT)%Z
  | None => True
  end.

(** ** Client records *)

Inductive ClientType := unknown | controller | remote | display.

(** [client.name]: a string taken from the frame, or one of the two
    templates built from the connection's id. *)
Inductive ClientName :=
| Name (s : string)
| RemoteClientName (clientId : ClientId)
| DisplayClientName (clientId : ClientId).

Record Client := {
  id : ClientId;
  type : ClientType;
  permissions : list string;
  name : ClientName;
  role : option string;
  requestedPermissions : option (list string);
  speakerName : option string;
  url : option string
}.

(** ** Permission engine *)

Definition rolePermissions : list (string * list string) :=
  [ ("admin",
     [ "START_RESUME"; "PAUSE"; "STOP"; "ADD_TIME"; "SUBTRACT_TIME"; "RESET";
       "SCHEDULE_VIEW"; "SCHEDULE_EDIT"; "SCHEDULE_REORDER"; "SCHEDULE_ADD";
       "SCHEDULE_REMOVE";
       "MESSAGE_SEND"; "MESSAGE_PRESET"; "MESSAGE_PRIVATE"; "MESSAGE_FLASH";
       "DISPLAY_FADE"; "DISPLAY_SETTINGS" ]);
    ("queue_manager",
     [ "START_RESUME"; "PAUSE"; "ADD_TIME"; "SUBTRACT_TIME";
       "SCHEDULE_VIEW"; "MESSAGE_PRESET"; "MESSAGE_SEND" ]);
    ("speaker", [ "PERSONAL_TIMER"; "PERSONAL_MESSAGES"; "SCHEDULE_VIEW" ]);
    ("viewer", []) ].

(** [table[key]] on an object literal, followed by a method call on the
    result: an own key gives its array, an inherited key gives something
    the method cannot be called on, any other key gives [undefined]. *)
Inductive Lookup :=
| Own (l : list string)
| Inherited
| Undefined.

Definition lookupTable (table : list (string * list string)) (key : string) : Lookup :=
  match JsMap.get key table with
  | Some l => Own l
  | None => if inherited key then Inherited else Undefined
  end.

Definition hasRolePermission (role action : string) : Completion bool :=
  match lookupTable rolePermissions role with
  | Own l => Normal (includes action l)
  | Inherited => Throw "TypeError: rolePermissions[role]?.includes is not a function"
  | Undefined => Normal false
  end.

Definition permissionMap : list (string * list string) :=
  [ ("START_RESUME", ["TIME_CONTROL"; "FULL_CONTROL"]);
    ("PAUSE", ["TIME_CONTROL"; "FULL_CONTROL"]);
    ("ADD_TIME", ["TIME_CONTROL"; "FULL_CONTROL"]);
    ("SEND_MESSAGE", ["MESSAGE_ONLY"; "TIME_CONTROL"; "FULL_CONTROL"]);
    ("SHOW_MESSAGE", ["MESSAGE_ONLY"; "TIME_CONTROL"; "FULL_CONTROL"]);
    ("FLASH_MESSAGE", ["MESSAGE_ONLY"; "TIME_CONTROL"; "FULL_CONTROL"]);
    ("FADE_TO_BLACK", ["FULL_CONTROL"]);
    ("SCHEDULE_CONTROL", ["FULL_CONTROL"]);
    ("SETTINGS_CONTROL", ["FULL_CONTROL"]) ].

(** The legacy branch of [hasPermission], entered with a non-empty grant
    list: [permissionMap[action] || []] and [some]. *)
Definition legacyPermission (permissions : list string) (action : string)
  : Completion bool :=
  match lookupTable permissionMap action with
  | Own requiredPermissions =>
      Normal (existsb (fun permission => includes permission permissions)
                      requiredPermissions)
  | Inherited => Throw "TypeError: requiredPermissions.some is not a function"
  | Undefined => Normal false
  end.

(** [hasPermission(client, action)]: the role first; without a role, no
    grant means no, and otherwise the legacy mapping decides. *)
Definition hasPermission (client : Client) (action : string) : Completion bool :=
  match truthy (role client) with
  | Some r => hasRolePermission r action
  | None =>
      match permissions client with
      | [] => Normal false
      | _ :: _ => legacyPermission (permissions client) action
      end
  end.

(** ** Frames and messages *)

Definition setType (t : ClientType) (c : Client) : Client :=
  {| id := id c; type := t; permissions := permissions c; name := name c;
     role := role c; requestedPermissions := requestedPermissions c;
     speakerName := speakerName c; url := url c |}.

Definition setPermissions (p : list string) (c : Client) : Client :=
  {| id := id c; type := type c; permissions := p; name := name c;
     role := role c; requestedPermissions := requestedPermissions c;
     speakerName := speakerName c; url := url c |}.

Inductive Frame :=
| REGISTER_CONTROLLER
| REGISTER_REMOTE (name role : option string) (permissions : option (list string))
                  (speakerName : option string)
| REGISTER_DISPLAY (url : option string)
| TIMER_UPDATE (data : Payload)
| MESSAGE_UPDATE (data : Payload)
| REMOTE_CONTROL (action : string) (data : Payload)
| GRANT_PERMISSIONS (clientId : ClientId) (permissions : list string)
| OTHER (type : string).

Module Out.
Inductive Msg :=
| CONTROLLER_STATUS (connected : bool)
| CONTROLLER_STATUS_FOR (connected : bool) (permissions : list string)
                        (role : option string)
| REMOTE_CONNECTED (clientId : ClientId) (name : ClientName) (role : option string)
                   (speakerName : option string) (permissions : list string)
| REMOTE_COUNT (count : nat)
| REQUEST_CURRENT_STATE (targetClientId : ClientId)
| DISPLAY_CONNECTED (clientId : ClientId) (name : ClientName) (url : option string)
| DISPLAY_DISCONNECTED (clientId : ClientId) (name : ClientName) (url : option string)
| TIMER_UPDATE (data : Payload)
| MESSAGE_UPDATE (data : Payload)
| REMOTE_CONTROL (action : string) (data : Payload)
| PERMISSION_DENIED (action : string)
| PERMISSIONS_GRANTED (permissions : list string).
End Out.

Definition Send := (WS * Out.Msg)%type.

Record Server := {
  clients : JsMap.t WS Client;
  controllerClient : option WS;
  remoteClients : JsSet.t WS;
  displayClients : JsSet.t WS
}.

Definition initial : Server :=
  {| clients := JsMap.empty; controllerClient := None;
     remoteClients := []; displayClients := [] |}.

Definition setClients (m : JsMap.t WS Client) (st : Server) : Server :=
  {| clients := m; controllerClient := controllerClient st;
     remoteClients := remoteClients st; displayClients := displayClients st |}.

Definition setController (c : option WS) (st : Server) : Server :=
  {| clients := clients st; controllerClient := c;
     remoteClients := remoteClients st; displayClients := displayClients st |}.

Definition setRemotes (s : JsSet.t WS) (st : Server) : Server :=
  {| clients := clients st; controllerClient := controllerClient st;
     remoteClients := s; displayClients := displayClients st |}.

Definition setDisplays (s : JsSet.t WS) (st : Server) : Server :=
  {| clients := clients st; controllerClient := controllerClient st;
     remoteClients := remoteClients st; displayClients := s |}.

(** ** Broadcast router *)

(** The body of [set.forEach(client => ...)]: [todo] is what is left to
    visit, [live] the set as mutated so far. An OPEN client is sent the
    message, any other is deleted from the set. *)
Fixpoint broadcastLoop (env : WS -> bool) (message : Out.Msg)
         (todo : list WS) (live : JsSet.t WS) : JsSet.t WS * list Send :=
  match todo with
  | [] => (live, [])
  | client :: rest =>
      if env client then
        let r := broadcastLoop env message rest live in
        (fst r, (client, message) :: snd r)
      else broadcastLoop env message rest (JsSet.delete client live)
  end.

Definition broadcastToRemotes (env : WS -> bool) (message : Out.Msg) (st : Server)
  : Server * list Send :=
  let r := broadcastLoop env message (remoteClients st) (remoteClients st) in
  (setRemotes (fst r) st, snd r).

Definition broadcastToDisplays (env : WS -> bool) (message : Out.Msg) (st : Server)
  : Server * list Send :=
  let r := broadcastLoop env message (displayClients st) (displayClients st) in
  (setDisplays (fst r) st, snd r).

(** [if (controllerClient && controllerClient.readyState === WebSocket.OPEN)
       controllerClient.send(...)] *)
Definition toController (env : WS -> bool) (st : Server) (message : Out.Msg)
  : list Send :=
  match controllerClient st with
  | Some c => if env c then [(c, message)] else []
  | None => []
  end.

Definition updateRemoteCount (env : WS -> bool) (st : Server) : list Send :=
  toController env st (Out.REMOTE_COUNT (JsSet.size (remoteClients st))).

(** ** Connection handlers *)

(** [wss.on('connection')]: [clientId] is [Date.now() + Math.random()]. *)
Definition onConnection (ws : WS) (clientId : ClientId) (st : Server) : Server :=
  setClients
    (JsMap.set ws {| id := clientId; type := unknown; permissions := [];
                     name := Name "Unknown Client"; role := None;
                     requestedPermissions := None; speakerName := None;
                     url := None |} (clients st)) st.

(** The target search of GRANT_PERMISSIONS: the first record, in the order
    of the map, with the named id and type [remote]. *)
Fixpoint grantLoop (targetClientId : ClientId) (permissions : list string)
         (entries : list (WS * Client)) : list (WS * Client) * list Send :=
  match entries with
  | [] => ([], [])
  | (wsClient, clientData) :: rest =>
      if andb (Z.eqb (id clientData) targetClientId)
              (match type clientData with remote => true | _ => false end)
      then ((wsClient, setPermissions permissions clientData) :: rest,
            [(wsClient, Out.PERMISSIONS_GRANTED permissions)])
      else let r := grantLoop targetClientId permissions rest in
           ((wsClient, clientData) :: fst r, snd r)
  end.

(** [ws.on('message')], after [JSON.parse]. A handler that dereferences
    the missing record of an unknown socket throws before it changes
    anything; the [catch] logs the error, so the state is kept and nothing
    is sent. *)
Definition onMessage (env : WS -> bool) (ws : WS) (data : Frame) (st : Server)
  : Server * list Send :=
  match data with
  | REGISTER_CONTROLLER =>
      match JsMap.get ws (clients st) with
      | None => (st, [])
      | Some client =>
          let st1 := setClients (JsMap.set ws (setType controller client) (clients st)) st in
          let st2 := setController (Some ws) st1 in
          broadcastToRemotes env (Out.CONTROLLER_STATUS true) st2
      end
  | REGISTER_REMOTE dname drole dpermissions dspeakerName =>
      match JsMap.get ws (clients st) with
      | None => (st, [])
      | Some client =>
          let requested := match dpermissions with Some l => l | None => [] end in
          let client' :=
            {| id := id client; type := remote; permissions := permissions client;
               name := match truthy dname with
                       | Some s => Name s
                       | None => RemoteClientName (id client)
                       end;
               role := truthy drole;
               requestedPermissions := Some requested;
               speakerName := truthy dspeakerName;
               url := url client |} in
          let st1 := setClients (JsMap.set ws client' (clients st)) st in
          let st2 := setRemotes (JsSet.add ws (remoteClients st1)) st1 in
          (st2,
           [(ws, Out.CONTROLLER_STATUS_FOR
                   (match controllerClient st2 with Some _ => true | None => false end)
                   requested (role client'))]
           ++ toController env st2
                (Out.REMOTE_CONNECTED (id client) (name client') (role client')
                                      (speakerName client') requested)
           ++ updateRemoteCount env st2)
      end
  | REGISTER_DISPLAY durl =>
      match JsMap.get ws (clients st) with
      | None => (st, [])
      | Some client =>
          let client' :=
            {| id := id client; type := display; permissions := permissions client;
               name := DisplayClientName (id client);
               role := role client;
               requestedPermissions := requestedPermissions client;
               speakerName := speakerName client;
               url := Some (match truthy durl with Some u => u | None => "Unknown" end) |} in
          let st1 := setClients (JsMap.set ws client' (clients st)) st in
          let st2 := setDisplays (JsSet.add ws (displayClients st1)) st1 in
          (st2,
           toController env st2 (Out.REQUEST_CURRENT_STATE (id client))
           ++ toController env st2
                (Out.DISPLAY_CONNECTED (id client) (name client') (url client')))
      end
  | TIMER_UPDATE d =>
      let r1 := broadcastToRemotes env (Out.TIMER_UPDATE d) st in
      let r2 := broadcastToDisplays env (Out.TIMER_UPDATE d) (fst r1) in
      (fst r2, snd r1 ++ snd r2)
  | MESSAGE_UPDATE d =>
      let r1 := broadcastToRemotes env (Out.MESSAGE_UPDATE d) st in
      let r2 := broadcastToDisplays env (Out.MESSAGE_UPDATE d) (fst r1) in
      (fst r2, snd r1 ++ snd r2)
  | REMOTE_CONTROL action d =>
      match JsMap.get ws (clients st) with
      | None => (st, [])
      | Some client =>
          match hasPermission client action with
          | Throw _ => (st, [])
          | Normal true => (st, toController env st (Out.REMOTE_CONTROL action d))
          | Normal false => (st, [(ws, Out.PERMISSION_DENIED action)])
          end
      end
  | GRANT_PERMISSIONS targetClientId newPermissions =>
      match JsMap.get ws (clients st) with
      | None => (st, [])
      | Some client =>
          match type client with
          | controller =>
              let r := grantLoop targetClientId newPermissions (clients st) in
              (setClients (fst r) st, snd r)
          | _ => (st, [])
          end
      end
  | OTHER _ => (st, [])
  end.

(** [ws.on('close')]. *)
Definition onClose (env : WS -> bool) (ws : WS) (st : Server) : Server * list Send :=
  let r :=
    match JsMap.get ws (clients st) with
    | None => (st, [])
    | Some client =>
        match type client with
        | controller =>
            broadcastToRemotes env (Out.CONTROLLER_STATUS false)
                               (setController None st)
        | remote =>
            let st1 := setRemotes (JsSet.delete ws (remoteClients st)) st in
            (st1, updateRemoteCount env st1)
        | display =>
            let st1 := setDisplays (JsSet.delete ws (displayClients st)) st in
            (st1, toController env st1
                    (Out.DISPLAY_DISCONNECTED (id client) (name client) (url client)))
        | unknown => (st, [])
        end
    end in
  (setClients (JsMap.delete ws (clients (fst r))) (fst r), snd r).

(** ** Runs of the server *)

Inductive Event :=
| Connection (ws : WS) (clientId : ClientId)
| Message (ws : WS) (data : Frame)
| Close (ws : WS).

(** [readyState === WebSocket.OPEN] for the handles listed in [opened]. *)
Definition openIn (opened : list WS) : WS -> bool :=
  fun w => existsb (Nat.eqb w) opened.

Definition step (env : WS -> bool) (e : Event) (st : Server) : Server * list Send :=
  match e with
  | Connection ws clientId => (onConnection ws clientId st, [])
  | Message ws data => onMessage env ws data st
  | Close ws => onClose env ws st
  end.

(** A run pairs every event with the handles that are OPEN when it is
    handled; it returns the final state and all sends in order. *)
Fixpoint run (evs : list (list WS * Event)) (st : Server) : Server * list Send :=
  match evs with
  | [] => (st, [])
  | (opened, e) :: rest =>
      let r := step (openIn opened) e st in
      let r' := run rest (fst r) in
      (fst r', snd r ++ snd r')
  end.

(** Does handling [e] in state [st] rewrite the grants of a client whose
    id is [i]? Only a GRANT_PERMISSIONS frame naming [i], sent by a socket
    whose record has type [controller], reaches the assignment. *)
Definition grantsTo (i : ClientId) (st : Server) (e : Event) : bool :=
  match e with
  | Message w (GRANT_PERMISSIONS target _) =>
      Z.eqb target i
      && match JsMap.get w (clients st) with
         | Some sender => match type sender with controller => true | _ => false end
         | None => false
         end
  | _ => false
  end.

(** Was such a frame handled somewhere along the run from [st]? *)
Fixpoint granted (i : ClientId) (evs : list (list WS * Event)) (st : Server) : bool :=
  match evs with
  | [] => false
  | (opened, e) :: rest =>
      grantsTo i st e || granted i rest (fst (step (openIn opened) e st))
  end.

(** Every record with id [i] holds no grant. *)
Definition ungranted (i : ClientId) (st : Server) : Prop :=
  forall w c, JsMap.get w (clients st) = Some c -> id c = i -> permissions c = [].

(** ** HTTP routes of the global-mode server *)

Inductive HttpResponse :=
| CommandAccepted
| ControllerNotConnected
| AuthenticationRequired
| RemotePage.

(** [POST /api/command]: [{ action, data }] of the body is forwarded as a
    REMOTE_CONTROL message; status 503 when no controller is OPEN. *)
Definition apiCommand (env : WS -> bool) (action : string) (data : Payload)
           (st : Server) : HttpResponse * list Send :=
  match controllerClient st with
  | Some c =>
      if env c then (CommandAccepted, [(c, Out.REMOTE_CONTROL action data)])
      else (ControllerNotConnected, [])
  | None => (ControllerNotConnected, [])
  end.

(** [GET /remote?token=...]: status 401 when
    [!token || !validateAuthToken(token)], the page otherwise. *)
Definition getRemote (token : option string) (now : Z) (authTokens : AuthTokens)
  : HttpResponse * AuthTokens :=
  match truthy token with
  | None => (AuthenticationRequired, authTokens)
  | Some t =>
      let r := validateAuthToken t now authTokens in
      if fst r then (RemotePage, snd r) else (AuthenticationRequired, snd r)
  end.

(** ** State predicates used in the invariants *)

(** The client map has one entry per socket and the two sets hold each
    socket once. *)
Definition setsDistinct (st : Server) : Prop :=
  NoDup (JsMap.keys (clients st))
  /\ NoDup (remoteClients st) /\ NoDup (displayClients st).

(** A record still of type [unknown] has neither role nor grants. *)
Definition unregisteredBare (st : Server) : Prop :=
  forall w c, JsMap.get w (clients st) = Some c -> type c = unknown ->
              permissions c = [] /\ role c = None.

End WebsocketServer.

(* ================================================================== *)
(** * Room codes ([generateRoomCode], the same in room-server.js and
      auth-server.js) *)

Definition hexDigit (n : nat) : Ascii.ascii :=
  match String.get n "0123456789ABCDEF" with
  | Some c => c
  | None => "0"%char
  end.

Definition hexByte (b : Byte.byte) : string :=
  let n := N.to_nat (Byte.to_N b) in
  String (hexDigit (n / 16)) (String (hexDigit (n mod 16)) EmptyString).

(** The three bytes of [crypto.randomBytes(3)]. *)
Definition Bytes3 := (Byte.byte * Byte.byte * Byte.byte)%type.

(** [crypto.randomBytes(3).toString('hex').toUpperCase()] *)
Definition generateRoomCode (random : Bytes3) : string :=
  let '(b0, b1, b2) := random in
  (hexByte b0 ++ hexByte b1 ++ hexByte b2)%string.

(** Is [c] one of the sixteen upper-case hexadecimal digits? *)
Definition isUpperHex (c : ascii) : bool :=
  existsb (Ascii.eqb c) (list_ascii_of_string "0123456789ABCDEF").

(** Reading a two-digit upper-case hexadecimal string back as a byte;
    used to state that [hexByte] loses nothing. *)
Fixpoint hexValue (digits : list ascii) (c : ascii) : option nat :=
  match digits with
  | [] => None
  | d :: rest =>
      if Ascii.eqb c d then Some 0
      else match hexValue rest c with
           | Some n => Some (S n)
           | None => None
           end
  end.

Definition unhexByte (s : string) : option Byte.byte :=
  match s with
  | String c1 (String c2 EmptyString) =>
      match hexValue (list_ascii_of_string "0123456789ABCDEF") c1,
            hexValue (list_ascii_of_string "0123456789ABCDEF") c2 with
      | Some h, Some l => Byte.of_N (N.of_nat (16 * h + l))
      | _, _ => None
      end
  | _ => None
  end.

(* ================================================================== *)
(** * server/room-server.js (room mode) *)

Module RoomServer.

Definition WS := nat.

Definition MAX_USERS_PER_ROOM : nat := 50.
Definition ROOM_TIMEOUT : Z := 24 * 60 * 60 * 1000.

(** A host or participant object. [oid] is the identity of the object
    (what [===] compares); it is given at allocation and is no field of
    the program. Only [ws] is ever assigned after allocation. Hosts are
    allocated with a [type] and no [role], participants with a [role] and
    no [type]. *)
Record User := {
  oid : nat;
  id : string;
  name : string;
  type : option string;
  role : option string;
  joinedAt : Z;
  ws : option WS
}.

Definition setWs (w : option WS) (u : User) : User :=
  {| oid := oid u; id := id u; name := name u; type := type u; role := role u;
     joinedAt := joinedAt u; ws := w |}.

Record Settings := {
  allowViewers : bool;
  allowSpeakers : bool;
  requireApproval : bool;
  maxUsers : nat
}.

(** A value of the last-known-state blob. *)
Inductive JVal :=
| JNull
| JBool (b : bool)
| JRaw (json : string).

Definition StateBlob := JsMap.t string JVal.

Record Room := {
  code : string;
  host : User;
  users : JsMap.t string User;
  createdAt : Z;
  lastActivity : Z;
  settings : Settings;
  state : StateBlob
}.

Definition Rooms := JsMap.t string Room.

Definition setHost (h : User) (r : Room) : Room :=
  {| code := code r; host := h; users := users r; createdAt := createdAt r;
     lastActivity := lastActivity r; settings := settings r; state := state r |}.

Definition setUsers (us : JsMap.t string User) (r : Room) : Room :=
  {| code := code r; host := host r; users := us; createdAt := createdAt r;
     lastActivity := lastActivity r; settings := settings r; state := state r |}.

Definition setLastActivity (now : Z) (r : Room) : Room :=
  {| code := code r; host := host r; users := users r; createdAt := createdAt r;
     lastActivity := now; settings := settings r; state := state r |}.

Definition setState (s : StateBlob) (r : Room) : Room :=
  {| code := code r; host := host r; users := users r; createdAt := createdAt r;
     lastActivity := lastActivity r; settings := settings r; state := s |}.

(** [{ ...a, ...b }] *)
Definition spread (a b : StateBlob) : StateBlob :=
  fold_left (fun acc kv => JsMap.set (fst kv) (snd kv) acc) b a.

(** [room.state.isConnected]: the value under that key, whatever it is,
    or [undefined]. *)
Definition stateIsConnected (r : Room) : option JVal :=
  JsMap.get "isConnected" (state r).

(** ** Room store *)

(** [createRoom(hostInfo, customRoomCode = null)]; [random] is what
    [crypto.randomBytes] yields if the generator is called, [now] the
    clock. *)
Definition createRoom (hostInfo : User) (customRoomCode : option string)
           (random : Bytes3) (now : Z) (rooms : Rooms) : Room * Rooms :=
  let roomCode := match truthy customRoomCode with
                  | Some c => c
                  | None => generateRoomCode random
                  end in
  let room :=
    {| code := roomCode;
       host := hostInfo;
       users := JsMap.empty;
       createdAt := now;
       lastActivity := now;
       settings := {| allowViewers := true; allowSpeakers := true;
                      requireApproval := false;
                      maxUsers := MAX_USERS_PER_ROOM |};
       state := [("timer", JNull); ("message", JNull);
                 ("isConnected", JBool false)] |} in
  (room, JsMap.set roomCode room rooms).

Definition joinRoom (roomCode : string) (userInfo : User) (now : Z) (rooms : Rooms)
  : Completion Room * Rooms :=
  match JsMap.get roomCode rooms with
  | None => (Throw "Room not found", rooms)
  | Some room =>
      if (maxUsers (settings room) <=? JsMap.size (users room))%nat then
        (Throw "Room is full", rooms)
      else
        let room' :=
          setLastActivity now
            (setUsers (JsMap.set (id userInfo) userInfo (users room)) room) in
        (Normal room', JsMap.set roomCode room' rooms)
  end.

Definition leaveRoom (roomCode userId : string) (now : Z) (rooms : Rooms) : Rooms :=
  match JsMap.get roomCode rooms with
  | None => rooms
  | Some room =>
      let room' :=
        setLastActivity now (setUsers (JsMap.delete userId (users room)) room) in
      if (JsMap.size (users room') =? 0)%nat then JsMap.delete roomCode rooms
      else JsMap.set roomCode room' rooms
  end.

(** The periodic clean-up of inactive rooms. *)
Definition sweep (now : Z) (rooms : Rooms) : Rooms :=
  filter (fun kv => negb (ROOM_TIMEOUT <? now - lastActivity (snd kv))%Z) rooms.

(** ** Messages *)

Module Out.
Inductive Msg :=
| ERROR (message : string)
| HOST_CONNECTED (host : User)
| HOST_DISCONNECTED
| ROOM_JOINED (roomCode : string) (clients : list User) (code : string)
              (settings : Settings) (userCount : nat)
| ROOM_INFO (code : string) (settings : Settings) (userCount : nat)
| ROOM_CLIENT_JOINED (client : User)
| ROOM_CLIENT_LEFT (clientId : string)
| ROOM_STATE (state : StateBlob) (isHostConnected : option JVal)
| ROOM_STATE_UPDATE (state : StateBlob)
| USER_JOINED (user : User)
| USER_LEFT (user : User)
| USER_COMMAND (user : User) (command data : string)
| CHAT_MESSAGE (id : string) (user : User) (message : string) (timestamp : Z).
End Out.

Definition Send := (WS * Out.Msg)%type.

(** [user.ws && user.ws.readyState === WebSocket.OPEN] *)
Definition wsOpen (env : WS -> bool) (u : User) : option WS :=
  match ws u with
  | Some w => if env w then Some w else None
  | None => None
  end.

(** The body of [room.users.forEach((user, userId) => ...)]. *)
Fixpoint broadcastUsers (env : WS -> bool) (message : Out.Msg)
         (excludeUserId : option string) (entries : list (string * User))
  : list Send :=
  match entries with
  | [] => []
  | (userId, user) :: rest =>
      let skip := match excludeUserId with
                  | Some x => String.eqb userId x
                  | None => false
                  end in
      match (if skip then None else wsOpen env user) with
      | Some w => (w, message) :: broadcastUsers env message excludeUserId rest
      | None => broadcastUsers env message excludeUserId rest
      end
  end.

(** [broadcastToRoom(roomCode, message, excludeUserId = null)]: it sends
    and changes nothing. *)
Definition broadcastToRoom (env : WS -> bool) (rooms : Rooms) (roomCode : string)
           (message : Out.Msg) (excludeUserId : option string) : list Send :=
  match JsMap.get roomCode rooms with
  | None => []
  | Some room => broadcastUsers env message excludeUserId (users room)
  end.

(** ** Connections *)

(** The closure variables of one connection. [currentUser] refers to a
    host or participant object that the room store, and the closures of
    other connections, may refer to as well. A reference is kept as the
    fields of the object it refers to, together with the object's identity
    [oid]; an assignment to a field of an object is therefore made at every
    reference to that object (see [assignConns]). *)
Record Conn := {
  currentUser : option User;
  currentRoom : option string
}.

Definition noConn : Conn := {| currentUser := None; currentRoom := None |}.

(** [x.ws = v], where [x] is the object of identity [o], as it shows
    through a reference [u]. *)
Definition assignWs (o : nat) (v : option WS) (u : User) : User :=
  if Nat.eqb (oid u) o then setWs v u else u.

Definition assignConn (o : nat) (v : option WS) (c : Conn) : Conn :=
  {| currentUser := option_map (assignWs o v) (currentUser c);
     currentRoom := currentRoom c |}.

Record Server := {
  rooms : Rooms;
  conns : JsMap.t WS Conn;
  nextOid : nat
}.

Definition initial : Server :=
  {| rooms := JsMap.empty; conns := JsMap.empty; nextOid := 0 |}.

Definition connOf (w : WS) (st : Server) : Conn :=
  match JsMap.get w (conns st) with
  | Some c => c
  | None => noConn
  end.

Definition setRooms (rs : Rooms) (st : Server) : Server :=
  {| rooms := rs; conns := conns st; nextOid := nextOid st |}.

Definition setConn (w : WS) (c : Conn) (st : Server) : Server :=
  {| rooms := rooms st; conns := JsMap.set w c (conns st); nextOid := nextOid st |}.

Definition allocated (st : Server) : Server :=
  {| rooms := rooms st; conns := conns st; nextOid := S (nextOid st) |}.

(** [x.ws = v] as seen by the connections: every closure whose
    [currentUser] is the object [o] sees the new value. The handlers make
    the same assignment in the room store, at the reference through which
    the code reaches the object ([room.host] or [room.users.get(userId)]);
    in a run of the server the store holds no second reference to it (see
    [coherent]). *)
Definition assignConns (o : nat) (v : option WS) (st : Server) : Server :=
  {| rooms := rooms st;
     conns := map (fun kv => (fst kv, assignConn o v (snd kv))) (conns st);
     nextOid := nextOid st |}.

Definition orElse (s : option string) (d : string) : string :=
  match truthy s with
  | Some x => x
  | None => d
  end.

(** [data.clientInfo] of a JOIN_ROOM frame, when the frame has one. *)
Module ClientInfo.
Record t := { name : option string; role : option string }.
End ClientInfo.

(** A parsed frame. [clientInfo] is [None] when the frame has no such
    field (or holds [null]). *)
Inductive Frame :=
| REGISTER_HOST (roomCode : string)
| JOIN_ROOM (roomCode : string) (clientType : option string)
            (clientInfo : option ClientInfo.t)
| LEAVE_ROOM (roomCode : string)
| REGISTER_USER (roomCode userId : string)
| ROOM_STATE_UPDATE (state : option StateBlob)
| USER_COMMAND (command data : string)
| CHAT_MESSAGE (message : string)
| OTHER (type : string).

(** The host branch shared by [handleJoinRoom] and [handleRegisterHost]. *)
Definition attachHost (w : WS) (now : Z) (room : Room) : Room :=
  setLastActivity now
    (setState (JsMap.set "isConnected" (JBool true) (state room))
       (setHost (setWs (Some w) (host room)) room)).

(** [if (room.host.ws && room.host.ws.readyState === WebSocket.OPEN)
       room.host.ws.send(...)] *)
Definition toHost (env : WS -> bool) (room : Room) (message : Out.Msg) : list Send :=
  match wsOpen env (host room) with
  | Some w => [(w, message)]
  | None => []
  end.

Definition roomJoined (roomCode : string) (room : Room) : Out.Msg :=
  Out.ROOM_JOINED roomCode (JsMap.values (users room)) (code room) (settings room)
                  (JsMap.size (users room)).

(** [clientType === 'host'] *)
Definition isHostType (clientType : option string) : bool :=
  match clientType with
  | Some t => String.eqb t "host"
  | None => false
  end.

(** The participant object literal of [handleJoinRoom]. *)
Definition webUser (st : Server) (w : WS) (now : Z) (uuid : string)
           (clientName clientRole : option string) : User :=
  {| oid := nextOid st; id := uuid;
     name := orElse clientName "Anonymous User";
     type := None;
     role := Some (orElse clientRole "viewer");
     joinedAt := now; ws := Some w |}.

(** [uuid] is the value of [crypto.randomUUID()] in the participant
    branch. That branch reads [clientInfo.name] while it builds the object
    literal: without a [clientInfo] this raises a TypeError, before
    anything is stored or sent. *)
Definition handleJoinRoom (env : WS -> bool) (w : WS) (now : Z) (uuid : string)
           (roomCode : string) (clientType : option string)
           (clientInfo : option ClientInfo.t)
           (st : Server) : Completion (Server * list Send) :=
  match JsMap.get roomCode (rooms st) with
  | None => Normal (st, [(w, Out.ERROR "Room not found")])
  | Some room =>
      if isHostType clientType then
          let room' := attachHost w now room in
          let st1 := setRooms (JsMap.set roomCode room' (rooms st))
                              (assignConns (oid (host room)) (Some w) st) in
          let st2 := setConn w {| currentUser := Some (host room');
                                  currentRoom := Some roomCode |} st1 in
          Normal
            (st2,
             broadcastToRoom env (rooms st2) roomCode (Out.HOST_CONNECTED (host room')) None
             ++ [(w, roomJoined roomCode room')])
      else
          match clientInfo with
          | None => Throw "Cannot read properties of undefined (reading 'name')"
          | Some info =>
              let userInfo :=
                webUser st w now uuid (ClientInfo.name info) (ClientInfo.role info) in
              let room' :=
                setLastActivity now
                  (setUsers (JsMap.set (id userInfo) userInfo (users room)) room) in
              let st1 := allocated (setRooms (JsMap.set roomCode room' (rooms st)) st) in
              let st2 := setConn w {| currentUser := Some userInfo;
                                      currentRoom := Some roomCode |} st1 in
              Normal
                (st2,
                 toHost env room' (Out.ROOM_CLIENT_JOINED userInfo)
                 ++ [(w, roomJoined roomCode room')])
          end
  end.

Definition sameObject (a : option User) (b : User) : bool :=
  match a with
  | Some u => Nat.eqb (oid u) (oid b)
  | None => false
  end.

Definition handleLeaveRoom (env : WS -> bool) (w : WS) (roomCode : string)
           (st : Server) : Server * list Send :=
  match JsMap.get roomCode (rooms st) with
  | None => (st, [])
  | Some room =>
      let cleared := {| currentUser := None; currentRoom := None |} in
      if sameObject (currentUser (connOf w st)) (host room) then
        let room' :=
          setState (JsMap.set "isConnected" (JBool false) (state room))
                   (setHost (setWs None (host room)) room) in
        let st1 := setRooms (JsMap.set roomCode room' (rooms st))
                            (assignConns (oid (host room)) None st) in
        (setConn w cleared st1,
         broadcastToRoom env (rooms st1) roomCode Out.HOST_DISCONNECTED None)
      else
        match currentUser (connOf w st) with
        | Some u =>
            match truthy (Some (id u)) with
            | Some userId =>
                if JsMap.has userId (users room) then
                  let room' := setUsers (JsMap.delete userId (users room)) room in
                  let st1 := setRooms (JsMap.set roomCode room' (rooms st)) st in
                  (setConn w cleared st1,
                   toHost env room' (Out.ROOM_CLIENT_LEFT userId))
                else (setConn w cleared st, [])
            | None => (setConn w cleared st, [])
            end
        | None => (setConn w cleared st, [])
        end
  end.

Definition handleRegisterHost (env : WS -> bool) (w : WS) (now : Z)
           (roomCode : string) (st : Server) : Server * list Send :=
  match JsMap.get roomCode (rooms st) with
  | None => (st, [(w, Out.ERROR "Room not found")])
  | Some room =>
      let room' := attachHost w now room in
      let st1 := setRooms (JsMap.set roomCode room' (rooms st))
                          (assignConns (oid (host room)) (Some w) st) in
      let st2 := setConn w {| currentUser := Some (host room');
                              currentRoom := Some roomCode |} st1 in
      (st2,
       broadcastToRoom env (rooms st2) roomCode (Out.HOST_CONNECTED (host room')) None
       ++ [(w, Out.ROOM_INFO (code room') (settings room') (JsMap.size (users room')))])
  end.

Definition handleRegisterUser (env : WS -> bool) (w : WS)
           (roomCode userId : string) (st : Server) : Server * list Send :=
  match JsMap.get roomCode (rooms st) with
  | None => (st, [(w, Out.ERROR "Room not found")])
  | Some room =>
      match JsMap.get userId (users room) with
      | None => (st, [(w, Out.ERROR "User not found in room")])
      | Some user0 =>
          let user := setWs (Some w) user0 in
          let room' := setUsers (JsMap.set userId user (users room)) room in
          let st1 := setRooms (JsMap.set roomCode room' (rooms st))
                              (assignConns (oid user0) (Some w) st) in
          let st2 := setConn w {| currentUser := Some user;
                                  currentRoom := Some roomCode |} st1 in
          (st2,
           [(w, Out.ROOM_STATE (state room') (stateIsConnected room'))]
           ++ broadcastToRoom env (rooms st2) roomCode (Out.USER_JOINED user)
                              (Some userId))
      end
  end.

Definition isDesktop (u : User) : bool :=
  match type u with
  | Some t => String.eqb t "desktop"
  | None => false
  end.

Definition handleRoomStateUpdate (env : WS -> bool) (w : WS) (now : Z)
           (newState : option StateBlob) (st : Server) : Server * list Send :=
  match truthy (currentRoom (connOf w st)), currentUser (connOf w st) with
  | Some roomCode, Some user =>
      if isDesktop user then
        match JsMap.get roomCode (rooms st) with
        | None => (st, [])
        | Some room =>
            let merged :=
              spread (state room) (match newState with Some s => s | None => [] end) in
            let room' := setLastActivity now (setState merged room) in
            let st1 := setRooms (JsMap.set roomCode room' (rooms st)) st in
            (st1,
             broadcastToRoom env (rooms st1) roomCode
                             (Out.ROOM_STATE_UPDATE (state room')) None)
        end
      else (st, [])
  | _, _ => (st, [])
  end.

Definition handleUserCommand (w : WS) (command data : string) (st : Server)
  : Server * list Send :=
  match truthy (currentRoom (connOf w st)), currentUser (connOf w st) with
  | Some roomCode, Some user =>
      match JsMap.get roomCode (rooms st) with
      | None => (st, [])
      | Some room =>
          match ws (host room) with
          | Some hw => (st, [(hw, Out.USER_COMMAND user command data)])
          | None => (st, [])
          end
      end
  | _, _ => (st, [])
  end.

Definition handleChatMessage (env : WS -> bool) (w : WS) (now : Z) (uuid : string)
           (message : string) (st : Server) : Server * list Send :=
  match truthy (currentRoom (connOf w st)), currentUser (connOf w st) with
  | Some roomCode, Some user =>
      (st, broadcastToRoom env (rooms st) roomCode
                           (Out.CHAT_MESSAGE uuid user message now) None)
  | _, _ => (st, [])
  end.

Definition handleWebSocketMessage (env : WS -> bool) (w : WS) (now : Z)
           (uuid : string) (data : Frame) (st : Server)
  : Completion (Server * list Send) :=
  match data with
  | REGISTER_HOST roomCode => Normal (handleRegisterHost env w now roomCode st)
  | JOIN_ROOM roomCode clientType clientInfo =>
      handleJoinRoom env w now uuid roomCode clientType clientInfo st
  | LEAVE_ROOM roomCode => Normal (handleLeaveRoom env w roomCode st)
  | REGISTER_USER roomCode userId => Normal (handleRegisterUser env w roomCode userId st)
  | ROOM_STATE_UPDATE newState => Normal (handleRoomStateUpdate env w now newState st)
  | USER_COMMAND command data => Normal (handleUserCommand w command data st)
  | CHAT_MESSAGE message => Normal (handleChatMessage env w now uuid message st)
  | OTHER _ => Normal (st, [])
  end.

(** [ws.on('message')], for a message that parses: what the handler
    raises is caught and answered to the sender. The one raise of the
    handlers comes before any of their effects. *)
Definition onMessage (env : WS -> bool) (w : WS) (now : Z)
           (uuid : string) (data : Frame) (st : Server) : Server * list Send :=
  match handleWebSocketMessage env w now uuid data st with
  | Normal r => r
  | Throw _ => (st, [(w, Out.ERROR "Invalid message format")])
  end.

(** [ws.on('close')] *)
Definition onClose (env : WS -> bool) (w : WS) (now : Z) (st : Server)
  : Server * list Send :=
  match currentUser (connOf w st), truthy (currentRoom (connOf w st)) with
  | Some user, Some roomCode =>
      let st1 := setRooms (leaveRoom roomCode (id user) now (rooms st)) st in
      (st1, broadcastToRoom env (rooms st1) roomCode (Out.USER_LEFT user) None)
  | _, _ => (st, [])
  end.

(** ** HTTP endpoints *)

Inductive Response :=
| RoomCreated (code : string) (settings : Settings) (createdAt : Z)
| RoomJoined (user : User) (code : string) (settings : Settings) (userCount : nat)
| Failed (status : nat) (error : string).

Definition newHost (st : Server) (uuid : string) (hostName hostType : option string)
           (defaultName : string) (now : Z) : User :=
  {| oid := nextOid st; id := uuid; name := orElse hostName defaultName;
     type := Some (orElse hostType "desktop"); role := None;
     joinedAt := now; ws := None |}.

(** [POST /api/rooms] *)
Definition postRooms (hostName hostType : option string) (uuid : string)
           (random : Bytes3) (now : Z) (st : Server) : Response * Server :=
  let r := createRoom (newHost st uuid hostName hostType "Room Host" now)
                      None random now (rooms st) in
  (RoomCreated (code (fst r)) (settings (fst r)) (createdAt (fst r)),
   allocated (setRooms (snd r) st)).

(** [POST /api/rooms/create]; [random] feeds the generator call of the
    endpoint, [random'] the one [createRoom] would make. *)
Definition postRoomsCreate (roomCode hostType hostName : option string)
           (uuid : string) (random random' : Bytes3) (now : Z) (st : Server)
  : Response * Server :=
  let code0 := match truthy roomCode with
               | Some c => c
               | None => generateRoomCode random
               end in
  if JsMap.has code0 (rooms st) then (Failed 400 "Room code already exists", st)
  else
    let r := createRoom (newHost st uuid hostName hostType "Desktop App" now)
                        (Some code0) random' now (rooms st) in
    (RoomCreated (code (fst r)) (settings (fst r)) (createdAt (fst r)),
     allocated (setRooms (snd r) st)).

(** [POST /api/rooms/:roomCode/join] *)
Definition postJoin (roomCode : string) (userName userRole : option string)
           (uuid : string) (now : Z) (st : Server) : Response * Server :=
  let userInfo :=
    {| oid := nextOid st; id := uuid; name := orElse userName "Anonymous User";
       type := None; role := Some (orElse userRole "viewer");
       joinedAt := now; ws := None |} in
  match joinRoom roomCode userInfo now (rooms st) with
  | (Normal room, rooms') =>
      (RoomJoined userInfo (code room) (settings room) (JsMap.size (users room)),
       allocated (setRooms rooms' st))
  | (Throw message, _) => (Failed 400 message, allocated st)
  end.

(** ** Runs of the server *)

Inductive Event :=
| PostRooms (hostName hostType : option string) (uuid : string) (random : Bytes3)
| PostRoomsCreate (roomCode hostType hostName : option string) (uuid : string)
                  (random random' : Bytes3)
| PostJoin (roomCode : string) (userName userRole : option string) (uuid : string)
| Message (w : WS) (uuid : string) (data : Frame)
| Close (w : WS)
| Sweep.

Definition step (env : WS -> bool) (now : Z) (e : Event) (st : Server)
  : Server * list Send :=
  match e with
  | PostRooms hostName hostType uuid random =>
      (snd (postRooms hostName hostType uuid random now st), [])
  | PostRoomsCreate roomCode hostType hostName uuid random random' =>
      (snd (postRoomsCreate roomCode hostType hostName uuid random random' now st), [])
  | PostJoin roomCode userName userRole uuid =>
      (snd (postJoin roomCode userName userRole uuid now st), [])
  | Message w uuid data => onMessage env w now uuid data st
  | Close w => onClose env w now st
  | Sweep => (setRooms (sweep now (rooms st)) st, [])
  end.

Definition openIn (opened : list WS) : WS -> bool :=
  fun w => existsb (Nat.eqb w) opened.

(** A run pairs every event with the handles that are OPEN and the value
    of the clock when it is handled. *)
Fixpoint run (evs : list (list WS * Z * Event)) (st : Server) : Server * list Send :=
  match evs with
  | [] => (st, [])
  | (opened, now, e) :: rest =>
      let r := step (openIn opened) now e st in
      let r' := run rest (fst r) in
      (fst r', snd r ++ snd r')
  end.

(** ** Host and participant objects *)

(** Hosts are allocated by the room-creation endpoints with a [type] and
    no [role]; participants by the join paths with a [role] and no
    [type]. *)
Definition isHost (u : User) : Prop := type u <> None /\ role u = None.

Definition isParticipant (u : User) : Prop := type u = None /\ role u <> None.

Definition roomOk (r : Room) : Prop :=
  isHost (host r) /\ Forall (fun e => isParticipant (snd e)) (users r).

Definition connOk (c : Conn) : Prop :=
  match currentUser c with
  | Some u => isHost u \/ isParticipant u
  | None => True
  end.

Definition wellFormed (st : Server) : Prop :=
  Forall (fun kv => roomOk (snd kv)) (rooms st)
  /\ Forall (fun kv => connOk (snd kv)) (conns st).

(** ** State predicates used in the invariants *)

(** A room is stored under its own code, which is not empty; its
    participants are stored under their own ids, one entry each. *)
Definition roomKeyed (kv : string * Room) : Prop :=
  code (snd kv) = fst kv
  /\ fst kv <> ""
  /\ NoDup (JsMap.keys (users (snd kv)))
  /\ Forall (fun e => id (snd e) = fst e) (users (snd kv)).

(** The closure variables of a connection are set and cleared together,
    and a set room code is not empty. *)
Definition connAttached (c : Conn) : Prop :=
  match currentUser c, currentRoom c with
  | None, None => True
  | Some _, Some roomCode => roomCode <> ""
  | _, _ => False
  end.

Definition keyed (st : Server) : Prop :=
  NoDup (JsMap.keys (rooms st))
  /\ Forall roomKeyed (rooms st)
  /\ Forall (fun kv => connAttached (snd kv)) (conns st).

(** Every room has the default capacity and does not exceed it. *)
Definition capped (st : Server) : Prop :=
  Forall (fun kv => maxUsers (settings (snd kv)) = MAX_USERS_PER_ROOM
                    /\ JsMap.size (users (snd kv)) <= MAX_USERS_PER_ROOM)
         (rooms st).

(** The references to host and participant objects that outlive a
    handler: those of the room store and the [currentUser] of the
    connections. *)
Definition roomRefs (r : Room) : list User := host r :: map snd (users r).

Definition storeRefs (rs : Rooms) : list User := flatOf roomRefs rs.

(** The identities of the objects a room, or a participant entry, holds. *)
Definition roomOids (r : Room) : list nat := map oid (roomRefs r).

Definition userOid (u : User) : list nat := [oid u].

Definition connRef (c : Conn) : list User :=
  match currentUser c with
  | Some u => [u]
  | None => []
  end.

Definition connRefs (cs : JsMap.t WS Conn) : list User := flatOf connRef cs.

Definition refs (st : Server) : list User :=
  storeRefs (rooms st) ++ connRefs (conns st).

(** Every object is referred to from at most one place of the room store,
    identities are handed out in order, and two references to the same
    object show the same fields. *)
Definition coherent (st : Server) : Prop :=
  NoDup (flatOf roomOids (rooms st))
  /\ (forall u, In u (refs st) -> oid u < nextOid st)
  /\ (forall u v, In u (refs st) -> In v (refs st) -> oid u = oid v -> u = v).

(** Events other than a participant's JOIN_ROOM frame. *)
Definition notWebJoin (e : Event) : bool :=
  match e with
  | Message _ _ (JOIN_ROOM _ clientType _) => isHostType clientType
  | _ => true
  end.

End RoomServer.

(* ================================================================== *)
(** * server/auth-server.js: the code-generation loop of room creation *)

Module AuthServer.

Record Account := {
  id : string;
  name : string;
  email : string;
  rooms : list string
}.

Record Server := {
  users : JsMap.t string Account;
  roomOwners : JsMap.t string string
}.

Definition inspect {A : Type} (a : A) : { b : A | a = b } := exist _ a eq_refl.

(** [do { roomCode = generateRoomCode(); attempts++; }
     while (roomOwners.has(roomCode) && attempts < 10);]
    entered with [attempts] draws already made; [draws k] is what the
    generator yields on its call number [k]. Returns [roomCode] and
    [attempts] as the loop leaves them. *)
Equations? codeLoop (draws : nat -> Bytes3) (owners : JsMap.t string string)
           (attempts : nat) : string * nat by wf (10 - attempts) lt :=
  codeLoop draws owners attempts
    with inspect (JsMap.has (generateRoomCode (draws attempts)) owners
                  && (S attempts <? 10)%nat) := {
    | exist _ true _ => codeLoop draws owners (S attempts);
    | exist _ false _ => (generateRoomCode (draws attempts), S attempts) }.
Proof.
  apply andb_prop in e. destruct e as [_ e].
  apply Nat.ltb_lt in e.
  change (10 - S attempts < 10 - attempts). lia.
Qed.

Inductive Response :=
| RoomCreated (code : string) (ownerId : string)
| Failed (status : nat) (error : string).

(** [POST /api/rooms/create] of the auth server, after [authenticateToken]
    has put [userId] and [userEmail] on the request. Of the response only
    the code and the owner are kept. *)
Definition postRoomsCreate (userId userEmail : string) (draws : nat -> Bytes3)
           (st : Server) : Response * Server :=
  match JsMap.get userEmail (users st) with
  | None => (Failed 404 "User not found", st)
  | Some user =>
      let r := codeLoop draws (roomOwners st) 0 in
      if (10 <=? snd r)%nat then
        (Failed 500 "Failed to generate unique room code", st)
      else
        let user' := {| id := id user; name := name user; email := email user;
                        rooms := rooms user ++ [fst r] |} in
        (RoomCreated (fst r) userId,
         {| users := JsMap.set userEmail user' (users st);
            roomOwners := JsMap.set (fst r) userId (roomOwners st) |})
  end.

(** ** Room lists of the accounts *)

(** Every code listed in some account's [rooms]. *)
Definition allRooms (st : Server) : list string :=
  flat_map (fun kv => rooms (snd kv)) (users st).

(** No code is listed twice and every listed code has an owner. *)
Definition owned (st : Server) : Prop :=
  NoDup (allRooms st)
  /\ forall c, In c (allRooms st) -> JsMap.has c (roomOwners st) = true.

(** A sequence of authenticated room creations, each with its caller and
    its own random draws. *)
Fixpoint createAll (calls : list (string * string * (nat -> Bytes3))) (st : Server)
  : Server :=
  match calls with
  | [] => st
  | (userId, userEmail, draws) :: rest =>
      createAll rest (snd (postRoomsCreate userId userEmail draws st))
  end.

End AuthServer.

(* ================================================================== *)
(** * server/auth-server.js: accounts *)

(** Registration, login and password change, on the account record with
    all the fields these routes read ([AuthServer.Account] above keeps the
    fields room creation reads). The libraries are parameters:
    [hashPassword salt password] is [bcrypt.hashSync(password, 10)] with
    the salt it draws, [verifyPassword] is [bcrypt.compareSync],
    [lowerTrim] is [s.toLowerCase().trim()] and [trim] is [s.trim()]. The
    signed token of the responses is left out. *)
Module AuthAccounts.
Section Routes.
Variable hashPassword : string -> string -> string.
Variable verifyPassword : string -> string -> bool.
Variable lowerTrim : string -> string.
Variable trim : string -> string.

Record Account := {
  id : string;
  name : string;
  email : string;
  password : string;
  createdAt : string;
  rooms : list string;
  lastLogin : option string
}.

Definition Users := JsMap.t string Account.

Inductive Response :=
| Success (user : Account)
| Failed (status : nat) (error : string).

(** [POST /api/auth/register]; [uuid] is [crypto.randomUUID()], [stamp]
    the ISO time. The map key is the e-mail as received. *)
Definition register (dname demail dpassword : option string)
           (uuid salt stamp : string) (users : Users) : Response * Users :=
  match truthy dname, truthy demail, truthy dpassword with
  | Some n, Some e, Some p =>
      if (String.length p <? 6)%nat then
        (Failed 400 "Password must be at least 6 characters", users)
      else if JsMap.has e users then
        (Failed 409 "User with this email already exists", users)
      else
        let user := {| id := ("user_" ++ uuid)%string;
                       name := trim n;
                       email := lowerTrim e;
                       password := hashPassword salt p;
                       createdAt := stamp;
                       rooms := [];
                       lastLogin := None |} in
        (Success {| id := id user; name := name user; email := email user;
                    password := ""; createdAt := createdAt user; rooms := rooms user;
                    lastLogin := Some stamp |},
         JsMap.set e user users)
  | _, _, _ => (Failed 400 "Name, email, and password are required", users)
  end.

(** [POST /api/auth/login]: the account is looked up under the lower-cased,
    trimmed e-mail. *)
Definition login (demail dpassword : option string) (stamp : string) (users : Users)
  : Response * Users :=
  match truthy demail, truthy dpassword with
  | Some e, Some p =>
      match JsMap.get (lowerTrim e) users with
      | None => (Failed 401 "Invalid email or password", users)
      | Some user =>
          if verifyPassword p (password user) then
            let user' := {| id := id user; name := name user; email := email user;
                            password := password user; createdAt := createdAt user;
                            rooms := rooms user; lastLogin := Some stamp |} in
            (Success {| id := id user; name := name user; email := email user;
                        password := ""; createdAt := createdAt user;
                        rooms := rooms user; lastLogin := Some stamp |},
             JsMap.set (lowerTrim e) user' users)
          else (Failed 401 "Invalid email or password", users)
      end
  | _, _ => (Failed 400 "Email and password are required", users)
  end.

(** [PUT /api/user/password]; [tokenEmail] is [req.user.email] of the
    verified token. The current password is checked before the new one is
    validated. *)
Definition changePassword (tokenEmail : string) (currentPassword : string)
           (newPassword : option string) (salt : string) (users : Users)
  : option (nat * string) * Users :=
  match JsMap.get tokenEmail users with
  | None => (Some (404, "User not found"), users)
  | Some user =>
      if verifyPassword currentPassword (password user) then
        match truthy newPassword with
        | Some p =>
            if (String.length p <? 6)%nat then
              (Some (400, "New password must be at least 6 characters"), users)
            else
              (None,
               JsMap.set tokenEmail
                 {| id := id user; name := name user; email := email user;
                    password := hashPassword salt p; createdAt := createdAt user;
                    rooms := rooms user; lastLogin := lastLogin user |} users)
        | None => (Some (400, "New password must be at least 6 characters"), users)
        end
      else (Some (401, "Current password is incorrect"), users)
  end.

End Routes.
End AuthAccounts.

(* ================================================================== *)
(** * Sample runs used by the checks below *)

Module Samples.

(** A one-character id for the [k]-th participant. *)
Definition uuidOf (k : nat) : string :=
  String (Ascii.ascii_of_nat (48 + k)) EmptyString.

(** Room AB12CD is created through [POST /api/rooms/create]; socket 1
    attaches as its host. *)
Definition hosted : list (list RoomServer.WS * Z * RoomServer.Event) :=
  [ ([], 5%Z, RoomServer.PostRoomsCreate (Some "AB12CD") None None "h-1"
                (Byte.x00, Byte.x00, Byte.x00) (Byte.x00, Byte.x00, Byte.x00));
    ([1], 6%Z, RoomServer.Message 1 "" (RoomServer.JOIN_ROOM "AB12CD" (Some "host") None)) ].

(** Sockets 2, 3, ..., [n + 1] join room AB12CD over WebSocket. *)
Definition crowd (n : nat) : list (list RoomServer.WS * Z * RoomServer.Event) :=
  map (fun k => ([1; k], Z.of_nat (10 + k),
                 RoomServer.Message k (uuidOf k)
                   (RoomServer.JOIN_ROOM "AB12CD" None
                      (Some {| RoomServer.ClientInfo.name := Some "P";
                               RoomServer.ClientInfo.role := None |}))))
      (seq 2 n).

End Samples.

(* ================================================================== *)
(** * Checks on concrete inputs *)

Example hex_AB12CD :
  generateRoomCode (Byte.xab, Byte.x12, Byte.xcd) = "AB12CD".
Proof. reflexivity. Qed.

Example admin_may_pause :
  WebsocketServer.hasRolePermission "admin" "PAUSE" = Normal true.
Proof. reflexivity. Qed.

Example speaker_may_not_pause :
  WebsocketServer.hasRolePermission "speaker" "PAUSE" = Normal false.
Proof. reflexivity. Qed.

Example unknown_role_has_nothing :
  WebsocketServer.hasRolePermission "guest" "PAUSE" = Normal false.
Proof. reflexivity. Qed.

Example inherited_role_throws :
  WebsocketServer.hasRolePermission "constructor" "PAUSE"
  = Throw "TypeError: rolePermissions[role]?.includes is not a function".
Proof. reflexivity. Qed.

Example legacy_time_control :
  WebsocketServer.legacyPermission ["TIME_CONTROL"] "PAUSE" = Normal true
  /\ WebsocketServer.legacyPermission ["TIME_CONTROL"] "FADE_TO_BLACK" = Normal false
  /\ WebsocketServer.legacyPermission ["MESSAGE_ONLY"] "SHOW_MESSAGE" = Normal true.
Proof. repeat split. Qed.

Example codeLoop_first_fresh :
  AuthServer.codeLoop (fun _ => (Byte.xab, Byte.x12, Byte.xcd)) [] 0 = ("AB12CD", 1).
Proof. reflexivity. Qed.

Example codeLoop_all_taken :
  AuthServer.codeLoop (fun _ => (Byte.xab, Byte.x12, Byte.xcd)) [("AB12CD", "u")] 0
  = ("AB12CD", 10).
Proof. reflexivity. Qed.

(* ================================================================== *)
(** * Facts about [JsMap] and [JsSet] *)

Section JsMapFacts.
Context {K V : Type} `{Key K}.
Implicit Types (m : JsMap.t K V) (k : K) (v : V).

Lemma keq_refl k : keq k k = true.
Proof. destruct (keq_spec k k); congruence. Qed.

Lemma keq_neq k k' : k <> k' -> keq k k' = false.
Proof. intro Hne. destruct (keq_spec k k'); congruence. Qed.

Lemma get_set_eq m k v : JsMap.get k (JsMap.set k v m) = Some v.
Proof.
  induction m as [|[k' v'] m IH]; simpl.
  - now rewrite keq_refl.
  - destruct (keq_spec k k') as [->|Hne]; simpl.
    + now rewrite keq_refl.
    + now rewrite (keq_neq Hne).
Qed.

Lemma get_set_ne m k k' v : k <> k' -> JsMap.get k' (JsMap.set k v m) = JsMap.get k' m.
Proof.
  intro Hne. induction m as [|[k0 v0] m IH]; simpl.
  - rewrite keq_neq; auto.
  - destruct (keq_spec k k0) as [->|Hne0]; simpl.
    + rewrite !(@keq_neq k' k0); auto.
    + now rewrite IH.
Qed.

Lemma get_delete_eq m k : JsMap.get k (JsMap.delete k m) = None.
Proof.
  induction m as [|[k' v'] m IH]; simpl; auto.
  destruct (keq_spec k k') as [->|Hne]; simpl; auto.
  now rewrite (keq_neq Hne).
Qed.

Lemma get_delete_ne m k k' : k <> k' -> JsMap.get k' (JsMap.delete k m) = JsMap.get k' m.
Proof.
  intro Hne. induction m as [|[k0 v0] m IH]; simpl; auto.
  destruct (keq_spec k k0) as [->|Hne0]; simpl.
  - rewrite (@keq_neq k' k0); auto.
  - now rewrite IH.
Qed.

Lemma has_true_get m k : JsMap.has k m = true <-> exists v, JsMap.get k m = Some v.
Proof.
  unfold JsMap.has. destruct (JsMap.get k m); split; eauto; try discriminate.
  intros [v Hv]. discriminate.
Qed.

Lemma has_false_get m k : JsMap.has k m = false <-> JsMap.get k m = None.
Proof. unfold JsMap.has. destruct (JsMap.get k m); split; congruence. Qed.

Lemma size_set m k v :
  JsMap.size (JsMap.set k v m) = if JsMap.has k m then JsMap.size m else S (JsMap.size m).
Proof.
  unfold JsMap.has, JsMap.size. induction m as [|[k' v'] m IH]; simpl; auto.
  destruct (keq_spec k k') as [->|Hne]; simpl; auto.
  rewrite IH. destruct (JsMap.get k m); auto.
Qed.

Lemma size_delete_le m k : JsMap.size (JsMap.delete k m) <= JsMap.size m.
Proof. apply filter_length_le. Qed.
End JsMapFacts.

(* ================================================================== *)
(** * One-time tokens (websocket-server.js) *)

Section AuthTokens.
Import WebsocketServer.
Variable token : string.

Lemma validate_accept_spent now s s' :
  validateAuthToken token now s = (true, s') -> spent token s'.
Proof.
  unfold validateAuthToken, spent.
  destruct (JsMap.get token s) as [d|]; [|discriminate].
  destruct (expires d <? now)%Z; [discriminate|].
  destruct (used d); [discriminate|].
  intros [= <-]. now rewrite get_set_eq.
Qed.

Lemma spent_validate now s : spent token s -> fst (validateAuthToken token now s) = false.
Proof.
  unfold validateAuthToken, spent.
  destruct (JsMap.get token s) as [d|]; auto.
  intros ->. destruct (expires d <? now)%Z; auto.
Qed.

Lemma expired_validate g now s :
  expiresAfter token g s -> (g + REMOTE_AUTH_TIMEOUT < now)%Z ->
  fst (validateAuthToken token now s) = false.
Proof.
  unfold validateAuthToken, expiresAfter.
  destruct (JsMap.get token s) as [d|]; auto.
  intros -> Hlt. apply Z.ltb_lt in Hlt. now rewrite Hlt.
Qed.

(** What a step other than re-issuing [token] does to its entry: it is
    kept, marked used, or dropped. *)
Lemma authStep_entry now e s :
  e <> Generate token ->
  let s' := snd (authStep now e s) in
  JsMap.get token s' = None
  \/ JsMap.get token s' = JsMap.get token s
  \/ exists d, JsMap.get token s = Some d
               /\ JsMap.get token s' = Some {| expires := expires d; used := true |}.
Proof.
  intros Hne. destruct e as [t|t|t]; simpl.
  - destruct (String.eqb_spec t token) as [->|Hn]; [congruence|].
    right; left. now apply get_set_ne.
  - unfold validateAuthToken.
    destruct (JsMap.get t s) as [d|] eqn:Hget; simpl; auto.
    destruct (expires d <? now)%Z; simpl.
    + destruct (String.eqb_spec t token) as [->|Hn].
      * left. apply get_delete_eq.
      * right; left. now apply get_delete_ne.
    + destruct (used d); simpl; auto.
      destruct (String.eqb_spec t token) as [->|Hn].
      * right; right. exists d. split; auto. apply get_set_eq.
      * right; left. now apply get_set_ne.
  - unfold tokenTimeout.
    destruct (String.eqb_spec t token) as [->|Hn].
    + left. apply get_delete_eq.
    + right; left. now apply get_delete_ne.
Qed.

Lemma authStep_spent now e s :
  e <> Generate token -> spent token s -> spent token (snd (authStep now e s)).
Proof.
  intros Hne Hs. unfold spent in *.
  destruct (authStep_entry now s Hne) as [-> | [-> | (d & _ & ->)]]; auto.
Qed.

Lemma authStep_expiresAfter g now e s :
  e <> Generate token -> expiresAfter token g s -> expiresAfter token g (snd (authStep now e s)).
Proof.
  intros Hne Hs. unfold expiresAfter in *.
  destruct (authStep_entry now s Hne) as [-> | [-> | (d & Hd & ->)]]; auto.
  now rewrite Hd in Hs.
Qed.

Lemma regenerated_cons now e evs :
  regenerated token ((now, e) :: evs) = false ->
  e <> Generate token /\ regenerated token evs = false.
Proof.
  unfold regenerated; simpl. intros Hor.
  apply orb_false_elim in Hor. destruct Hor as [He Hr]. split; auto.
  intros ->. now rewrite String.eqb_refl in He.
Qed.
End AuthTokens.

Section AuthRuns.
Import WebsocketServer.
Variable token : string.

Lemma accepted_spent evs : forall s,
  regenerated token evs = false -> spent token s ->
  accepted token (authRun evs s) = 0.
Proof.
  induction evs as [|[now e] evs IH]; intros s Hre Hs; simpl; auto.
  apply regenerated_cons in Hre. destruct Hre as [Hne Hre].
  pose proof (@authStep_spent token now _ s Hne Hs) as Hs'.
  destruct e as [t|t|t]; simpl in *; auto.
  rewrite (IH _ Hre Hs').
  destruct (String.eqb_spec t token) as [->|Hn]; simpl; auto.
  now rewrite (@spent_validate token now s Hs).
Qed.

Lemma accepted_le_1 evs : forall s,
  regenerated token evs = false -> accepted token (authRun evs s) <= 1.
Proof.
  induction evs as [|[now e] evs IH]; intros s Hre; simpl; auto.
  apply regenerated_cons in Hre. destruct Hre as [Hne Hre].
  destruct e as [t|t|t]; simpl; auto.
  destruct (String.eqb_spec t token) as [->|Hn]; simpl; auto.
  destruct (validateAuthToken token now s) as [b s'] eqn:Hv; simpl.
  destruct b; simpl; auto.
  rewrite (accepted_spent evs s' Hre (@validate_accept_spent token now s s' Hv)). lia.
Qed.

Lemma expired_rejected g evs : forall s,
  regenerated token evs = false -> expiresAfter token g s ->
  forall now b, In (token, now, b) (authRun evs s) ->
                (g + REMOTE_AUTH_TIMEOUT < now)%Z -> b = false.
Proof.
  induction evs as [|[n e] evs IH]; intros s Hre Hs now b Hin Hlt; simpl in Hin.
  - contradiction.
  - apply regenerated_cons in Hre. destruct Hre as [Hne Hre].
    pose proof (@authStep_expiresAfter token g n _ s Hne Hs) as Hs'.
    destruct e as [t|t|t]; simpl in *; eauto.
    destruct Hin as [Heq|Hin]; eauto.
    injection Heq as -> -> <-.
    now apply expired_validate with (g := g).
Qed.
End AuthRuns.

(** C8. A token issued by [generateAuthToken] at time [g], and not drawn
    again by a later call, is accepted by [validateAuthToken] at most once
    in any later course of issues, validations and clean-up timers; every
    call made after [g + REMOTE_AUTH_TIMEOUT] (five minutes) answers
    [false]; and a call that follows an accepting call answers [false]. *)
Theorem validateAuthToken_once (token : string) (g : Z)
        (store : WebsocketServer.AuthTokens)
        (evs : list (Z * WebsocketServer.AuthEvent)) :
  WebsocketServer.regenerated token evs = false ->
  let issued := WebsocketServer.generateAuthToken token g store in
  let log := WebsocketServer.authRun evs (snd issued) in
  fst issued = token
  /\ WebsocketServer.REMOTE_AUTH_TIMEOUT = 300000%Z
  /\ WebsocketServer.accepted token log <= 1
  /\ (forall now b, In (token, now, b) log ->
                    (g + WebsocketServer.REMOTE_AUTH_TIMEOUT < now)%Z -> b = false)
  /\ (forall s n1 n2 s',
         WebsocketServer.validateAuthToken token n1 s = (true, s') ->
         fst (WebsocketServer.validateAuthToken token n2 s') = false).
Proof.
  intros Hre issued log. repeat split.
  - now apply accepted_le_1.
  - apply expired_rejected with (g := g); auto.
    unfold WebsocketServer.expiresAfter, issued; simpl.
    now rewrite get_set_eq.
  - intros s n1 n2 s' Hv. apply spent_validate.
    now apply validate_accept_spent in Hv.
Qed.

Lemma validateAuthToken_once_witness :
  let evs := [(10, WebsocketServer.Validate "t0k3n"); (20, WebsocketServer.Timeout "other");
              (30, WebsocketServer.Validate "t0k3n");
              (300001, WebsocketServer.Validate "t0k3n")]%Z in
  WebsocketServer.regenerated "t0k3n" evs = false
  /\ WebsocketServer.authRun evs
       (snd (WebsocketServer.generateAuthToken "t0k3n" 0 []))
     = [("t0k3n", 10, true); ("t0k3n", 30, false); ("t0k3n", 300001, false)]%Z
  /\ WebsocketServer.accepted "t0k3n"
       (WebsocketServer.authRun evs
          (snd (WebsocketServer.generateAuthToken "t0k3n" 0 []))) <= 1.
Proof.
  intro evs. split; [reflexivity|]. split; [reflexivity|].
  apply (validateAuthToken_once "t0k3n" 0 [] evs). reflexivity.
Defined.

(* ================================================================== *)
(** * Permission engine and global-mode relay (websocket-server.js) *)

Section JsMapMore.
Context {K V : Type} `{Key K}.
Implicit Types (m : JsMap.t K V) (k : K) (v : V).

Lemma get_In m k v : JsMap.get k m = Some v -> In (k, v) m.
Proof.
  induction m as [|[k' v'] m IH]; simpl; [discriminate|].
  destruct (keq_spec k k') as [->|Hne].
  - intros [= ->]. now left.
  - intros Hg. right. auto.
Qed.

Lemma get_delete_Some m k k' v :
  JsMap.get k' (JsMap.delete k m) = Some v -> JsMap.get k' m = Some v.
Proof.
  destruct (keq_spec k k') as [->|Hne].
  - now rewrite get_delete_eq.
  - now rewrite get_delete_ne.
Qed.

Lemma Forall_set (P : K * V -> Prop) m k v :
  Forall P m -> P (k, v) -> Forall P (JsMap.set k v m).
Proof.
  intros Hm Hkv. induction m as [|[k' v'] m IH]; simpl.
  - constructor; auto.
  - inversion Hm; subst. destruct (keq k k'); constructor; auto.
Qed.

Lemma Forall_delete (P : K * V -> Prop) m k :
  Forall P m -> Forall P (JsMap.delete k m).
Proof.
  intros Hm. unfold JsMap.delete. apply Forall_forall. intros x Hx.
  apply filter_In in Hx. destruct Hx as [Hx _].
  now apply (proj1 (Forall_forall P m) Hm).
Qed.
End JsMapMore.

Section Broadcast.
Import WebsocketServer.
Variables (env : WS -> bool) (message : Out.Msg).

Lemma broadcastLoop_sends todo : forall live,
  snd (broadcastLoop env message todo live)
  = map (fun w => (w, message)) (filter env todo).
Proof.
  induction todo as [|c todo IH]; intros live; simpl; auto.
  destruct (env c); simpl; now rewrite IH.
Qed.

Lemma broadcastLoop_live todo : forall live,
  fst (broadcastLoop env message todo live)
  = filter (fun w => env w || negb (existsb (Nat.eqb w) todo)) live.
Proof.
  induction todo as [|c todo IH]; intros live; simpl.
  - induction live as [|w live IHl]; simpl; auto.
    rewrite orb_true_r. now f_equal.
  - destruct (env c) eqn:Hc; simpl; rewrite IH.
    + apply filter_ext. intros w.
      destruct (Nat.eqb_spec w c) as [->|Hne]; simpl; auto.
      now rewrite Hc.
    + unfold JsSet.delete. simpl.
      induction live as [|w live IHl]; simpl; auto.
      rewrite (Nat.eqb_sym c w).
      destruct (Nat.eqb_spec w c) as [->|Hne]; simpl.
      * rewrite Hc. simpl. apply IHl.
      * destruct (env w || negb (existsb (Nat.eqb w) todo)); simpl;
          now rewrite IHl.
Qed.

Lemma broadcastLoop_self l :
  broadcastLoop env message l l
  = (filter env l, map (fun w => (w, message)) (filter env l)).
Proof.
  rewrite (surjective_pairing (broadcastLoop env message l l)).
  rewrite broadcastLoop_sends, broadcastLoop_live. f_equal.
  apply filter_ext_in. intros w Hw.
  assert (existsb (Nat.eqb w) l = true) as ->.
  { apply existsb_exists. exists w. split; auto. apply Nat.eqb_refl. }
  simpl. apply orb_false_r.
Qed.

Lemma broadcastToRemotes_eq st :
  broadcastToRemotes env message st
  = (setRemotes (filter env (remoteClients st)) st,
     map (fun w => (w, message)) (filter env (remoteClients st))).
Proof. unfold broadcastToRemotes. now rewrite broadcastLoop_self. Qed.

Lemma broadcastToDisplays_eq st :
  broadcastToDisplays env message st
  = (setDisplays (filter env (displayClients st)) st,
     map (fun w => (w, message)) (filter env (displayClients st))).
Proof. unfold broadcastToDisplays. now rewrite broadcastLoop_self. Qed.
End Broadcast.

Section Permissions.
Import WebsocketServer.

Lemma viewer_denied action : hasRolePermission "viewer" action = Normal false.
Proof. reflexivity. Qed.

Lemma hasPermission_requested (c : Client) rp action :
  hasPermission
    {| id := id c; type := type c; permissions := permissions c; name := name c;
       role := role c; requestedPermissions := rp;
       speakerName := speakerName c; url := url c |} action
  = hasPermission c action.
Proof. reflexivity. Qed.

Lemma grantLoop_get target perms entries : forall w c,
  JsMap.get w (fst (grantLoop target perms entries)) = Some c ->
  exists c0, JsMap.get w entries = Some c0
             /\ (c = c0 \/ (id c0 = target /\ c = setPermissions perms c0)).
Proof.
  induction entries as [|[w0 c0] entries IH]; intros w c; simpl; [discriminate|].
  destruct (Z.eqb_spec (id c0) target) as [Heq|Hne]; simpl.
  - destruct (type c0); simpl;
      destruct (Nat.eqb_spec w w0) as [->|Hw];
      try (intros [= <-]; eauto);
      try (intros Hg; apply IH in Hg; exact Hg);
      try (intros Hg; eauto).
  - destruct (Nat.eqb_spec w w0) as [->|Hw].
    + intros [= <-]; eauto.
    + intros Hg. now apply IH in Hg.
Qed.

Lemma grantLoop_keeps_id target perms entries : forall w c,
  JsMap.get w (fst (grantLoop target perms entries)) = Some c ->
  id c <> target -> JsMap.get w entries = Some c.
Proof.
  intros w c Hg Hne. apply grantLoop_get in Hg.
  destruct Hg as (c0 & Hc0 & [-> | [Hid ->]]); auto.
  simpl in Hne. congruence.
Qed.
End Permissions.

(** C2. Permission checking is role-first. For a client that declares a
    role (a non-empty [role] field) the answer of [hasPermission] is that
    of the role table alone, whatever grants the record holds; the legacy
    grant mapping is what answers when no role is declared. A registered
    client whose role is [viewer] that sends REMOTE_CONTROL (for
    START_RESUME as for any action) is sent PERMISSION_DENIED for that
    action, nothing else is sent, and the state is unchanged. *)
Theorem hasPermission_role_first
        (env : WebsocketServer.WS -> bool) (st : WebsocketServer.Server)
        (w : WebsocketServer.WS) (client : WebsocketServer.Client)
        (r action : string) (d : WebsocketServer.Payload) (grants : list string) :
  JsMap.get w (WebsocketServer.clients st) = Some client ->
  truthy (WebsocketServer.role client) = Some r ->
  WebsocketServer.hasPermission client action
  = WebsocketServer.hasRolePermission r action
  /\ WebsocketServer.hasPermission (WebsocketServer.setPermissions grants client) action
     = WebsocketServer.hasPermission client action
  /\ (forall other : WebsocketServer.Client,
        truthy (WebsocketServer.role other) = None ->
        WebsocketServer.hasPermission other action
        = match WebsocketServer.permissions other with
          | [] => Normal false
          | _ :: _ =>
              WebsocketServer.legacyPermission (WebsocketServer.permissions other) action
          end)
  /\ (r = "viewer" ->
      WebsocketServer.onMessage env w (WebsocketServer.REMOTE_CONTROL action d) st
      = (st, [(w, WebsocketServer.Out.PERMISSION_DENIED action)])).
Proof.
  intros Hget Hrole.
  assert (WebsocketServer.hasPermission client action
          = WebsocketServer.hasRolePermission r action) as Hp.
  { unfold WebsocketServer.hasPermission.
    now rewrite Hrole. }
  repeat split.
  - exact Hp.
  - unfold WebsocketServer.hasPermission; simpl.
    now rewrite Hrole.
  - intros other Hnone.
    unfold WebsocketServer.hasPermission.
    now rewrite Hnone.
  - intros ->. simpl. rewrite Hget, Hp. reflexivity.
Qed.

Lemma hasPermission_role_first_witness :
  let st := fst (WebsocketServer.run
                   [([1], WebsocketServer.Connection 1 101%Z);
                    ([1], WebsocketServer.Message 1 WebsocketServer.REGISTER_CONTROLLER);
                    ([1; 2], WebsocketServer.Connection 2 202%Z);
                    ([1; 2], WebsocketServer.Message 2
                               (WebsocketServer.REGISTER_REMOTE
                                  (Some "B") (Some "viewer") (Some ["FULL_CONTROL"]) None));
                    ([1; 2], WebsocketServer.Message 1
                               (WebsocketServer.GRANT_PERMISSIONS 202%Z ["FULL_CONTROL"]))]
                   WebsocketServer.initial) in
  (exists client,
      JsMap.get 2 (WebsocketServer.clients st) = Some client
      /\ WebsocketServer.permissions client = ["FULL_CONTROL"]
      /\ truthy (WebsocketServer.role client) = Some "viewer")
  /\ WebsocketServer.controllerClient st = Some 1
  /\ WebsocketServer.onMessage (WebsocketServer.openIn [1; 2]) 2
       (WebsocketServer.REMOTE_CONTROL "START_RESUME" "{}") st
     = (st, [(2, WebsocketServer.Out.PERMISSION_DENIED "START_RESUME")]).
Proof.
  intro st. split; [|split].
  - eexists. repeat split; reflexivity.
  - reflexivity.
  - refine (proj2 (proj2 (proj2
      (@hasPermission_role_first (WebsocketServer.openIn [1; 2]) st 2 _
         "viewer" "START_RESUME" "{}" [] _ _))) eq_refl); reflexivity.
Defined.

Section Grants.
Import WebsocketServer.
Variable i : ClientId.

Lemma ungranted_same st st' :
  clients st' = clients st -> ungranted i st -> ungranted i st'.
Proof. unfold ungranted. intros ->. auto. Qed.

Lemma ungranted_set st st' w' c' :
  clients st' = JsMap.set w' c' (clients st) ->
  ungranted i st -> (id c' = i -> permissions c' = []) -> ungranted i st'.
Proof.
  unfold ungranted. intros -> Hst Hc' w c.
  destruct (Nat.eqb_spec w' w) as [->|Hne].
  - rewrite get_set_eq. intros [= <-]. exact Hc'.
  - rewrite get_set_ne by exact Hne. apply Hst.
Qed.

Lemma onMessage_ungranted env w data st :
  ungranted i st -> grantsTo i st (Message w data) = false ->
  ungranted i (fst (onMessage env w data st)).
Proof.
  intros Hst Hg. destruct data; unfold onMessage; simpl in Hg.
  - destruct (JsMap.get w (clients st)) as [client|] eqn:Hc; auto.
    rewrite broadcastToRemotes_eq.
    eapply ungranted_set with (w' := w); [reflexivity|exact Hst|].
    simpl. intros Hid. eapply Hst; eauto.
  - destruct (JsMap.get w (clients st)) as [client|] eqn:Hc; auto.
    eapply ungranted_set with (w' := w); [reflexivity|exact Hst|].
    simpl. intros Hid. eapply Hst; eauto.
  - destruct (JsMap.get w (clients st)) as [client|] eqn:Hc; auto.
    eapply ungranted_set with (w' := w); [reflexivity|exact Hst|].
    simpl. intros Hid. eapply Hst; eauto.
  - rewrite broadcastToRemotes_eq. cbn [fst snd]. rewrite broadcastToDisplays_eq.
    eapply ungranted_same; [|exact Hst]. reflexivity.
  - rewrite broadcastToRemotes_eq. cbn [fst snd]. rewrite broadcastToDisplays_eq.
    eapply ungranted_same; [|exact Hst]. reflexivity.
  - destruct (JsMap.get w (clients st)) as [client|]; auto.
    destruct (hasPermission client action) as [[|]|]; auto.
  - destruct (JsMap.get w (clients st)) as [client|]; auto.
    destruct (type client); auto.
    rewrite andb_true_r in Hg. apply Z.eqb_neq in Hg.
    intros w0 c Hget Hid. cbn [fst clients setClients] in Hget.
    apply grantLoop_keeps_id in Hget; [|congruence].
    eapply Hst; eauto.
  - exact Hst.
Qed.

Lemma onClose_ungranted env w st :
  ungranted i st -> ungranted i (fst (onClose env w st)).
Proof.
  intros Hst. unfold onClose.
  set (r := match JsMap.get w (clients st) with
            | Some client => _
            | None => _
            end).
  assert (clients (fst r) = clients st) as Hr.
  { subst r. destruct (JsMap.get w (clients st)) as [client|]; auto.
    destruct (type client); simpl; auto. }
  simpl. intros w0 c Hget Hid. simpl in Hget. rewrite Hr in Hget.
  apply get_delete_Some in Hget. eapply Hst; eauto.
Qed.

Lemma step_ungranted env e st :
  ungranted i st -> grantsTo i st e = false -> ungranted i (fst (step env e st)).
Proof.
  intros Hst Hg. destruct e as [w cid|w data|w]; simpl.
  - eapply ungranted_set with (w' := w); [reflexivity|exact Hst|]. reflexivity.
  - now apply onMessage_ungranted.
  - now apply onClose_ungranted.
Qed.

Lemma run_ungranted evs : forall st,
  ungranted i st -> granted i evs st = false -> ungranted i (fst (run evs st)).
Proof.
  induction evs as [|[opened e] evs IH]; intros st Hst Hg; simpl in *; auto.
  apply orb_false_elim in Hg. destruct Hg as [Hg1 Hg2].
  apply IH; auto. now apply step_ungranted.
Qed.
End Grants.

(** C10. In every run of the server from start-up, a client record that
    declares no role and for whose id no GRANT_PERMISSIONS frame of a
    controller has been handled holds no grant, and each of its
    REMOTE_CONTROL frames, whatever the action, is answered by
    PERMISSION_DENIED alone. REGISTER_REMOTE stores the permission list of
    the frame in [requestedPermissions] and leaves [permissions] as it
    was; [hasPermission] does not read [requestedPermissions]. *)
Theorem remote_without_role_denied
        (evs : list (list WebsocketServer.WS * WebsocketServer.Event))
        (env : WebsocketServer.WS -> bool) (w : WebsocketServer.WS)
        (client : WebsocketServer.Client) (action : string)
        (d : WebsocketServer.Payload) :
  let st := fst (WebsocketServer.run evs WebsocketServer.initial) in
  JsMap.get w (WebsocketServer.clients st) = Some client ->
  truthy (WebsocketServer.role client) = None ->
  WebsocketServer.granted (WebsocketServer.id client) evs WebsocketServer.initial = false ->
  WebsocketServer.permissions client = []
  /\ WebsocketServer.onMessage env w (WebsocketServer.REMOTE_CONTROL action d) st
     = (st, [(w, WebsocketServer.Out.PERMISSION_DENIED action)])
  /\ (forall dname dpermissions dspeaker,
         exists client',
           JsMap.get w (WebsocketServer.clients
                          (fst (WebsocketServer.onMessage env w
                                  (WebsocketServer.REGISTER_REMOTE
                                     dname None dpermissions dspeaker) st)))
           = Some client'
           /\ WebsocketServer.permissions client' = WebsocketServer.permissions client
           /\ WebsocketServer.requestedPermissions client'
              = Some (match dpermissions with Some l => l | None => [] end)
           /\ (forall rp a,
                  WebsocketServer.hasPermission
                    {| WebsocketServer.id := WebsocketServer.id client';
                       WebsocketServer.type := WebsocketServer.type client';
                       WebsocketServer.permissions := WebsocketServer.permissions client';
                       WebsocketServer.name := WebsocketServer.name client';
                       WebsocketServer.role := WebsocketServer.role client';
                       WebsocketServer.requestedPermissions := rp;
                       WebsocketServer.speakerName := WebsocketServer.speakerName client';
                       WebsocketServer.url := WebsocketServer.url client' |} a
                  = WebsocketServer.hasPermission client' a)).
Proof.
  intros st Hget Hrole Hgr.
  assert (WebsocketServer.permissions client = []) as Hperm.
  { assert (WebsocketServer.ungranted (WebsocketServer.id client) st) as Hun.
    { apply run_ungranted; auto. intros w0 c0 H0. discriminate. }
    eapply Hun; eauto. }
  split; [exact Hperm|]. split.
  - simpl. rewrite Hget.
    unfold WebsocketServer.hasPermission.
    now rewrite Hrole, Hperm.
  - intros dname dpermissions dspeaker. simpl. rewrite Hget. simpl.
    rewrite get_set_eq. eexists. split; [reflexivity|].
    repeat split.
Qed.

Lemma remote_without_role_denied_witness :
  let evs := [([1], WebsocketServer.Connection 1 101%Z);
              ([1], WebsocketServer.Message 1 WebsocketServer.REGISTER_CONTROLLER);
              ([1; 2], WebsocketServer.Connection 2 202%Z);
              ([1; 2], WebsocketServer.Message 2
                         (WebsocketServer.REGISTER_REMOTE
                            (Some "R") None (Some ["FULL_CONTROL"]) None))] in
  let st := fst (WebsocketServer.run evs WebsocketServer.initial) in
  (exists client,
      JsMap.get 2 (WebsocketServer.clients st) = Some client
      /\ WebsocketServer.requestedPermissions client = Some ["FULL_CONTROL"]
      /\ truthy (WebsocketServer.role client) = None
      /\ WebsocketServer.granted (WebsocketServer.id client) evs
                                 WebsocketServer.initial = false)
  /\ WebsocketServer.onMessage (WebsocketServer.openIn [1; 2]) 2
       (WebsocketServer.REMOTE_CONTROL "PAUSE" "{}") st
     = (st, [(2, WebsocketServer.Out.PERMISSION_DENIED "PAUSE")]).
Proof.
  intros evs st. split.
  - eexists. repeat split; reflexivity.
  - refine (proj1 (proj2
      (@remote_without_role_denied evs (WebsocketServer.openIn [1; 2]) 2 _
         "PAUSE" "{}" _ _ _))); reflexivity.
Defined.

Example granted_remote_forwarded :
  let st := fst (WebsocketServer.run
                   [([1], WebsocketServer.Connection 1 101%Z);
                    ([1], WebsocketServer.Message 1 WebsocketServer.REGISTER_CONTROLLER);
                    ([1; 2], WebsocketServer.Connection 2 202%Z);
                    ([1; 2], WebsocketServer.Message 2
                               (WebsocketServer.REGISTER_REMOTE
                                  (Some "R") None (Some ["FULL_CONTROL"]) None));
                    ([1; 2], WebsocketServer.Message 1
                               (WebsocketServer.GRANT_PERMISSIONS 202%Z ["TIME_CONTROL"]))]
                   WebsocketServer.initial) in
  snd (WebsocketServer.onMessage (WebsocketServer.openIn [1; 2]) 2
         (WebsocketServer.REMOTE_CONTROL "PAUSE" "{}") st)
  = [(1, WebsocketServer.Out.REMOTE_CONTROL "PAUSE" "{}")].
Proof. reflexivity. Qed.

Section ControllerSlot.
Import WebsocketServer.

(** Registration takes the slot and tells every open remote. *)
Lemma register_controller_slot env st w c :
  JsMap.get w (clients st) = Some c ->
  controllerClient (fst (onMessage env w REGISTER_CONTROLLER st)) = Some w
  /\ snd (onMessage env w REGISTER_CONTROLLER st)
     = map (fun r => (r, Out.CONTROLLER_STATUS true)) (filter env (remoteClients st)).
Proof.
  intros Hc. unfold onMessage. rewrite Hc, broadcastToRemotes_eq. split; reflexivity.
Qed.

(** A close of any socket whose record has type [controller] empties the
    slot, whoever holds it. *)
Lemma close_controller_slot env st w c :
  JsMap.get w (clients st) = Some c -> type c = controller ->
  controllerClient (fst (onClose env w st)) = None
  /\ snd (onClose env w st)
     = map (fun r => (r, Out.CONTROLLER_STATUS false)) (filter env (remoteClients st)).
Proof.
  intros Hc Ht. unfold onClose. rewrite Hc, Ht, broadcastToRemotes_eq.
  split; reflexivity.
Qed.
End ControllerSlot.

(** C5, evaluated on the run: A (socket 1) registers as controller, remote
    R (socket 3) registers, B (socket 2) registers as controller, then A's
    connection closes while B and R stay open. The second registration
    puts B in the slot and R is told [connected: true]; the close of the
    superseded A then empties the slot and R is told [connected: false],
    although B is still registered and open. *)
Theorem superseded_controller_close :
  let before :=
    fst (WebsocketServer.run
           [([1], WebsocketServer.Connection 1 101%Z);
            ([1], WebsocketServer.Message 1 WebsocketServer.REGISTER_CONTROLLER);
            ([1; 3], WebsocketServer.Connection 3 303%Z);
            ([1; 3], WebsocketServer.Message 3
                       (WebsocketServer.REGISTER_REMOTE (Some "R") (Some "admin") None None));
            ([1; 3; 2], WebsocketServer.Connection 2 202%Z)]
           WebsocketServer.initial) in
  let second :=
    WebsocketServer.onMessage (WebsocketServer.openIn [1; 3; 2]) 2
                              WebsocketServer.REGISTER_CONTROLLER before in
  let closed := WebsocketServer.onClose (WebsocketServer.openIn [3; 2]) 1 (fst second) in
  WebsocketServer.controllerClient before = Some 1
  /\ WebsocketServer.controllerClient (fst second) = Some 2
  /\ snd second = [(3, WebsocketServer.Out.CONTROLLER_STATUS true)]
  /\ WebsocketServer.controllerClient (fst closed) = None
  /\ snd closed = [(3, WebsocketServer.Out.CONTROLLER_STATUS false)]
  /\ (exists b, JsMap.get 2 (WebsocketServer.clients (fst closed)) = Some b
                /\ WebsocketServer.type b = WebsocketServer.controller)
  /\ snd (WebsocketServer.onMessage (WebsocketServer.openIn [3; 2]) 3
            (WebsocketServer.REMOTE_CONTROL "PAUSE" "{}") (fst closed)) = [].
Proof.
  repeat split; try reflexivity.
  eexists. split; reflexivity.
Qed.

(* ================================================================== *)
(** * Room store (room-server.js) *)

Section RoomStore.
Import RoomServer.

Lemma has_set_present {V : Type} (m : JsMap.t string V) k k' v v0 :
  JsMap.get k m = Some v0 -> JsMap.has k' (JsMap.set k v m) = JsMap.has k' m.
Proof.
  intros Hk. unfold JsMap.has.
  destruct (String.eqb_spec k k') as [<-|Hne].
  - now rewrite get_set_eq, Hk.
  - now rewrite get_set_ne.
Qed.

Lemma createRoom_code hostInfo custom random now rooms :
  code (fst (createRoom hostInfo custom random now rooms))
  = match truthy custom with
    | Some c => c
    | None => generateRoomCode random
    end.
Proof. reflexivity. Qed.

Lemma createRoom_stored hostInfo custom random now rooms :
  let r := createRoom hostInfo custom random now rooms in
  JsMap.get (code (fst r)) (snd r) = Some (fst r)
  /\ (forall other, other <> code (fst r) ->
                    JsMap.get other (snd r) = JsMap.get other rooms).
Proof.
  simpl. split.
  - apply get_set_eq.
  - intros other Hne. apply get_set_ne. congruence.
Qed.
End RoomStore.

(** C7. [joinRoom] throws "Room not found" when the code is unknown and
    "Room is full" when the room already has at least [settings.maxUsers]
    participants, in both cases leaving the store as it was; otherwise the
    room it returns and stores has the participant under its id in the
    user map and [lastActivity] set to the clock, every other field of
    the room and every other room being unchanged. Rooms are created with
    [maxUsers] 50. *)
Theorem joinRoom_spec (roomCode : string) (userInfo : RoomServer.User) (now : Z)
        (rooms : RoomServer.Rooms) :
  let r := RoomServer.joinRoom roomCode userInfo now rooms in
  (JsMap.get roomCode rooms = None ->
   r = (Throw "Room not found", rooms))
  /\ (forall room,
         JsMap.get roomCode rooms = Some room ->
         RoomServer.maxUsers (RoomServer.settings room)
         <= JsMap.size (RoomServer.users room) ->
         r = (Throw "Room is full", rooms))
  /\ (forall room,
         JsMap.get roomCode rooms = Some room ->
         JsMap.size (RoomServer.users room)
         < RoomServer.maxUsers (RoomServer.settings room) ->
         exists room',
           r = (Normal room', JsMap.set roomCode room' rooms)
           /\ JsMap.get roomCode (snd r) = Some room'
           /\ RoomServer.users room'
              = JsMap.set (RoomServer.id userInfo) userInfo (RoomServer.users room)
           /\ JsMap.get (RoomServer.id userInfo) (RoomServer.users room') = Some userInfo
           /\ RoomServer.lastActivity room' = now
           /\ RoomServer.code room' = RoomServer.code room
           /\ RoomServer.host room' = RoomServer.host room
           /\ RoomServer.createdAt room' = RoomServer.createdAt room
           /\ RoomServer.settings room' = RoomServer.settings room
           /\ RoomServer.state room' = RoomServer.state room
           /\ (forall other, other <> roomCode ->
                             JsMap.get other (snd r) = JsMap.get other rooms))
  /\ (forall hostInfo custom random rooms0,
         RoomServer.maxUsers
           (RoomServer.settings
              (fst (RoomServer.createRoom hostInfo custom random now rooms0))) = 50).
Proof.
  intro r. subst r. unfold RoomServer.joinRoom. repeat split.
  - intros ->. reflexivity.
  - intros room -> Hfull. apply Nat.leb_le in Hfull. now rewrite Hfull.
  - intros room Hget Hroom. rewrite Hget.
    apply Nat.leb_gt in Hroom. rewrite Hroom.
    eexists. split; [reflexivity|]. simpl.
    repeat split; try reflexivity.
    + apply get_set_eq.
    + apply get_set_eq.
    + intros other Hne. apply get_set_ne. congruence.
Qed.

Lemma joinRoom_spec_witness :
  let rooms :=
    snd (RoomServer.createRoom
           {| RoomServer.oid := 0; RoomServer.id := "h-1"; RoomServer.name := "Room Host";
              RoomServer.type := Some "desktop"; RoomServer.role := None;
              RoomServer.joinedAt := 5; RoomServer.ws := None |}
           (Some "AB12CD") (Byte.x00, Byte.x00, Byte.x00) 5 []) in
  let p := {| RoomServer.oid := 1; RoomServer.id := "p-1"; RoomServer.name := "P";
              RoomServer.type := None; RoomServer.role := Some "viewer";
              RoomServer.joinedAt := 7; RoomServer.ws := None |} in
  JsMap.get "ZZZZZZ" rooms = None
  /\ RoomServer.joinRoom "ZZZZZZ" p 7 rooms = (Throw "Room not found", rooms)
  /\ (exists room room',
         JsMap.get "AB12CD" rooms = Some room
         /\ JsMap.size (RoomServer.users room) = 0
         /\ RoomServer.maxUsers (RoomServer.settings room) = 50
         /\ RoomServer.joinRoom "AB12CD" p 7 rooms
            = (Normal room', JsMap.set "AB12CD" room' rooms)
         /\ JsMap.get "p-1" (RoomServer.users room') = Some p
         /\ RoomServer.lastActivity room' = 7%Z).
Proof.
  intros rooms p. split; [reflexivity|]. split.
  - apply (proj1 (joinRoom_spec "ZZZZZZ" p 7 rooms)). reflexivity.
  - destruct (proj1 (proj2 (proj2 (joinRoom_spec "AB12CD" p 7 rooms)))
                _ eq_refl) as (room' & Hr & _ & _ & Hp & Hl & _).
    + vm_compute. lia.
    + eexists. exists room'. repeat split; try reflexivity; assumption.
Defined.

(** C9 fails as stated: room AB12CD exists and has room for more, yet a
    JOIN_ROOM frame of a participant that carries no [clientInfo] adds
    nobody. The handler raises while it reads [clientInfo.name]; the
    sender is answered with ERROR "Invalid message format" instead of
    ROOM_JOINED, and the store is as before. *)
Lemma join_without_clientInfo_refused :
  let st := fst (RoomServer.run Samples.hosted RoomServer.initial) in
  let frame := RoomServer.JOIN_ROOM "AB12CD" (Some "viewer") None in
  (exists room, JsMap.get "AB12CD" (RoomServer.rooms st) = Some room
                /\ JsMap.size (RoomServer.users room) = 0
                /\ RoomServer.maxUsers (RoomServer.settings room) = 50)
  /\ (exists m, RoomServer.handleWebSocketMessage (RoomServer.openIn [1; 7]) 7 30 "u-7"
                                                  frame st = Throw m)
  /\ RoomServer.step (RoomServer.openIn [1; 7]) 30 (RoomServer.Message 7 "u-7" frame) st
     = (st, [(7, RoomServer.Out.ERROR "Invalid message format")]).
Proof.
  split; [eexists; repeat split; reflexivity|].
  split; [eexists; reflexivity|reflexivity].
Qed.

(** C9, amended. A JOIN_ROOM frame whose [clientType] is not [host], that
    names an existing room and carries a [clientInfo], always puts the new
    participant in the room's user map and ends with ROOM_JOINED sent to
    the sender; [settings.maxUsers] is not consulted. When the id is new
    the membership grows by one, so in a room that is already full it
    exceeds [maxUsers], while [joinRoom] (the HTTP path) refuses the same
    participant in the same store. The same frame without [clientInfo]
    changes nothing and is answered with ERROR "Invalid message format". *)
Theorem handleJoinRoom_no_capacity_check
        (env : RoomServer.WS -> bool) (w : RoomServer.WS) (now : Z)
        (uuid roomCode : string) (clientType : option string)
        (info : RoomServer.ClientInfo.t)
        (st : RoomServer.Server) (room : RoomServer.Room) :
  JsMap.get roomCode (RoomServer.rooms st) = Some room ->
  RoomServer.isHostType clientType = false ->
  let r := RoomServer.onMessage env w now uuid
             (RoomServer.JOIN_ROOM roomCode clientType (Some info)) st in
  let userInfo := RoomServer.webUser st w now uuid (RoomServer.ClientInfo.name info)
                                     (RoomServer.ClientInfo.role info) in
  (exists room',
    RoomServer.handleJoinRoom env w now uuid roomCode clientType (Some info) st = Normal r
    /\ JsMap.get roomCode (RoomServer.rooms (fst r)) = Some room'
    /\ RoomServer.users room' = JsMap.set uuid userInfo (RoomServer.users room)
    /\ JsMap.get uuid (RoomServer.users room') = Some userInfo
    /\ RoomServer.settings room' = RoomServer.settings room
    /\ snd r = RoomServer.toHost env room' (RoomServer.Out.ROOM_CLIENT_JOINED userInfo)
               ++ [(w, RoomServer.Out.ROOM_JOINED
                         roomCode (JsMap.values (RoomServer.users room'))
                         (RoomServer.code room') (RoomServer.settings room')
                         (JsMap.size (RoomServer.users room')))]
    /\ (JsMap.has uuid (RoomServer.users room) = false ->
        JsMap.size (RoomServer.users room') = S (JsMap.size (RoomServer.users room)))
    /\ (JsMap.has uuid (RoomServer.users room) = false ->
        RoomServer.maxUsers (RoomServer.settings room)
        <= JsMap.size (RoomServer.users room) ->
        RoomServer.maxUsers (RoomServer.settings room')
        < JsMap.size (RoomServer.users room')
        /\ fst (RoomServer.joinRoom roomCode userInfo now (RoomServer.rooms st))
           = Throw "Room is full"))
  /\ RoomServer.onMessage env w now uuid (RoomServer.JOIN_ROOM roomCode clientType None) st
     = (st, [(w, RoomServer.Out.ERROR "Invalid message format")]).
Proof.
  intros Hget Hnot r userInfo. subst r.
  unfold RoomServer.onMessage, RoomServer.handleWebSocketMessage,
    RoomServer.handleJoinRoom.
  rewrite Hget, Hnot. fold userInfo. split; [|reflexivity].
  cbn [fst snd RoomServer.rooms RoomServer.setConn RoomServer.allocated
       RoomServer.setRooms].
  eexists. split; [reflexivity|]. split; [apply get_set_eq|].
  cbn [RoomServer.users RoomServer.setUsers RoomServer.setLastActivity
       RoomServer.settings RoomServer.code RoomServer.roomJoined RoomServer.id
       RoomServer.webUser].
  assert (JsMap.has uuid (RoomServer.users room) = false ->
          JsMap.size (JsMap.set uuid userInfo (RoomServer.users room))
          = S (JsMap.size (RoomServer.users room))) as Hsize.
  { intros Hfresh. now rewrite size_set, Hfresh. }
  split; [reflexivity|]. split; [apply get_set_eq|]. split; [reflexivity|].
  split; [reflexivity|]. split; [exact Hsize|].
  intros Hfresh Hfull. split.
  - specialize (Hsize Hfresh). change (RoomServer.id userInfo) with uuid. lia.
  - unfold RoomServer.joinRoom. rewrite Hget.
    apply Nat.leb_le in Hfull. now rewrite Hfull.
Qed.

Lemma handleJoinRoom_no_capacity_check_witness :
  let st := fst (RoomServer.run (Samples.hosted ++ Samples.crowd 50) RoomServer.initial) in
  let info := {| RoomServer.ClientInfo.name := Some "Late";
                 RoomServer.ClientInfo.role := None |} in
  let r := RoomServer.onMessage (RoomServer.openIn [1; 99]) 99 100 "late"
             (RoomServer.JOIN_ROOM "AB12CD" None (Some info)) st in
  (exists room,
      JsMap.get "AB12CD" (RoomServer.rooms st) = Some room
      /\ JsMap.size (RoomServer.users room) = 50
      /\ RoomServer.maxUsers (RoomServer.settings room) = 50
      /\ JsMap.has "late" (RoomServer.users room) = false)
  /\ (exists room',
         JsMap.get "AB12CD" (RoomServer.rooms (fst r)) = Some room'
         /\ JsMap.size (RoomServer.users room') = 51
         /\ RoomServer.maxUsers (RoomServer.settings room') = 50)
  /\ (exists clients code settings,
         last (snd r) (99, RoomServer.Out.HOST_DISCONNECTED)
         = (99, RoomServer.Out.ROOM_JOINED "AB12CD" clients code settings 51)).
Proof.
  intros st info r.
  assert (exists room,
             JsMap.get "AB12CD" (RoomServer.rooms st) = Some room
             /\ JsMap.size (RoomServer.users room) = 50
             /\ RoomServer.maxUsers (RoomServer.settings room) = 50
             /\ JsMap.has "late" (RoomServer.users room) = false) as Hroom.
  { vm_compute. eexists. split; [reflexivity|]. vm_compute. repeat split. }
  split; [exact Hroom|].
  destruct Hroom as (room & Hget & Hsz & Hmax & Hfresh).
  destruct (@handleJoinRoom_no_capacity_check
              (RoomServer.openIn [1; 99]) 99 100 "late" "AB12CD" None info
              st room Hget eq_refl)
    as ((room' & _ & Hget' & Hu & Hin & Hset & Hsnd & Hsize & Hfull) & _).
  specialize (Hsize Hfresh). rewrite Hsz in Hsize.
  split.
  - exists room'. split; [exact Hget'|]. split; [exact Hsize|].
    now rewrite Hset.
  - fold r in Hsnd. rewrite Hsnd, last_last, Hsize.
    do 3 eexists. reflexivity.
Defined.

(** C3 fails as stated: room AB12CD has its host attached on socket 1
    ([host.ws] set, [isConnected] true) and one participant; when that
    participant leaves through [leaveRoom] (as the close handler of its
    socket does), the room is deleted. *)
Lemma leaveRoom_deletes_hosted_room :
  let st := fst (RoomServer.run (Samples.hosted ++ Samples.crowd 1) RoomServer.initial) in
  (exists room,
      JsMap.get "AB12CD" (RoomServer.rooms st) = Some room
      /\ RoomServer.ws (RoomServer.host room) = Some 1
      /\ RoomServer.stateIsConnected room = Some (RoomServer.JBool true)
      /\ JsMap.keys (RoomServer.users room) = ["2"])
  /\ JsMap.get "AB12CD" (RoomServer.leaveRoom "AB12CD" "2" 20 (RoomServer.rooms st)) = None
  /\ JsMap.get "AB12CD"
       (RoomServer.rooms (fst (RoomServer.onClose (RoomServer.openIn [1]) 2 20 st))) = None.
Proof.
  split; [eexists; repeat split; reflexivity|]. split; reflexivity.
Qed.

Section LeaveRoomFrame.
Import RoomServer.

(** What LEAVE_ROOM does for a room that is in the store. *)
Lemma handleLeaveRoom_cases env w roomCode st room :
  JsMap.get roomCode (rooms st) = Some room ->
  let r := handleLeaveRoom env w roomCode st in
  connOf w (fst r) = noConn
  /\ (forall other, other <> roomCode ->
                    JsMap.get other (rooms (fst r)) = JsMap.get other (rooms st))
  /\ (forall h, currentUser (connOf w st) = Some h -> oid h = oid (host room) ->
                JsMap.get roomCode (rooms (fst r))
                = Some (setState (JsMap.set "isConnected" (JBool false) (state room))
                                 (setHost (setWs None (host room)) room))
                /\ snd r = broadcastUsers env Out.HOST_DISCONNECTED None (users room))
  /\ (forall u, currentUser (connOf w st) = Some u -> oid u <> oid (host room) ->
                id u <> "" -> JsMap.has (id u) (users room) = true ->
                JsMap.get roomCode (rooms (fst r))
                = Some (setUsers (JsMap.delete (id u) (users room)) room)
                /\ snd r = toHost env room (Out.ROOM_CLIENT_LEFT (id u)))
  /\ (match currentUser (connOf w st) with
      | Some u => oid u <> oid (host room)
                  /\ (id u = "" \/ JsMap.has (id u) (users room) = false)
      | None => True
      end -> rooms (fst r) = rooms st /\ snd r = []).
Proof.
  intros Hget r. subst r. unfold handleLeaveRoom. rewrite Hget.
  assert (forall c s, connOf w (setConn w c s) = c) as Hconn.
  { intros c s. unfold connOf, setConn. simpl. now rewrite get_set_eq. }
  destruct (currentUser (connOf w st)) as [u|] eqn:Hu; cbn [sameObject].
  - destruct (Nat.eqb_spec (oid u) (oid (host room))) as [Ho|Ho].
    + cbn [fst snd rooms setConn setRooms assignConns].
      split; [apply Hconn|]. split; [intros other Hne; apply get_set_ne; congruence|].
      split.
      { intros h _ _. split; [apply get_set_eq|].
        unfold broadcastToRoom. now rewrite get_set_eq. }
      split; [intros u0 [= <-] Hd; congruence|].
      intros [Hd _]. congruence.
    + assert (truthy (Some (id u)) = if String.eqb (id u) "" then None else Some (id u))
        as -> by reflexivity.
      destruct (String.eqb_spec (id u) "") as [He|He].
      * cbn [fst snd rooms setConn]. split; [apply Hconn|]. split; [reflexivity|].
        split; [intros h [= <-] Hd; congruence|].
        split; [intros u0 [= <-] _ Hd; congruence|]. auto.
      * destruct (JsMap.has (id u) (users room)) eqn:Hin.
        -- cbn [fst snd rooms setConn setRooms].
           split; [apply Hconn|].
           split; [intros other Hne; apply get_set_ne; congruence|].
           split; [intros h [= <-] Hd; congruence|]. split.
           ++ intros u0 [= <-] _ _ _. split; [apply get_set_eq|].
              unfold toHost, wsOpen. reflexivity.
           ++ intros (_ & [Hd|Hd]); congruence.
        -- cbn [fst snd rooms setConn]. split; [apply Hconn|]. split; [reflexivity|].
           split; [intros h [= <-] Hd; congruence|].
           split; [intros u0 [= <-] _ _ Hd; congruence|]. auto.
  - cbn [fst snd rooms setConn]. split; [apply Hconn|]. split; [reflexivity|].
    split; [discriminate|]. split; [discriminate|]. auto.
Qed.
End LeaveRoomFrame.

(** C3, amended. [leaveRoom] removes the named participant and deletes the
    room at once exactly when no participant is left, whether or not a
    host is attached; otherwise the room stays, with the participant
    removed and [lastActivity] set to the clock. Other rooms are not
    touched. The LEAVE_ROOM frame handler never deletes the room it
    names: sent by the connection whose current user is the room's host
    object it detaches the host ([host.ws] cleared, [isConnected] false,
    HOST_DISCONNECTED to the participants); sent by a connection whose
    current user is another object with a non-empty id that is in the
    room's user map it deletes that entry, leaves the room in the store
    even when it is then empty, and tells an OPEN host ROOM_CLIENT_LEFT;
    in the remaining cases the store is as before. It always clears the
    closure of the sending connection and touches no other room. *)
Theorem leaveRoom_spec (roomCode userId : string) (now : Z)
        (rooms : RoomServer.Rooms) (room : RoomServer.Room) :
  JsMap.get roomCode rooms = Some room ->
  let rooms' := RoomServer.leaveRoom roomCode userId now rooms in
  let remaining := JsMap.delete userId (RoomServer.users room) in
  JsMap.get userId remaining = None
  /\ (JsMap.size remaining = 0 -> JsMap.get roomCode rooms' = None)
  /\ (JsMap.size remaining <> 0 ->
      JsMap.get roomCode rooms'
      = Some (RoomServer.setLastActivity now (RoomServer.setUsers remaining room)))
  /\ (forall other, other <> roomCode -> JsMap.get other rooms' = JsMap.get other rooms)
  /\ (forall env w st,
         RoomServer.rooms st = rooms ->
         JsMap.has roomCode
           (RoomServer.rooms (fst (RoomServer.handleLeaveRoom env w roomCode st))) = true)
  /\ (forall env w st,
         RoomServer.rooms st = rooms ->
         let r := RoomServer.handleLeaveRoom env w roomCode st in
         RoomServer.connOf w (fst r) = RoomServer.noConn
         /\ (forall other, other <> roomCode ->
                           JsMap.get other (RoomServer.rooms (fst r)) = JsMap.get other rooms)
         /\ (forall h,
                RoomServer.currentUser (RoomServer.connOf w st) = Some h ->
                RoomServer.oid h = RoomServer.oid (RoomServer.host room) ->
                JsMap.get roomCode (RoomServer.rooms (fst r))
                = Some (RoomServer.setState
                          (JsMap.set "isConnected" (RoomServer.JBool false)
                                     (RoomServer.state room))
                          (RoomServer.setHost
                             (RoomServer.setWs None (RoomServer.host room)) room))
                /\ snd r = RoomServer.broadcastUsers env RoomServer.Out.HOST_DISCONNECTED
                                                     None (RoomServer.users room))
         /\ (forall u,
                RoomServer.currentUser (RoomServer.connOf w st) = Some u ->
                RoomServer.oid u <> RoomServer.oid (RoomServer.host room) ->
                RoomServer.id u <> "" ->
                JsMap.has (RoomServer.id u) (RoomServer.users room) = true ->
                JsMap.get roomCode (RoomServer.rooms (fst r))
                = Some (RoomServer.setUsers
                          (JsMap.delete (RoomServer.id u) (RoomServer.users room)) room)
                /\ snd r = RoomServer.toHost env room
                             (RoomServer.Out.ROOM_CLIENT_LEFT (RoomServer.id u)))
         /\ (match RoomServer.currentUser (RoomServer.connOf w st) with
             | Some u =>
                 RoomServer.oid u <> RoomServer.oid (RoomServer.host room)
                 /\ (RoomServer.id u = ""
                     \/ JsMap.has (RoomServer.id u) (RoomServer.users room) = false)
             | None => True
             end -> RoomServer.rooms (fst r) = rooms /\ snd r = [])).
Proof.
  intros Hget rooms' remaining.
  assert (forall env w st,
             RoomServer.rooms st = rooms ->
             JsMap.has roomCode
               (RoomServer.rooms (fst (RoomServer.handleLeaveRoom env w roomCode st)))
             = true) as Hstays.
  { intros env w st <-. unfold RoomServer.handleLeaveRoom. rewrite Hget.
    repeat match goal with
           | |- context [if ?b then _ else _] => destruct b
           | |- context [match ?x with Some _ => _ | None => _ end] => destruct x
           end;
      cbn [fst RoomServer.rooms RoomServer.setConn RoomServer.setRooms
               RoomServer.assignConns];
      apply has_true_get;
      solve [ eexists; apply get_set_eq | eexists; exact Hget ]. }
  assert (forall other, other <> roomCode -> JsMap.get other rooms' = JsMap.get other rooms)
    as Hothers.
  { intros other Hne. subst rooms'. unfold RoomServer.leaveRoom. rewrite Hget.
    destruct (_ =? 0)%nat; [apply get_delete_ne|apply get_set_ne]; congruence. }
  split; [apply get_delete_eq|].
  split; [|split; [|split; [exact Hothers|split; [exact Hstays|]]]].
  - intros Hz. subst rooms'. unfold RoomServer.leaveRoom. rewrite Hget.
    cbn [RoomServer.users RoomServer.setUsers RoomServer.setLastActivity].
    fold remaining. rewrite Hz. apply get_delete_eq.
  - intros Hnz. subst rooms'. unfold RoomServer.leaveRoom. rewrite Hget.
    cbn [RoomServer.users RoomServer.setUsers RoomServer.setLastActivity].
    fold remaining. destruct (Nat.eqb_spec (JsMap.size remaining) 0); [congruence|].
    apply get_set_eq.
  - intros env w st <-. now apply handleLeaveRoom_cases.
Qed.

Lemma leaveRoom_spec_witness :
  let st := fst (RoomServer.run (Samples.hosted ++ Samples.crowd 2) RoomServer.initial) in
  let r := RoomServer.handleLeaveRoom (RoomServer.openIn [1; 2; 3]) 2 "AB12CD" st in
  (exists room, JsMap.get "AB12CD" (RoomServer.rooms st) = Some room
                /\ JsMap.keys (RoomServer.users room) = ["2"; "3"])
  /\ (exists room',
         JsMap.get "AB12CD" (RoomServer.leaveRoom "AB12CD" "2" 20 (RoomServer.rooms st))
         = Some room'
         /\ JsMap.keys (RoomServer.users room') = ["3"]
         /\ RoomServer.lastActivity room' = 20%Z)
  /\ JsMap.has "AB12CD" (RoomServer.rooms (fst r)) = true
  /\ (exists room',
         JsMap.get "AB12CD" (RoomServer.rooms (fst r)) = Some room'
         /\ JsMap.keys (RoomServer.users room') = ["3"])
  /\ snd r = [(1, RoomServer.Out.ROOM_CLIENT_LEFT "2")].
Proof.
  intros st r.
  assert (exists room u,
             JsMap.get "AB12CD" (RoomServer.rooms st) = Some room
             /\ JsMap.keys (RoomServer.users room) = ["2"; "3"]
             /\ JsMap.size (JsMap.delete "2" (RoomServer.users room)) <> 0
             /\ JsMap.keys (JsMap.delete "2" (RoomServer.users room)) = ["3"]
             /\ RoomServer.currentUser (RoomServer.connOf 2 st) = Some u
             /\ RoomServer.oid u <> RoomServer.oid (RoomServer.host room)
             /\ RoomServer.id u = "2"
             /\ JsMap.has "2" (RoomServer.users room) = true
             /\ RoomServer.toHost (RoomServer.openIn [1; 2; 3]) room
                  (RoomServer.Out.ROOM_CLIENT_LEFT "2")
                = [(1, RoomServer.Out.ROOM_CLIENT_LEFT "2")])
    as (room & u & Hget & Hkeys & Hsize & Hrest & Hu & Hoid & Hid & Hin & Hhost).
  { vm_compute. do 2 eexists. repeat split; discriminate. }
  split; [exists room; auto|].
  destruct (@leaveRoom_spec "AB12CD" "2" 20 (RoomServer.rooms st) room Hget)
    as (_ & _ & Hkeep & _ & Hleave & Hframe).
  split.
  { eexists. split; [exact (Hkeep Hsize)|]. split; [exact Hrest|reflexivity]. }
  split; [apply Hleave; reflexivity|].
  destruct (Hframe (RoomServer.openIn [1; 2; 3]) 2 st eq_refl)
    as (_ & _ & _ & Hpart & _).
  destruct (Hpart u Hu Hoid) as [Hroom Hsent].
  - rewrite Hid. discriminate.
  - now rewrite Hid.
  - rewrite Hid in Hroom, Hsent. split.
    + eexists. split; [exact Hroom|exact Hrest].
    + exact (eq_trans Hsent Hhost).
Defined.

Section CodeGeneration.

Lemma generateRoomCode_truthy random :
  truthy (Some (generateRoomCode random)) = Some (generateRoomCode random).
Proof. destruct random as [[b0 b1] b2]. reflexivity. Qed.

Lemma truthy_idem s c : truthy s = Some c -> truthy (Some c) = Some c.
Proof.
  destruct s as [x|]; simpl; [|discriminate].
  destruct (String.eqb_spec x "") as [->|Hne]; [discriminate|].
  intros [= <-]. simpl.
  destruct (String.eqb_spec x ""); congruence.
Qed.

(** The code chosen by [POST /api/rooms/create] is never empty, so
    [createRoom] keeps it. *)
Lemma chosen_code_truthy roomCode random :
  let code0 := match truthy roomCode with
               | Some c => c
               | None => generateRoomCode random
               end in
  truthy (Some code0) = Some code0.
Proof.
  simpl. destruct (truthy roomCode) as [c|] eqn:Hc.
  - eapply truthy_idem; eauto.
  - apply generateRoomCode_truthy.
Qed.

(** What the retry loop returns when entered after [attempts] draws. *)
Lemma codeLoop_spec draws owners attempts :
  let r := AuthServer.codeLoop draws owners attempts in
  attempts < snd r
  /\ (attempts < 10 -> snd r <= 10)
  /\ fst r = generateRoomCode (draws (snd r - 1))
  /\ (snd r < 10 -> JsMap.has (fst r) owners = false)
  /\ (forall k, attempts <= k -> S k < snd r ->
                JsMap.has (generateRoomCode (draws k)) owners = true).
Proof.
  funelim (AuthServer.codeLoop draws owners attempts); simpl.
  - pose proof e as He. apply andb_prop in He. destruct He as [Hhas Hlt].
    apply Nat.ltb_lt in Hlt.
    match goal with
    | IH : _ /\ _ |- _ => destruct IH as (H1 & H2 & H3 & H4 & H5)
    end.
    repeat split; auto; try lia.
    intros k Hk1 Hk2. destruct (Nat.eq_dec k attempts) as [->|Hne]; auto.
    apply H5; lia.
  - pose proof e as He. repeat split; try lia.
    + now rewrite Nat.sub_0_r.
    + intros Hlt. apply andb_false_iff in He. destruct He as [He|He]; auto.
      apply Nat.ltb_ge in He. lia.
Qed.

Lemma codeLoop_exhausted draws owners :
  (forall k, k < 10 -> JsMap.has (generateRoomCode (draws k)) owners = true) ->
  snd (AuthServer.codeLoop draws owners 0) = 10.
Proof.
  intros Hall.
  destruct (codeLoop_spec draws owners 0) as (H1 & H2 & H3 & H4 & _).
  destruct (Nat.lt_ge_cases (snd (AuthServer.codeLoop draws owners 0)) 10)
    as [Hlt|Hge]; [|lia].
  specialize (H4 Hlt). rewrite H3, Hall in H4; [discriminate|lia].
Qed.
End CodeGeneration.

(** C4 fails as stated, on both halves. Room AB12CD is live with one
    participant. [createRoom] called with that desired code does not fail:
    it returns a room and replaces the live one (the participant is gone).
    Called without a desired code, with random bytes AB 12 CD, it returns
    a room whose generated code is present in the store. *)
Lemma createRoom_overwrites_live_code :
  let st := fst (RoomServer.run (Samples.hosted ++ Samples.crowd 1) RoomServer.initial) in
  let h2 := RoomServer.newHost st "h-2" None None "Room Host" 30 in
  let desired := RoomServer.createRoom h2 (Some "AB12CD") (Byte.x00, Byte.x00, Byte.x00) 30
                                       (RoomServer.rooms st) in
  let generated := RoomServer.createRoom h2 None (Byte.xab, Byte.x12, Byte.xcd) 30
                                         (RoomServer.rooms st) in
  JsMap.has "AB12CD" (RoomServer.rooms st) = true
  /\ (exists old, JsMap.get "AB12CD" (RoomServer.rooms st) = Some old
                  /\ JsMap.keys (RoomServer.users old) = ["2"])
  /\ RoomServer.code (fst desired) = "AB12CD"
  /\ JsMap.get "AB12CD" (snd desired) = Some (fst desired)
  /\ RoomServer.users (fst desired) = []
  /\ snd desired <> RoomServer.rooms st
  /\ RoomServer.code (fst generated) = "AB12CD"
  /\ JsMap.has (RoomServer.code (fst generated)) (RoomServer.rooms st) = true.
Proof.
  repeat split; try reflexivity.
  - eexists. split; reflexivity.
  - vm_compute. discriminate.
Qed.

(** C4, amended. [createRoom] makes no check and never fails: it stores
    the new room under the desired code when one is given and otherwise
    under one generated code, whatever the store holds. The conflict check
    is in [POST /api/rooms/create]: when the code it chose (given or
    generated) is live it answers "Room code already exists" and leaves
    the state as it was; otherwise the created room carries that code,
    which was not in the store. The bounded retry is in the room creation
    of the auth server: the loop draws at most 10 codes against the
    ownership map; whenever the endpoint succeeds, the code was absent
    from that map and is now owned by the caller; when the first ten draws
    are all taken it fails with "Failed to generate unique room code". *)
Theorem createRoom_conflict_and_retry
        (hostInfo : RoomServer.User) (custom roomCode hostType hostName : option string)
        (uuid : string) (random random' : Bytes3) (now : Z) (st : RoomServer.Server)
        (userId userEmail : string) (draws : nat -> Bytes3) (auth : AuthServer.Server)
        (user : AuthServer.Account) :
  JsMap.get userEmail (AuthServer.users auth) = Some user ->
  let created := RoomServer.createRoom hostInfo custom random now (RoomServer.rooms st) in
  let code0 := match truthy roomCode with
               | Some c => c
               | None => generateRoomCode random
               end in
  let posted := RoomServer.postRoomsCreate roomCode hostType hostName uuid
                                           random random' now st in
  let loop := AuthServer.codeLoop draws (AuthServer.roomOwners auth) 0 in
  let owned := AuthServer.postRoomsCreate userId userEmail draws auth in
  (RoomServer.code (fst created)
   = match truthy custom with Some c => c | None => generateRoomCode random end
   /\ JsMap.get (RoomServer.code (fst created)) (snd created) = Some (fst created)
   /\ RoomServer.host (fst created) = hostInfo
   /\ RoomServer.users (fst created) = [])
  /\ (JsMap.has code0 (RoomServer.rooms st) = true ->
      posted = (RoomServer.Failed 400 "Room code already exists", st))
  /\ (JsMap.has code0 (RoomServer.rooms st) = false ->
      exists room,
        fst posted = RoomServer.RoomCreated code0 (RoomServer.settings room) now
        /\ RoomServer.code room = code0
        /\ JsMap.get code0 (RoomServer.rooms (snd posted)) = Some room)
  /\ (1 <= snd loop <= 10)
  /\ (forall code owner,
         fst owned = AuthServer.RoomCreated code owner ->
         JsMap.has code (AuthServer.roomOwners auth) = false
         /\ JsMap.get code (AuthServer.roomOwners (snd owned)) = Some userId)
  /\ ((forall k, k < 10 ->
                 JsMap.has (generateRoomCode (draws k)) (AuthServer.roomOwners auth) = true) ->
      owned = (AuthServer.Failed 500 "Failed to generate unique room code", auth)).
Proof.
  intros Huser created code0 posted loop owned.
  split; [|split; [|split; [|split; [|split]]]].
  - repeat split. apply get_set_eq.
  - intros Hlive. subst posted. unfold RoomServer.postRoomsCreate.
    fold code0. now rewrite Hlive.
  - intros Hfresh. subst posted. unfold RoomServer.postRoomsCreate.
    fold code0. rewrite Hfresh.
    unfold RoomServer.createRoom.
    rewrite (chosen_code_truthy roomCode random : truthy (Some code0) = Some code0).
    eexists. cbn [fst snd RoomServer.rooms RoomServer.allocated RoomServer.setRooms
                  RoomServer.code RoomServer.settings RoomServer.createdAt].
    refine (conj _ (conj _ (get_set_eq _ _ _))); reflexivity.
  - destruct (codeLoop_spec draws (AuthServer.roomOwners auth) 0) as (H1 & H2 & _).
    subst loop. lia.
  - intros code owner. subst owned. unfold AuthServer.postRoomsCreate.
    rewrite Huser. fold loop.
    destruct (codeLoop_spec draws (AuthServer.roomOwners auth) 0)
      as (_ & _ & _ & H4 & _). fold loop in H4.
    destruct (Nat.leb_spec 10 (snd loop)) as [Hge|Hlt]; cbn [fst snd]; [discriminate|].
    intros [= <- <-]. split; [now apply H4|].
    cbn [AuthServer.roomOwners]. apply get_set_eq.
  - intros Hall. subst owned. unfold AuthServer.postRoomsCreate.
    rewrite Huser. rewrite (codeLoop_exhausted _ _ Hall). reflexivity.
Qed.

Lemma createRoom_conflict_and_retry_witness :
  let st := fst (RoomServer.run Samples.hosted RoomServer.initial) in
  let auth := {| AuthServer.users :=
                   [("a@b.c", {| AuthServer.id := "user_1"; AuthServer.name := "A";
                                 AuthServer.email := "a@b.c"; AuthServer.rooms := [] |})];
                 AuthServer.roomOwners := [("AB12CD", "user_0")] |} in
  let draws := fun k => match k with
                        | 0 => (Byte.xab, Byte.x12, Byte.xcd)
                        | _ => (Byte.x0f, Byte.x00, Byte.xd1)
                        end in
  (exists user, JsMap.get "a@b.c" (AuthServer.users auth) = Some user)
  /\ JsMap.has "AB12CD" (RoomServer.rooms st) = true
  /\ RoomServer.postRoomsCreate (Some "AB12CD") None None "h-2"
       (Byte.x00, Byte.x00, Byte.x00) (Byte.x00, Byte.x00, Byte.x00) 30 st
     = (RoomServer.Failed 400 "Room code already exists", st)
  /\ fst (AuthServer.postRoomsCreate "user_1" "a@b.c" draws auth)
     = AuthServer.RoomCreated "0F00D1" "user_1"
  /\ JsMap.has "0F00D1" (AuthServer.roomOwners auth) = false.
Proof.
  intros st auth draws.
  pose proof (@createRoom_conflict_and_retry
                (RoomServer.newHost st "h-2" None None "Desktop App" 30)
                None (Some "AB12CD") None None "h-2"
                (Byte.x00, Byte.x00, Byte.x00) (Byte.x00, Byte.x00, Byte.x00) 30 st
                "user_1" "a@b.c" draws auth _ eq_refl)
    as (_ & Hconflict & _ & _ & Hfresh & _).
  split; [eexists; reflexivity|].
  split; [reflexivity|]. split; [apply Hconflict; reflexivity|].
  split; [reflexivity|].
  apply (Hfresh "0F00D1" "user_1"). reflexivity.
Defined.

(* ================================================================== *)
(** * Room-mode connections (room-server.js) *)

Section RoomInvariant.
Import RoomServer.

Lemma isHost_setWs u w : isHost u -> isHost (setWs w u).
Proof. unfold isHost. simpl. auto. Qed.

Lemma isParticipant_setWs u w : isParticipant u -> isParticipant (setWs w u).
Proof. unfold isParticipant. simpl. auto. Qed.

Lemma isHost_newHost st uuid hn ht dn now : isHost (newHost st uuid hn ht dn now).
Proof. unfold isHost. simpl. split; [discriminate|reflexivity]. Qed.

Lemma isParticipant_webUser st w now uuid cn cr :
  isParticipant (webUser st w now uuid cn cr).
Proof. unfold isParticipant. simpl. split; [reflexivity|discriminate]. Qed.

Lemma rooms_get_ok (rs : Rooms) roomCode room :
  Forall (fun kv => roomOk (snd kv)) rs ->
  JsMap.get roomCode rs = Some room -> roomOk room.
Proof.
  intros Hall Hget. apply get_In in Hget.
  exact (proj1 (Forall_forall _ _) Hall _ Hget).
Qed.

Lemma users_get_ok (us : JsMap.t string User) userId u :
  Forall (fun e => isParticipant (snd e)) us ->
  JsMap.get userId us = Some u -> isParticipant u.
Proof.
  intros Hall Hget. apply get_In in Hget.
  exact (proj1 (Forall_forall _ _) Hall _ Hget).
Qed.

Lemma connOf_ok st w : wellFormed st -> connOk (connOf w st).
Proof.
  intros [_ Hc]. unfold connOf.
  destruct (JsMap.get w (conns st)) as [c|] eqn:Hget.
  - apply get_In in Hget. exact (proj1 (Forall_forall _ _) Hc _ Hget).
  - exact I.
Qed.

Lemma roomOk_attachHost w now room : roomOk room -> roomOk (attachHost w now room).
Proof. intros [Hh Hu]. split; [now apply isHost_setWs|exact Hu]. Qed.

(** Replacing a room and the closure of one connection. *)
Lemma wellFormed_update st roomCode room' w c :
  wellFormed st -> roomOk room' -> connOk c ->
  wellFormed (setConn w c (setRooms (JsMap.set roomCode room' (rooms st)) st)).
Proof.
  intros [Hr Hc] Hroom Hconn. split; simpl.
  - now apply Forall_set.
  - now apply Forall_set.
Qed.

Lemma wellFormed_setRooms st rs :
  wellFormed st -> Forall (fun kv => roomOk (snd kv)) rs -> wellFormed (setRooms rs st).
Proof. intros [Hr Hc] Hrs. split; simpl; auto. Qed.

Lemma wellFormed_setConn st w c :
  wellFormed st -> connOk c -> wellFormed (setConn w c st).
Proof. intros [Hr Hc] Hconn. split; simpl; auto. now apply Forall_set. Qed.

Lemma wellFormed_allocated st : wellFormed st -> wellFormed (allocated st).
Proof. intros [Hr Hc]. split; simpl; auto. Qed.

Lemma createRoom_ok hostInfo custom random now rs :
  isHost hostInfo -> Forall (fun kv => roomOk (snd kv)) rs ->
  Forall (fun kv => roomOk (snd kv)) (snd (createRoom hostInfo custom random now rs)).
Proof.
  intros Hh Hrs. unfold createRoom. simpl. apply Forall_set; auto.
  split; simpl; auto; try constructor.
Qed.

Lemma leaveRoom_ok roomCode userId now rs :
  Forall (fun kv => roomOk (snd kv)) rs ->
  Forall (fun kv => roomOk (snd kv)) (leaveRoom roomCode userId now rs).
Proof.
  intros Hrs. unfold leaveRoom.
  destruct (JsMap.get roomCode rs) as [room|] eqn:Hget; auto.
  destruct (rooms_get_ok _ Hrs Hget) as [Hh Hu].
  destruct (JsMap.size _ =? 0)%nat.
  - now apply Forall_delete.
  - apply Forall_set; auto. split; simpl; auto; now apply Forall_delete.
Qed.

Lemma connOk_assignConn o v c : connOk c -> connOk (assignConn o v c).
Proof.
  unfold connOk, assignConn. simpl. destruct (currentUser c) as [u|]; simpl; auto.
  unfold assignWs. destruct (Nat.eqb (oid u) o); auto.
  all: intros [Hh|Hp]; [left; now apply isHost_setWs|right; now apply isParticipant_setWs].
Qed.

Lemma wellFormed_assignConns o v st : wellFormed st -> wellFormed (assignConns o v st).
Proof.
  intros [Hr Hc]. split; simpl; auto.
  apply Forall_forall. intros kv Hin. apply in_map_iff in Hin.
  destruct Hin as (kv0 & <- & Hin0). simpl. apply connOk_assignConn.
  exact (proj1 (Forall_forall _ _) Hc _ Hin0).
Qed.

Lemma wellFormed_update_assign o v st roomCode room' w c :
  wellFormed st -> roomOk room' -> connOk c ->
  wellFormed (setConn w c (setRooms (JsMap.set roomCode room' (rooms st))
                                    (assignConns o v st))).
Proof.
  intros Hwf Hroom Hconn.
  now apply (@wellFormed_update (assignConns o v st)); [apply wellFormed_assignConns| |].
Qed.

Lemma roomMessage_wellFormed env w now uuid data st :
  wellFormed st -> wellFormed (fst (onMessage env w now uuid data st)).
Proof.
  intros Hwf. pose proof Hwf as [Hr Hc].
  pose proof (fun o v => wellFormed_assignConns o v Hwf) as Hwa.
  destruct data; unfold onMessage, handleWebSocketMessage; cbv beta iota.
  - (* REGISTER_HOST *)
    unfold handleRegisterHost.
    destruct (JsMap.get roomCode (rooms st)) as [room|] eqn:Hget; auto.
    pose proof (roomOk_attachHost w now (rooms_get_ok _ Hr Hget)) as Hok.
    cbn [fst]. first [apply wellFormed_update|apply wellFormed_update_assign]; auto. left. apply Hok.
  - (* JOIN_ROOM *)
    unfold handleJoinRoom.
    destruct (JsMap.get roomCode (rooms st)) as [room|] eqn:Hget; auto.
    destruct (rooms_get_ok _ Hr Hget) as [Hh Hu].
    destruct (isHostType clientType); [|destruct clientInfo as [info|]; [|exact Hwf]];
      cbn [fst].
    + pose proof (roomOk_attachHost w now (rooms_get_ok _ Hr Hget)) as Hok.
      first [apply wellFormed_update|apply wellFormed_update_assign]; auto. left. apply Hok.
    + apply wellFormed_setConn.
      * apply wellFormed_allocated. apply wellFormed_setRooms; auto.
        apply Forall_set; auto. split; simpl; auto;
          apply Forall_set; auto; apply isParticipant_webUser.
      * right. apply isParticipant_webUser.
  - (* LEAVE_ROOM *)
    unfold handleLeaveRoom.
    destruct (JsMap.get roomCode (rooms st)) as [room|] eqn:Hget; auto.
    destruct (rooms_get_ok _ Hr Hget) as [Hh Hu].
    destruct (sameObject _ _); cbn [fst].
    + first [apply wellFormed_update|apply wellFormed_update_assign]; auto; [|exact I].
      split; simpl; auto; now apply isHost_setWs.
    + destruct (currentUser (connOf w st)) as [u|];
        [|apply wellFormed_setConn; auto; exact I].
      destruct (truthy (Some (id u))) as [userId|];
        [|apply wellFormed_setConn; auto; exact I].
      destruct (JsMap.has userId (users room));
        [|apply wellFormed_setConn; auto; exact I].
      cbn [fst]. first [apply wellFormed_update|apply wellFormed_update_assign]; auto; [|exact I].
      split; simpl; auto; now apply Forall_delete.
  - (* REGISTER_USER *)
    unfold handleRegisterUser.
    destruct (JsMap.get roomCode (rooms st)) as [room|] eqn:Hget; auto.
    destruct (rooms_get_ok _ Hr Hget) as [Hh Hu].
    destruct (JsMap.get userId (users room)) as [user0|] eqn:Hu0; auto.
    pose proof (isParticipant_setWs (Some w) (users_get_ok _ Hu Hu0)) as Hp.
    cbn [fst]. first [apply wellFormed_update|apply wellFormed_update_assign]; auto; [|right; exact Hp].
    split; simpl; auto; now apply Forall_set.
  - (* ROOM_STATE_UPDATE *)
    unfold handleRoomStateUpdate.
    destruct (truthy (currentRoom (connOf w st))) as [roomCode|]; auto.
    destruct (currentUser (connOf w st)) as [user|]; auto.
    destruct (isDesktop user); auto.
    destruct (JsMap.get roomCode (rooms st)) as [room|] eqn:Hget; auto.
    destruct (rooms_get_ok _ Hr Hget) as [Hh Hu].
    cbn [fst]. apply wellFormed_setRooms; auto.
    apply Forall_set; auto. split; simpl; auto.
  - (* USER_COMMAND *)
    unfold handleUserCommand.
    destruct (truthy (currentRoom (connOf w st))) as [roomCode|]; auto.
    destruct (currentUser (connOf w st)) as [user|]; auto.
    destruct (JsMap.get roomCode (rooms st)) as [room|]; auto.
    destruct (ws (host room)); auto.
  - (* CHAT_MESSAGE *)
    unfold handleChatMessage.
    destruct (truthy (currentRoom (connOf w st))) as [roomCode|]; auto.
    destruct (currentUser (connOf w st)) as [user|]; auto.
  - exact Hwf.
Qed.

Lemma step_wellFormed env now e st :
  wellFormed st -> wellFormed (fst (step env now e st)).
Proof.
  intros Hwf. pose proof Hwf as [Hr Hc].
  destruct e; cbn [step fst].
  - unfold postRooms. cbn [snd]. apply wellFormed_allocated.
    apply wellFormed_setRooms; auto. apply createRoom_ok; auto.
    apply isHost_newHost.
  - unfold postRoomsCreate.
    destruct (JsMap.has _ (rooms st)); cbn [snd]; auto.
    apply wellFormed_allocated.
    apply wellFormed_setRooms; auto. apply createRoom_ok; auto.
    apply isHost_newHost.
  - unfold postJoin, joinRoom.
    destruct (JsMap.get roomCode (rooms st)) as [room|] eqn:Hget;
      [|cbn [snd]; now apply wellFormed_allocated].
    destruct (rooms_get_ok _ Hr Hget) as [Hh Hu].
    destruct (maxUsers (settings room) <=? JsMap.size (users room))%nat;
      cbn [snd]; apply wellFormed_allocated; auto.
    apply wellFormed_setRooms; auto.
    apply Forall_set; auto. split; simpl; auto;
      apply Forall_set; auto; split; [reflexivity|discriminate].
  - now apply roomMessage_wellFormed.
  - unfold onClose.
    destruct (currentUser (connOf w st)) as [user|]; auto.
    destruct (truthy (currentRoom (connOf w st))) as [roomCode|]; auto.
    cbn [fst]. apply wellFormed_setRooms; auto. now apply leaveRoom_ok.
  - apply wellFormed_setRooms; auto. unfold sweep.
    apply Forall_forall. intros kv Hin. apply filter_In in Hin.
    exact (proj1 (Forall_forall _ _) Hr _ (proj1 Hin)).
Qed.

Lemma run_wellFormed evs : forall st,
  wellFormed st -> wellFormed (fst (run evs st)).
Proof.
  induction evs as [|[[opened now] e] evs IH]; intros st Hwf; simpl; auto.
  apply IH. now apply step_wellFormed.
Qed.

Lemma initial_wellFormed : wellFormed initial.
Proof. split; constructor. Qed.
End RoomInvariant.

Section RoomBroadcast.
Import RoomServer.

Lemma wsOpen_Some env u w :
  wsOpen env u = Some w <-> ws u = Some w /\ env w = true.
Proof.
  unfold wsOpen. destruct (ws u) as [w0|].
  - destruct (env w0) eqn:He; split.
    + intros [= <-]. auto.
    + intros [[= <-] _]. reflexivity.
    + discriminate.
    + intros [[= <-] He']. congruence.
  - split; [discriminate|]. intros [H _]. discriminate.
Qed.

Lemma broadcastUsers_In env message exclude entries w m :
  In (w, m) (broadcastUsers env message exclude entries)
  <-> m = message
      /\ exists userId user,
           In (userId, user) entries /\ ws user = Some w /\ env w = true
           /\ exclude <> Some userId.
Proof.
  induction entries as [|[uid u] entries IH]; simpl.
  - split; [contradiction|]. intros (_ & ? & ? & [] & _).
  - assert ((match exclude with
             | Some x => String.eqb uid x
             | None => false
             end) = true <-> exclude = Some uid) as Hskip.
    { destruct exclude as [x|]; [|split; discriminate].
      destruct (String.eqb_spec uid x) as [->|Hne]; split; auto; try discriminate.
      intros [= ->]. congruence. }
    destruct (match exclude with
              | Some x => String.eqb uid x
              | None => false
              end) eqn:Hs.
    + rewrite IH. split.
      * intros (-> & uid' & u' & Hin & Hrest). split; auto.
        exists uid', u'. split; auto.
      * intros (-> & uid' & u' & [[= <- <-]|Hin] & Hws & He & Hex).
        -- exfalso. apply Hex. now apply Hskip.
        -- split; auto. exists uid', u'. auto.
    + assert (exclude <> Some uid) as Hnot.
      { intros Heq. apply Hskip in Heq. congruence. }
      destruct (wsOpen env u) as [w0|] eqn:Hopen; simpl.
      * apply wsOpen_Some in Hopen. destruct Hopen as [Hws He].
        rewrite IH. split.
        -- intros [[= <- <-]|(-> & uid' & u' & Hin & Hrest)].
           ++ split; auto. exists uid, u. auto.
           ++ split; auto. exists uid', u'. split; auto.
        -- intros (-> & uid' & u' & [[= <- <-]|Hin] & Hws' & He' & Hex).
           ++ left. congruence.
           ++ right. split; auto. exists uid', u'. auto.
      * rewrite IH. split.
        -- intros (-> & uid' & u' & Hin & Hrest). split; auto.
           exists uid', u'. split; auto.
        -- intros (-> & uid' & u' & [[= <- <-]|Hin] & Hws' & He' & Hex).
           ++ assert (wsOpen env u = Some w) as Hw by now apply wsOpen_Some.
              congruence.
           ++ split; auto. exists uid', u'. auto.
Qed.

Lemma broadcastToRoom_after_set env rs roomCode room' message exclude :
  broadcastToRoom env (JsMap.set roomCode room' rs) roomCode message exclude
  = broadcastUsers env message exclude (users room').
Proof. unfold broadcastToRoom. now rewrite get_set_eq. Qed.
End RoomBroadcast.

(** C6 fails as stated for the room broadcast: participants on sockets 2
    and 3 are in room AB12CD, socket 3 is closed. A chat message from
    socket 2 is broadcast to the room: it is sent to socket 2 only, and
    the participant of the closed socket 3 is still a member afterwards
    (the state is unchanged). *)
Lemma broadcastToRoom_keeps_closed :
  let st := fst (RoomServer.run (Samples.hosted ++ Samples.crowd 2) RoomServer.initial) in
  let env := RoomServer.openIn [1; 2] in
  let r := RoomServer.handleChatMessage env 2 40 "m-1" "hello" st in
  env 3 = false
  /\ map fst (snd r) = [2]
  /\ map fst (RoomServer.broadcastToRoom env (RoomServer.rooms st) "AB12CD"
                                         RoomServer.Out.HOST_DISCONNECTED None) = [2]
  /\ fst r = st
  /\ exists room user,
       JsMap.get "AB12CD" (RoomServer.rooms (fst r)) = Some room
       /\ JsMap.get "3" (RoomServer.users room) = Some user
       /\ RoomServer.ws user = Some 3.
Proof.
  intros st env r.
  split; [vm_compute; reflexivity|]. split; [vm_compute; reflexivity|].
  split; [vm_compute; reflexivity|]. split; [vm_compute; reflexivity|].
  do 2 eexists.
  split; [vm_compute; reflexivity|]. split; vm_compute; reflexivity.
Qed.

(** C6, amended. [broadcastToRemotes] and [broadcastToDisplays] send the
    message to every connection of their set that is OPEN and delete every
    other connection from the set. [broadcastToRoom] sends the message to
    every participant of the room, other than the excluded one, whose
    socket is attached and OPEN; it removes nobody: the store is not
    changed by the room broadcast. All three are total. *)
Theorem broadcast_delivery
        (env : nat -> bool) (w : nat)
        (gmsg : WebsocketServer.Out.Msg) (gst : WebsocketServer.Server)
        (rmsg : RoomServer.Out.Msg) (rooms : RoomServer.Rooms) (roomCode : string)
        (excludeUserId : option string) (room : RoomServer.Room) :
  JsMap.get roomCode rooms = Some room ->
  let remotes := WebsocketServer.broadcastToRemotes env gmsg gst in
  let displays := WebsocketServer.broadcastToDisplays env gmsg gst in
  let sends := RoomServer.broadcastToRoom env rooms roomCode rmsg excludeUserId in
  (In (w, gmsg) (snd remotes)
   <-> In w (WebsocketServer.remoteClients gst) /\ env w = true)
  /\ (In w (WebsocketServer.remoteClients (fst remotes))
      <-> In w (WebsocketServer.remoteClients gst) /\ env w = true)
  /\ (In (w, gmsg) (snd displays)
      <-> In w (WebsocketServer.displayClients gst) /\ env w = true)
  /\ (In w (WebsocketServer.displayClients (fst displays))
      <-> In w (WebsocketServer.displayClients gst) /\ env w = true)
  /\ (In (w, rmsg) sends
      <-> exists userId user,
            In (userId, user) (RoomServer.users room)
            /\ RoomServer.ws user = Some w /\ env w = true
            /\ excludeUserId <> Some userId)
  /\ (forall now uuid message st,
         fst (RoomServer.handleChatMessage env w now uuid message st) = st).
Proof.
  intros Hget remotes displays sends.
  subst remotes displays sends.
  rewrite broadcastToRemotes_eq, broadcastToDisplays_eq.
  cbn [fst snd WebsocketServer.remoteClients WebsocketServer.setRemotes
       WebsocketServer.displayClients WebsocketServer.setDisplays].
  assert (forall l, In (w, gmsg) (map (fun x => (x, gmsg)) (filter env l))
                    <-> In w l /\ env w = true) as Hmap.
  { intros l. rewrite in_map_iff. split.
    - intros (x & [= ->] & Hx). now apply filter_In in Hx.
    - intros Hx. exists w. split; auto. now apply filter_In. }
  split; [apply Hmap|]. split; [apply filter_In|].
  split; [apply Hmap|]. split; [apply filter_In|]. split.
  - unfold RoomServer.broadcastToRoom. rewrite Hget.
    rewrite broadcastUsers_In. split.
    + intros [_ H]. exact H.
    + intros H. split; auto.
  - intros now uuid message st. unfold RoomServer.handleChatMessage.
    destruct (truthy _); auto.
    destruct (RoomServer.currentUser _); auto.
Qed.

Lemma broadcast_delivery_witness :
  let gst := fst (WebsocketServer.run
                    [([1], WebsocketServer.Connection 1 101%Z);
                     ([1], WebsocketServer.Message 1
                             (WebsocketServer.REGISTER_REMOTE None None None None));
                     ([1; 2], WebsocketServer.Connection 2 202%Z);
                     ([1; 2], WebsocketServer.Message 2
                                (WebsocketServer.REGISTER_REMOTE None None None None))]
                    WebsocketServer.initial) in
  let rst := fst (RoomServer.run (Samples.hosted ++ Samples.crowd 2) RoomServer.initial) in
  let env := RoomServer.openIn [1; 2] in
  let r := WebsocketServer.broadcastToRemotes env (WebsocketServer.Out.CONTROLLER_STATUS true)
                                              gst in
  (exists room, JsMap.get "AB12CD" (RoomServer.rooms rst) = Some room)
  /\ WebsocketServer.remoteClients gst = [1; 2]
  /\ WebsocketServer.remoteClients
       (fst (WebsocketServer.broadcastToRemotes
               (RoomServer.openIn [2]) (WebsocketServer.Out.CONTROLLER_STATUS true) gst))
     = [2]
  /\ In (2, WebsocketServer.Out.CONTROLLER_STATUS true) (snd r)
  /\ In (2, RoomServer.Out.HOST_DISCONNECTED)
        (RoomServer.broadcastToRoom env (RoomServer.rooms rst) "AB12CD"
                                    RoomServer.Out.HOST_DISCONNECTED None).
Proof.
  intros gst rst env r.
  split; [eexists; vm_compute; reflexivity|].
  split; [reflexivity|]. split; [reflexivity|].
  destruct (@broadcast_delivery env 2 (WebsocketServer.Out.CONTROLLER_STATUS true) gst
              RoomServer.Out.HOST_DISCONNECTED (RoomServer.rooms rst) "AB12CD" None
              _ eq_refl) as (Hr & _ & _ & _ & Hroom & _).
  split.
  - apply Hr. split; [simpl; auto|reflexivity].
  - apply Hroom. do 2 eexists. split; [left; reflexivity|].
    split; [reflexivity|]. split; [reflexivity|]. discriminate.
Defined.

(* ================================================================== *)
(** * State updates *)

(** C1 fails as stated in global mode: socket 1 holds the controller slot,
    sockets 2 and 4 are remotes, socket 3 is a display. A TIMER_UPDATE
    sent by the remote on socket 2 is fanned out to both remotes and to
    the display. *)
Lemma update_from_remote_fans_out :
  let st := fst (WebsocketServer.run
                   [([1], WebsocketServer.Connection 1 101%Z);
                    ([1], WebsocketServer.Message 1 WebsocketServer.REGISTER_CONTROLLER);
                    ([1; 2], WebsocketServer.Connection 2 202%Z);
                    ([1; 2], WebsocketServer.Message 2
                               (WebsocketServer.REGISTER_REMOTE
                                  (Some "R2") (Some "viewer") None None));
                    ([1; 2; 3], WebsocketServer.Connection 3 303%Z);
                    ([1; 2; 3], WebsocketServer.Message 3
                                  (WebsocketServer.REGISTER_DISPLAY None));
                    ([1; 2; 3; 4], WebsocketServer.Connection 4 404%Z);
                    ([1; 2; 3; 4], WebsocketServer.Message 4
                                     (WebsocketServer.REGISTER_REMOTE
                                        (Some "R4") None None None))]
                   WebsocketServer.initial) in
  let r := WebsocketServer.onMessage (WebsocketServer.openIn [1; 2; 3; 4]) 2
                                     (WebsocketServer.TIMER_UPDATE "t=0") st in
  WebsocketServer.controllerClient st = Some 1
  /\ (exists sender, JsMap.get 2 (WebsocketServer.clients st) = Some sender
                     /\ WebsocketServer.type sender = WebsocketServer.remote)
  /\ snd r = [(2, WebsocketServer.Out.TIMER_UPDATE "t=0");
              (4, WebsocketServer.Out.TIMER_UPDATE "t=0");
              (3, WebsocketServer.Out.TIMER_UPDATE "t=0")].
Proof.
  intros st r.
  split; [vm_compute; reflexivity|]. split.
  - eexists. split; vm_compute; reflexivity.
  - vm_compute; reflexivity.
Qed.

Section RoomStateUpdate.
Import RoomServer.

Lemma isDesktop_type u : isDesktop u = true -> type u = Some "desktop".
Proof.
  unfold isDesktop. destruct (type u) as [t|]; [|discriminate].
  destruct (String.eqb_spec t "desktop"); congruence.
Qed.

(** A connection whose current user is typed holds a host object. *)
Lemma desktop_is_host st w u :
  wellFormed st -> currentUser (connOf w st) = Some u ->
  isDesktop u = true -> isHost u.
Proof.
  intros Hwf Hu Hd. pose proof (connOf_ok w Hwf) as Hok.
  unfold connOk in Hok. rewrite Hu in Hok.
  destruct Hok as [Hh|[Hp _]]; auto.
  apply isDesktop_type in Hd. congruence.
Qed.
End RoomStateUpdate.

(** C1, amended. Room mode: in every run of the room server from start-up,
    a ROOM_STATE_UPDATE frame changes the state or sends something only
    when the sending connection is attached to a room and its current user
    is a host object of type [desktop]. Whenever the current user of the
    sending connection is of type [desktop] and the room under the
    connection's room code is in the store, the frame's state is merged
    into the state blob of that room, [lastActivity] is set to the clock,
    and the merged state is sent to exactly the room's participants whose
    socket is OPEN; when that room is no longer in the store nothing
    happens. From a connection whose current user is not of type
    [desktop], or that has none, nothing changes and nothing is sent.
    Global mode: TIMER_UPDATE and MESSAGE_UPDATE make no
    check of the sender and keep no shared state; from any socket they are
    sent to every OPEN remote and then to every OPEN display. *)
Theorem state_update_gate
        (evs : list (list RoomServer.WS * Z * RoomServer.Event))
        (env : RoomServer.WS -> bool) (now : Z) (w : RoomServer.WS)
        (newState : option RoomServer.StateBlob)
        (genv : WebsocketServer.WS -> bool) (gw : WebsocketServer.WS)
        (d : WebsocketServer.Payload) (gst : WebsocketServer.Server) :
  let st := fst (RoomServer.run evs RoomServer.initial) in
  let r := RoomServer.handleRoomStateUpdate env w now newState st in
  let fanOut (m : WebsocketServer.Out.Msg) :=
    (WebsocketServer.setDisplays
       (filter genv (WebsocketServer.displayClients gst))
       (WebsocketServer.setRemotes (filter genv (WebsocketServer.remoteClients gst)) gst),
     map (fun x => (x, m)) (filter genv (WebsocketServer.remoteClients gst))
     ++ map (fun x => (x, m)) (filter genv (WebsocketServer.displayClients gst))) in
  (r <> (st, []) ->
   exists user roomCode room,
     RoomServer.currentUser (RoomServer.connOf w st) = Some user
     /\ RoomServer.type user = Some "desktop"
     /\ RoomServer.isHost user
     /\ truthy (RoomServer.currentRoom (RoomServer.connOf w st)) = Some roomCode
     /\ JsMap.get roomCode (RoomServer.rooms st) = Some room
     /\ let merged := RoomServer.spread (RoomServer.state room)
                        (match newState with Some s => s | None => [] end) in
        fst r = RoomServer.setRooms
                  (JsMap.set roomCode
                     (RoomServer.setLastActivity now (RoomServer.setState merged room))
                     (RoomServer.rooms st)) st
        /\ snd r = RoomServer.broadcastUsers env (RoomServer.Out.ROOM_STATE_UPDATE merged)
                                             None (RoomServer.users room))
  /\ (forall user roomCode room,
         RoomServer.currentUser (RoomServer.connOf w st) = Some user ->
         RoomServer.isDesktop user = true ->
         truthy (RoomServer.currentRoom (RoomServer.connOf w st)) = Some roomCode ->
         JsMap.get roomCode (RoomServer.rooms st) = Some room ->
         let merged := RoomServer.spread (RoomServer.state room)
                         (match newState with Some s => s | None => [] end) in
         RoomServer.isHost user
         /\ r = (RoomServer.setRooms
                   (JsMap.set roomCode
                      (RoomServer.setLastActivity now (RoomServer.setState merged room))
                      (RoomServer.rooms st)) st,
                 RoomServer.broadcastUsers env (RoomServer.Out.ROOM_STATE_UPDATE merged)
                                           None (RoomServer.users room))
         /\ (exists room',
                JsMap.get roomCode (RoomServer.rooms (fst r)) = Some room'
                /\ RoomServer.state room' = merged
                /\ RoomServer.lastActivity room' = now
                /\ RoomServer.users room' = RoomServer.users room)
         /\ (forall x m,
                In (x, m) (snd r)
                <-> m = RoomServer.Out.ROOM_STATE_UPDATE merged
                    /\ exists userId u,
                         In (userId, u) (RoomServer.users room)
                         /\ RoomServer.ws u = Some x /\ env x = true))
  /\ (forall roomCode,
         truthy (RoomServer.currentRoom (RoomServer.connOf w st)) = Some roomCode ->
         JsMap.get roomCode (RoomServer.rooms st) = None -> r = (st, []))
  /\ (truthy (RoomServer.currentRoom (RoomServer.connOf w st)) = None -> r = (st, []))
  /\ (forall user,
         RoomServer.currentUser (RoomServer.connOf w st) = Some user ->
         RoomServer.isDesktop user = false -> r = (st, []))
  /\ (RoomServer.currentUser (RoomServer.connOf w st) = None -> r = (st, []))
  /\ WebsocketServer.onMessage genv gw (WebsocketServer.TIMER_UPDATE d) gst
     = fanOut (WebsocketServer.Out.TIMER_UPDATE d)
  /\ WebsocketServer.onMessage genv gw (WebsocketServer.MESSAGE_UPDATE d) gst
     = fanOut (WebsocketServer.Out.MESSAGE_UPDATE d).
Proof.
  intros st r fanOut.
  assert (RoomServer.wellFormed st) as Hwf
      by (apply run_wellFormed, initial_wellFormed).
  split; [|split; [|split; [|split; [|split; [|split; [|split]]]]]].
  - subst r. unfold RoomServer.handleRoomStateUpdate.
    destruct (truthy (RoomServer.currentRoom (RoomServer.connOf w st)))
      as [roomCode|] eqn:Hroom; [|congruence].
    destruct (RoomServer.currentUser (RoomServer.connOf w st))
      as [user|] eqn:Huser; [|congruence].
    destruct (RoomServer.isDesktop user) eqn:Hd; [|congruence].
    destruct (JsMap.get roomCode (RoomServer.rooms st)) as [room|] eqn:Hget;
      [|congruence].
    intros _. exists user, roomCode, room.
    split; [first [reflexivity|assumption]|]. split; [now apply isDesktop_type|].
    split; [eapply desktop_is_host; eauto|].
    split; [first [reflexivity|assumption]|].
    split; [first [reflexivity|assumption]|].
    cbn [fst snd RoomServer.rooms RoomServer.setRooms].
    split; [reflexivity|]. now rewrite broadcastToRoom_after_set.
  - intros user roomCode room Huser Hd Hroom Hget merged.
    assert (r = (RoomServer.setRooms
                   (JsMap.set roomCode
                      (RoomServer.setLastActivity now (RoomServer.setState merged room))
                      (RoomServer.rooms st)) st,
                 RoomServer.broadcastUsers env (RoomServer.Out.ROOM_STATE_UPDATE merged)
                                           None (RoomServer.users room))) as Hr.
    { subst r. unfold RoomServer.handleRoomStateUpdate.
      rewrite Hroom, Huser, Hd, Hget.
      cbn [RoomServer.rooms RoomServer.setRooms].
      now rewrite broadcastToRoom_after_set. }
    split; [eapply desktop_is_host; eauto|]. split; [exact Hr|].
    rewrite Hr. cbn [fst snd RoomServer.rooms RoomServer.setRooms]. split.
    + eexists. split; [apply get_set_eq|]. repeat split.
    + intros x m. rewrite broadcastUsers_In. split.
      * intros (Hm & userId & u & Hin & Hws & He & _). split; auto.
        exists userId, u. auto.
      * intros (Hm & userId & u & Hin & Hws & He). split; auto.
        exists userId, u. repeat split; auto. discriminate.
  - intros roomCode Hroom Hnone. subst r. unfold RoomServer.handleRoomStateUpdate.
    rewrite Hroom, Hnone.
    destruct (RoomServer.currentUser _) as [user|]; auto.
    now destruct (RoomServer.isDesktop user).
  - intros Hroom. subst r. unfold RoomServer.handleRoomStateUpdate. now rewrite Hroom.
  - intros user Huser Hd. subst r. unfold RoomServer.handleRoomStateUpdate.
    rewrite Huser, Hd. now destruct (truthy _).
  - intros Huser. subst r. unfold RoomServer.handleRoomStateUpdate.
    rewrite Huser. now destruct (truthy _).
  - unfold WebsocketServer.onMessage.
    rewrite broadcastToRemotes_eq. cbn [fst snd].
    rewrite broadcastToDisplays_eq. reflexivity.
  - unfold WebsocketServer.onMessage.
    rewrite broadcastToRemotes_eq. cbn [fst snd].
    rewrite broadcastToDisplays_eq. reflexivity.
Qed.

Lemma state_update_gate_witness :
  let evs := Samples.hosted ++ Samples.crowd 2 in
  let st := fst (RoomServer.run evs RoomServer.initial) in
  let env := RoomServer.openIn [1; 2; 3] in
  let update := Some [("timer", RoomServer.JRaw "42")] in
  let merged := [("timer", RoomServer.JRaw "42"); ("message", RoomServer.JNull);
                 ("isConnected", RoomServer.JBool true)] in
  snd (RoomServer.handleRoomStateUpdate env 1 50 update st)
  = [(2, RoomServer.Out.ROOM_STATE_UPDATE merged);
     (3, RoomServer.Out.ROOM_STATE_UPDATE merged)]
  /\ (exists user,
         RoomServer.currentUser (RoomServer.connOf 1 st) = Some user
         /\ RoomServer.type user = Some "desktop"
         /\ RoomServer.isHost user)
  /\ RoomServer.handleRoomStateUpdate env 2 50 update st = (st, []).
Proof.
  intros evs st env update merged.
  assert (snd (RoomServer.handleRoomStateUpdate env 1 50 update st)
          = [(2, RoomServer.Out.ROOM_STATE_UPDATE merged);
             (3, RoomServer.Out.ROOM_STATE_UPDATE merged)]) as Hsent
      by (vm_compute; reflexivity).
  split; [exact Hsent|].
  destruct (state_update_gate evs env 50 1 update (fun _ => true) 0 "" WebsocketServer.initial)
    as (Heffect & _).
  destruct (state_update_gate evs env 50 2 update (fun _ => true) 0 "" WebsocketServer.initial)
    as (_ & _ & _ & _ & Hother & _).
  split.
  - destruct Heffect as (user & roomCode & room & Hu & Ht & Hh & _).
    + intros Heq. apply (f_equal snd) in Heq. fold st in Heq.
      rewrite Hsent in Heq. discriminate.
    + exists user. auto.
  - eapply Hother; vm_compute; reflexivity.
Defined.

(* ================================================================== *)
(** * Further properties of the permission engine *)

Section PermissionTables.
Import WebsocketServer.

Lemma includes_In x l : includes x l = true <-> In x l.
Proof.
  unfold includes. rewrite existsb_exists. split.
  - intros (y & Hy & Heq). apply String.eqb_eq in Heq. now subst.
  - intros Hin. exists x. split; auto. apply String.eqb_refl.
Qed.

Lemma inherited_In k : inherited k = true <-> In k objectPrototypeKeys.
Proof. apply includes_In. Qed.

(** No key of the two tables is a property of [Object.prototype]. *)
Lemma inherited_not_own k :
  inherited k = true ->
  JsMap.get k rolePermissions = None /\ JsMap.get k permissionMap = None.
Proof.
  intros Hk. apply inherited_In in Hk. simpl in Hk.
  repeat (destruct Hk as [<-|Hk]; [split; reflexivity|]). contradiction.
Qed.

Lemma hasRolePermission_throws r action :
  (exists m, hasRolePermission r action = Throw m) <-> inherited r = true.
Proof.
  unfold hasRolePermission, lookupTable. split.
  - intros [m Hm]. destruct (JsMap.get r rolePermissions); [discriminate|].
    destruct (inherited r); [reflexivity|discriminate].
  - intros Hr. destruct (inherited_not_own r Hr) as [-> _]. rewrite Hr. eauto.
Qed.

Lemma legacyPermission_throws perms action :
  (exists m, legacyPermission perms action = Throw m) <-> inherited action = true.
Proof.
  unfold legacyPermission, lookupTable. split.
  - intros [m Hm]. destruct (JsMap.get action permissionMap); [discriminate|].
    destruct (inherited action); [reflexivity|discriminate].
  - intros Ha. destruct (inherited_not_own action Ha) as [_ ->]. rewrite Ha. eauto.
Qed.

(** Every row of the legacy mapping lists FULL_CONTROL. *)
Lemma permissionMap_full_control action required :
  JsMap.get action permissionMap = Some required -> In "FULL_CONTROL" required.
Proof.
  unfold permissionMap. cbn [JsMap.get keq Key_string].
  repeat (destruct (String.eqb action _);
          [intros [= <-]; simpl; tauto|]).
  discriminate.
Qed.
End PermissionTables.

(** X1. [hasPermission] raises exactly in two cases: the client declares a
    role that names a property of [Object.prototype] (such as
    [constructor] or [toString]), or it declares no role, holds at least
    one grant and the action names such a property. In every other case
    it answers [true] or [false]. *)
Theorem hasPermission_throws_iff (client : WebsocketServer.Client) (action : string) :
  (exists m, WebsocketServer.hasPermission client action = Throw m)
  <-> (exists r, truthy (WebsocketServer.role client) = Some r /\ inherited r = true)
      \/ (truthy (WebsocketServer.role client) = None
          /\ WebsocketServer.permissions client <> []
          /\ inherited action = true).
Proof.
  unfold WebsocketServer.hasPermission.
  destruct (truthy (WebsocketServer.role client)) as [r|].
  - rewrite hasRolePermission_throws. split.
    + intros Hr. left. eauto.
    + intros [(r' & [= <-] & Hr)|(Hn & _)]; [exact Hr|discriminate].
  - destruct (WebsocketServer.permissions client) as [|p ps].
    + split; [intros [m Hm]; discriminate|].
      intros [(r & Hr & _)|(_ & Hne & _)]; [discriminate|congruence].
    + rewrite legacyPermission_throws. split.
      * intros Ha. right. repeat split; auto. discriminate.
      * intros [(r & Hr & _)|(_ & _ & Ha)]; [discriminate|exact Ha].
Qed.

(** X2. Every action the role table allows to [queue_manager] it also
    allows to [admin]; a role that is neither a row of the table nor a
    property of [Object.prototype] is allowed nothing. *)
Theorem role_table_order (role action : string) :
  (WebsocketServer.hasRolePermission "queue_manager" action = Normal true ->
   WebsocketServer.hasRolePermission "admin" action = Normal true)
  /\ (JsMap.get role WebsocketServer.rolePermissions = None ->
      inherited role = false ->
      WebsocketServer.hasRolePermission role action = Normal false).
Proof.
  split.
  - unfold WebsocketServer.hasRolePermission.
    change (WebsocketServer.lookupTable WebsocketServer.rolePermissions "queue_manager")
      with (WebsocketServer.Own
              [ "START_RESUME"; "PAUSE"; "ADD_TIME"; "SUBTRACT_TIME";
                "SCHEDULE_VIEW"; "MESSAGE_PRESET"; "MESSAGE_SEND" ]).
    change (WebsocketServer.lookupTable WebsocketServer.rolePermissions "admin")
      with (WebsocketServer.Own
              [ "START_RESUME"; "PAUSE"; "STOP"; "ADD_TIME"; "SUBTRACT_TIME"; "RESET";
                "SCHEDULE_VIEW"; "SCHEDULE_EDIT"; "SCHEDULE_REORDER"; "SCHEDULE_ADD";
                "SCHEDULE_REMOVE";
                "MESSAGE_SEND"; "MESSAGE_PRESET"; "MESSAGE_PRIVATE"; "MESSAGE_FLASH";
                "DISPLAY_FADE"; "DISPLAY_SETTINGS" ]).
    cbv beta iota. intros Hqm. f_equal.
    assert (In action [ "START_RESUME"; "PAUSE"; "ADD_TIME"; "SUBTRACT_TIME";
                        "SCHEDULE_VIEW"; "MESSAGE_PRESET"; "MESSAGE_SEND" ]) as Hin
        by (apply includes_In; congruence).
    apply includes_In. simpl in Hin. simpl. intuition.
  - intros Hnone Hinh. unfold WebsocketServer.hasRolePermission,
                       WebsocketServer.lookupTable.
    now rewrite Hnone, Hinh.
Qed.

Lemma role_table_order_witness :
  WebsocketServer.hasRolePermission "queue_manager" "ADD_TIME" = Normal true
  /\ WebsocketServer.hasRolePermission "admin" "ADD_TIME" = Normal true
  /\ WebsocketServer.hasRolePermission "operator" "ADD_TIME" = Normal false.
Proof.
  split; [reflexivity|]. split.
  - apply (proj1 (role_table_order "operator" "ADD_TIME")). reflexivity.
  - apply (proj2 (role_table_order "operator" "ADD_TIME")); reflexivity.
Defined.

(** X3. The legacy mapping is monotone in the grants: an action allowed
    with some grants stays allowed with more. FULL_CONTROL allows every
    action the mapping has a row for, and an action without a row (and not
    a property of [Object.prototype]) is refused whatever the grants. *)
Theorem legacy_grants_monotone (perms perms' required : list string) (action : string) :
  (forall p, In p perms -> In p perms') ->
  (WebsocketServer.legacyPermission perms action = Normal true ->
   WebsocketServer.legacyPermission perms' action = Normal true)
  /\ (JsMap.get action WebsocketServer.permissionMap = Some required ->
      In "FULL_CONTROL" perms ->
      WebsocketServer.legacyPermission perms action = Normal true)
  /\ (JsMap.get action WebsocketServer.permissionMap = None ->
      inherited action = false ->
      WebsocketServer.legacyPermission perms action = Normal false).
Proof.
  intros Hincl. unfold WebsocketServer.legacyPermission, WebsocketServer.lookupTable.
  split; [|split].
  - destruct (JsMap.get action WebsocketServer.permissionMap) as [req|].
    + intros [= Hex]. f_equal. apply existsb_exists in Hex.
      destruct Hex as (p & Hp & Hin). apply existsb_exists. exists p. split; auto.
      apply includes_In. apply Hincl. now apply includes_In.
    + destruct (inherited action); discriminate.
  - intros Hget Hfull. rewrite Hget. f_equal. apply existsb_exists.
    exists "FULL_CONTROL". split.
    + eapply permissionMap_full_control; eauto.
    + now apply includes_In.
  - intros -> ->. reflexivity.
Qed.

Lemma legacy_grants_monotone_witness :
  WebsocketServer.legacyPermission ["MESSAGE_ONLY"] "SHOW_MESSAGE" = Normal true
  /\ WebsocketServer.legacyPermission ["MESSAGE_ONLY"; "FULL_CONTROL"] "SHOW_MESSAGE"
     = Normal true
  /\ WebsocketServer.legacyPermission ["MESSAGE_ONLY"; "FULL_CONTROL"] "FADE_TO_BLACK"
     = Normal true
  /\ WebsocketServer.legacyPermission ["MESSAGE_ONLY"; "FULL_CONTROL"] "STOP"
     = Normal false.
Proof.
  assert (forall p, In p ["MESSAGE_ONLY"] -> In p ["MESSAGE_ONLY"; "FULL_CONTROL"])
    as Hincl by (simpl; tauto).
  split; [reflexivity|]. split; [|split].
  - apply (proj1 (@legacy_grants_monotone _ _ [] "SHOW_MESSAGE" Hincl)). reflexivity.
  - apply (proj1 (proj2 (@legacy_grants_monotone
                           ["MESSAGE_ONLY"; "FULL_CONTROL"] _ ["FULL_CONTROL"]
                           "FADE_TO_BLACK" (fun p H => H)))).
    + reflexivity.
    + simpl; tauto.
  - apply (proj2 (proj2 (@legacy_grants_monotone
                           ["MESSAGE_ONLY"; "FULL_CONTROL"] _ [] "STOP" (fun p H => H))));
      reflexivity.
Defined.

(* ================================================================== *)
(** * Further properties of the global-mode relay *)

Section GrantLoop.
Import WebsocketServer.
Variables (target : ClientId) (perms : list string).

Lemma grantLoop_keeps_other entries : forall w c,
  JsMap.get w entries = Some c -> id c <> target ->
  JsMap.get w (fst (grantLoop target perms entries)) = Some c.
Proof.
  induction entries as [|[w0 c0] entries IH]; intros w c; simpl; auto.
  destruct (Z.eqb_spec (id c0) target) as [Heq|Hne]; simpl.
  - destruct (type c0); simpl;
      destruct (Nat.eqb_spec w w0) as [->|Hw]; auto;
      intros [= <-] Hid; congruence.
  - destruct (Nat.eqb_spec w w0) as [->|Hw]; auto.
Qed.

Lemma grantLoop_sends entries : forall x m,
  In (x, m) (snd (grantLoop target perms entries)) ->
  m = Out.PERMISSIONS_GRANTED perms
  /\ exists c, In (x, c) entries /\ id c = target /\ type c = remote.
Proof.
  induction entries as [|[w0 c0] entries IH]; intros x m; simpl; [contradiction|].
  destruct (Z.eqb_spec (id c0) target) as [Heq|Hne]; simpl.
  - destruct (type c0) eqn:Ht; simpl;
      try (intros Hin; apply IH in Hin; destruct Hin as (-> & c & Hc & Hrest);
           split; eauto).
    intros [[= <- <-]|[]]. split; eauto.
  - intros Hin. apply IH in Hin. destruct Hin as (-> & c & Hc & Hrest).
    split; eauto.
Qed.

Lemma grantLoop_at_most_one entries :
  List.length (snd (grantLoop target perms entries)) <= 1.
Proof.
  induction entries as [|[w0 c0] entries IH]; simpl; auto.
  destruct (Z.eqb (id c0) target && _); simpl; auto.
Qed.

(** When the named id belongs to one socket only, that socket's record is
    the one rewritten. *)
Lemma grantLoop_hits entries : forall w rc,
  JsMap.get w entries = Some rc -> id rc = target -> type rc = remote ->
  (forall w0 c0, In (w0, c0) entries -> id c0 = target -> w0 = w) ->
  JsMap.get w (fst (grantLoop target perms entries)) = Some (setPermissions perms rc)
  /\ snd (grantLoop target perms entries) = [(w, Out.PERMISSIONS_GRANTED perms)].
Proof.
  induction entries as [|[w0 c0] entries IH]; intros w rc; simpl; [discriminate|].
  intros Hget Hid Ht Huniq.
  destruct (Nat.eqb_spec w w0) as [<-|Hw].
  - injection Hget as ->. rewrite Hid, Z.eqb_refl, Ht. simpl.
    now rewrite Nat.eqb_refl.
  - destruct (Z.eqb_spec (id c0) target) as [Heq|Hne]; simpl.
    + exfalso. apply Hw. symmetry. apply (Huniq w0 c0); auto.
    + destruct (Nat.eqb_spec w w0); [congruence|].
      apply IH; auto. intros w1 c1 Hin. apply Huniq. now right.
Qed.
End GrantLoop.

(** X4. A GRANT_PERMISSIONS frame touches nothing but the grants of the
    named id: every record with another id is kept as it is, the
    controller slot and the remote and display sets are unchanged, at most
    one message is sent, a PERMISSIONS_GRANTED to a socket whose record
    has the named id and type [remote]. Sent by a socket whose record is
    missing or not of type [controller], the frame changes nothing and
    sends nothing. *)
Theorem grant_touches_only_target
        (env : WebsocketServer.WS -> bool) (w : WebsocketServer.WS)
        (target : WebsocketServer.ClientId) (perms : list string)
        (st : WebsocketServer.Server) :
  let r := WebsocketServer.onMessage env w
             (WebsocketServer.GRANT_PERMISSIONS target perms) st in
  (forall w' c',
      JsMap.get w' (WebsocketServer.clients st) = Some c' ->
      WebsocketServer.id c' <> target ->
      JsMap.get w' (WebsocketServer.clients (fst r)) = Some c')
  /\ WebsocketServer.controllerClient (fst r) = WebsocketServer.controllerClient st
  /\ WebsocketServer.remoteClients (fst r) = WebsocketServer.remoteClients st
  /\ WebsocketServer.displayClients (fst r) = WebsocketServer.displayClients st
  /\ List.length (snd r) <= 1
  /\ (forall x m,
         In (x, m) (snd r) ->
         m = WebsocketServer.Out.PERMISSIONS_GRANTED perms
         /\ exists c, In (x, c) (WebsocketServer.clients st)
                      /\ WebsocketServer.id c = target
                      /\ WebsocketServer.type c = WebsocketServer.remote)
  /\ (match JsMap.get w (WebsocketServer.clients st) with
      | Some sender => WebsocketServer.type sender <> WebsocketServer.controller
      | None => True
      end -> r = (st, [])).
Proof.
  intro r. subst r. unfold WebsocketServer.onMessage.
  assert (forall s0 : WebsocketServer.Server,
             (forall w' c', JsMap.get w' (WebsocketServer.clients s0) = Some c' ->
                            WebsocketServer.id c' <> target ->
                            JsMap.get w' (WebsocketServer.clients s0) = Some c')
             /\ WebsocketServer.controllerClient s0 = WebsocketServer.controllerClient s0
             /\ WebsocketServer.remoteClients s0 = WebsocketServer.remoteClients s0
             /\ WebsocketServer.displayClients s0 = WebsocketServer.displayClients s0
             /\ @List.length WebsocketServer.Send [] <= 1
             /\ (forall x m, In (x, m) (@nil WebsocketServer.Send) ->
                             m = WebsocketServer.Out.PERMISSIONS_GRANTED perms
                             /\ exists c, In (x, c) (WebsocketServer.clients s0)
                                          /\ WebsocketServer.id c = target
                                          /\ WebsocketServer.type c = WebsocketServer.remote))
    as Hidle.
  { intros s0. split; [auto|]. split; [reflexivity|]. split; [reflexivity|].
    split; [reflexivity|]. split; [simpl; lia|]. intros x m []. }
  destruct (JsMap.get w (WebsocketServer.clients st)) as [sender|].
  - destruct (WebsocketServer.type sender) eqn:Ht; cbn [fst snd];
      try (destruct (Hidle st) as (H1 & H2 & H3 & H4 & H5 & H6);
           repeat (split; [assumption|]); reflexivity).
    cbn [WebsocketServer.clients WebsocketServer.setClients
         WebsocketServer.controllerClient WebsocketServer.remoteClients
         WebsocketServer.displayClients].
    split; [intros w' c' Hget Hid; now apply grantLoop_keeps_other|].
    split; [reflexivity|]. split; [reflexivity|]. split; [reflexivity|].
    split; [apply grantLoop_at_most_one|].
    split; [apply grantLoop_sends|].
    intros Hne. congruence.
  - cbn [fst snd]. destruct (Hidle st) as (H1 & H2 & H3 & H4 & H5 & H6).
    repeat (split; [assumption|]). reflexivity.
Qed.

Lemma grant_touches_only_target_witness :
  let st := fst (WebsocketServer.run
                   [([1], WebsocketServer.Connection 1 101%Z);
                    ([1], WebsocketServer.Message 1 WebsocketServer.REGISTER_CONTROLLER);
                    ([1; 2], WebsocketServer.Connection 2 202%Z);
                    ([1; 2], WebsocketServer.Message 2
                               (WebsocketServer.REGISTER_REMOTE None None None None));
                    ([1; 2; 3], WebsocketServer.Connection 3 303%Z);
                    ([1; 2; 3], WebsocketServer.Message 3
                                  (WebsocketServer.REGISTER_REMOTE None None None None))]
                   WebsocketServer.initial) in
  let env := WebsocketServer.openIn [1; 2; 3] in
  (exists c3, JsMap.get 3 (WebsocketServer.clients st) = Some c3
              /\ JsMap.get 3 (WebsocketServer.clients
                                (fst (WebsocketServer.onMessage env 1
                                        (WebsocketServer.GRANT_PERMISSIONS 202%Z ["FULL_CONTROL"])
                                        st))) = Some c3)
  /\ WebsocketServer.onMessage env 2
       (WebsocketServer.GRANT_PERMISSIONS 303%Z ["FULL_CONTROL"]) st = (st, []).
Proof.
  intros st env.
  pose proof (@grant_touches_only_target env 1 202%Z ["FULL_CONTROL"] st)
    as (Hkeep & _).
  pose proof (@grant_touches_only_target env 2 303%Z ["FULL_CONTROL"] st)
    as (_ & _ & _ & _ & _ & _ & Hnot).
  split.
  - eexists. split; [reflexivity|]. apply Hkeep; [reflexivity|]. vm_compute. discriminate.
  - apply Hnot. vm_compute. discriminate.
Defined.

(** X5. A grant takes effect on the next command. When a socket of type
    [controller] grants [perms] to the id of a role-less remote and no
    other socket has that id, the remote's record holds [perms], it is
    sent PERMISSIONS_GRANTED, and its next REMOTE_CONTROL is decided by
    the legacy mapping on [perms]: an allowed action is forwarded to the
    controller slot when that socket is OPEN and dropped without any
    notice when it is not; a refused action is answered by
    PERMISSION_DENIED. *)
Theorem grant_then_command
        (env env' : WebsocketServer.WS -> bool) (c w : WebsocketServer.WS)
        (cc rc : WebsocketServer.Client) (perms : list string)
        (action : string) (d : WebsocketServer.Payload)
        (st : WebsocketServer.Server) :
  JsMap.get c (WebsocketServer.clients st) = Some cc ->
  WebsocketServer.type cc = WebsocketServer.controller ->
  JsMap.get w (WebsocketServer.clients st) = Some rc ->
  WebsocketServer.type rc = WebsocketServer.remote ->
  truthy (WebsocketServer.role rc) = None ->
  (forall w0 c0, In (w0, c0) (WebsocketServer.clients st) ->
                 WebsocketServer.id c0 = WebsocketServer.id rc -> w0 = w) ->
  perms <> [] ->
  let g := WebsocketServer.onMessage env c
             (WebsocketServer.GRANT_PERMISSIONS (WebsocketServer.id rc) perms) st in
  let r := WebsocketServer.onMessage env' w
             (WebsocketServer.REMOTE_CONTROL action d) (fst g) in
  JsMap.get w (WebsocketServer.clients (fst g))
  = Some (WebsocketServer.setPermissions perms rc)
  /\ snd g = [(w, WebsocketServer.Out.PERMISSIONS_GRANTED perms)]
  /\ fst r = fst g
  /\ (WebsocketServer.legacyPermission perms action = Normal true ->
      snd r = WebsocketServer.toController env' st
                (WebsocketServer.Out.REMOTE_CONTROL action d))
  /\ (WebsocketServer.legacyPermission perms action = Normal false ->
      snd r = [(w, WebsocketServer.Out.PERMISSION_DENIED action)]).
Proof.
  intros Hc Hct Hw Hrt Hrole Huniq Hne g r.
  destruct (@grantLoop_hits (WebsocketServer.id rc) perms (WebsocketServer.clients st)
                            w rc Hw eq_refl Hrt Huniq)
    as [Hget Hsend].
  assert (fst g = WebsocketServer.setClients
                    (fst (WebsocketServer.grantLoop (WebsocketServer.id rc) perms
                                                    (WebsocketServer.clients st))) st
          /\ snd g = [(w, WebsocketServer.Out.PERMISSIONS_GRANTED perms)]) as [Hg1 Hg2].
  { subst g. unfold WebsocketServer.onMessage. rewrite Hc, Hct. split; auto. }
  assert (WebsocketServer.hasPermission (WebsocketServer.setPermissions perms rc) action
          = WebsocketServer.legacyPermission perms action) as Hp.
  { unfold WebsocketServer.hasPermission. cbn [WebsocketServer.role
      WebsocketServer.permissions WebsocketServer.setPermissions].
    rewrite Hrole. destruct perms; [congruence|reflexivity]. }
  assert (JsMap.get w (WebsocketServer.clients (fst g))
          = Some (WebsocketServer.setPermissions perms rc)) as Hget'.
  { rewrite Hg1. exact Hget. }
  split; [exact Hget'|]. split; [exact Hg2|].
  subst r. unfold WebsocketServer.onMessage. rewrite Hget', Hp.
  split; [|split].
  - destruct (WebsocketServer.legacyPermission perms action) as [[|]|]; reflexivity.
  - intros ->. cbn [snd]. rewrite Hg1. reflexivity.
  - intros ->. reflexivity.
Qed.

Lemma grant_then_command_witness :
  let st := fst (WebsocketServer.run
                   [([1], WebsocketServer.Connection 1 101%Z);
                    ([1], WebsocketServer.Message 1 WebsocketServer.REGISTER_CONTROLLER);
                    ([1; 2], WebsocketServer.Connection 2 202%Z);
                    ([1; 2], WebsocketServer.Message 2
                               (WebsocketServer.REGISTER_REMOTE None None None None))]
                   WebsocketServer.initial) in
  let g := WebsocketServer.onMessage (WebsocketServer.openIn [1; 2]) 1
             (WebsocketServer.GRANT_PERMISSIONS 202%Z ["TIME_CONTROL"]) st in
  snd (WebsocketServer.onMessage (WebsocketServer.openIn [1; 2]) 2
         (WebsocketServer.REMOTE_CONTROL "PAUSE" "{}") (fst g))
  = [(1, WebsocketServer.Out.REMOTE_CONTROL "PAUSE" "{}")]
  /\ snd (WebsocketServer.onMessage (WebsocketServer.openIn [2]) 2
            (WebsocketServer.REMOTE_CONTROL "PAUSE" "{}") (fst g)) = []
  /\ snd (WebsocketServer.onMessage (WebsocketServer.openIn [1; 2]) 2
            (WebsocketServer.REMOTE_CONTROL "FADE_TO_BLACK" "{}") (fst g))
     = [(2, WebsocketServer.Out.PERMISSION_DENIED "FADE_TO_BLACK")].
Proof.
  intros st g.
  assert (forall w0 c0, In (w0, c0) (WebsocketServer.clients st) ->
                        WebsocketServer.id c0 = 202%Z -> w0 = 2) as Huniq.
  { intros w0 c0 Hin Hid. vm_compute in Hin.
    destruct Hin as [Hin|[Hin|[]]]; injection Hin as <- <-; [discriminate|reflexivity]. }
  split; [|split].
  - refine (proj1 (proj2 (proj2 (proj2
      (@grant_then_command (WebsocketServer.openIn [1; 2]) (WebsocketServer.openIn [1; 2])
         1 2 _ _ ["TIME_CONTROL"] "PAUSE" "{}" st
         eq_refl eq_refl eq_refl eq_refl eq_refl Huniq _)))) eq_refl). discriminate.
  - refine (proj1 (proj2 (proj2 (proj2
      (@grant_then_command (WebsocketServer.openIn [1; 2]) (WebsocketServer.openIn [2])
         1 2 _ _ ["TIME_CONTROL"] "PAUSE" "{}" st
         eq_refl eq_refl eq_refl eq_refl eq_refl Huniq _)))) eq_refl). discriminate.
  - refine (proj2 (proj2 (proj2 (proj2
      (@grant_then_command (WebsocketServer.openIn [1; 2]) (WebsocketServer.openIn [1; 2])
         1 2 _ _ ["TIME_CONTROL"] "FADE_TO_BLACK" "{}" st
         eq_refl eq_refl eq_refl eq_refl eq_refl Huniq _)))) eq_refl). discriminate.
Defined.

Section SetFacts.
Context {K : Type} `{Key K}.

Lemma JsSet_has_In (k : K) (s : JsSet.t K) : JsSet.has k s = true <-> In k s.
Proof.
  unfold JsSet.has. rewrite existsb_exists. split.
  - intros (x & Hx & Heq). destruct (keq_spec k x); [now subst|discriminate].
  - intros Hin. exists k. split; auto. apply keq_refl.
Qed.

Lemma JsSet_add_In (k x : K) (s : JsSet.t K) :
  In x (JsSet.add k s) <-> x = k \/ In x s.
Proof.
  unfold JsSet.add. destruct (JsSet.has k s) eqn:Hk.
  - apply JsSet_has_In in Hk. split; auto. intros [->|Hx]; auto.
  - rewrite in_app_iff. simpl. intuition.
Qed.

Lemma JsSet_add_NoDup (k : K) (s : JsSet.t K) : NoDup s -> NoDup (JsSet.add k s).
Proof.
  intros Hnd. unfold JsSet.add. destruct (JsSet.has k s) eqn:Hk; auto.
  assert (~ In k s) as Hnot.
  { intros Hin. apply JsSet_has_In in Hin. congruence. }
  clear Hk. induction s as [|a s IH]; simpl.
  - repeat constructor. auto.
  - inversion Hnd; subst. constructor.
    + rewrite in_app_iff. simpl. intros [Hin|[->|[]]]; auto. apply Hnot. now left.
    + apply IH; auto. intros Hin. apply Hnot. now right.
Qed.

Lemma JsSet_delete_In (k x : K) (s : JsSet.t K) :
  In x (JsSet.delete k s) <-> In x s /\ x <> k.
Proof.
  unfold JsSet.delete. rewrite filter_In. split; intros [Hin Hne]; split; auto.
  - intros ->. now rewrite keq_refl in Hne.
  - destruct (keq_spec k x); [congruence|reflexivity].
Qed.

Lemma JsSet_size_add (k : K) (s : JsSet.t K) :
  JsSet.size (JsSet.add k s) = if JsSet.has k s then JsSet.size s else S (JsSet.size s).
Proof.
  unfold JsSet.add, JsSet.size. destruct (JsSet.has k s); auto.
  rewrite length_app. simpl. lia.
Qed.

Lemma NoDup_filter {A : Type} (f : A -> bool) (l : list A) : NoDup l -> NoDup (filter f l).
Proof.
  induction 1 as [|a l Hnot Hnd IH]; simpl; [constructor|].
  destruct (f a); auto. constructor; auto.
  intros Hin. apply filter_In in Hin. tauto.
Qed.
End SetFacts.

Section Registration.
Import WebsocketServer.

Lemma toController_recipient env st m x y :
  In (x, y) (toController env st m) -> controllerClient st = Some x /\ env x = true /\ y = m.
Proof.
  unfold toController. destruct (controllerClient st) as [c|]; [|contradiction].
  destruct (env c) eqn:Hc; [|contradiction].
  intros [[= <- <-]|[]]. auto.
Qed.

Lemma toController_open env st m c :
  controllerClient st = Some c -> env c = true -> toController env st m = [(c, m)].
Proof. unfold toController. now intros -> ->. Qed.

Lemma toController_closed env st m :
  match controllerClient st with Some c => env c = false | None => True end ->
  toController env st m = [].
Proof. unfold toController. destruct (controllerClient st); auto. now intros ->. Qed.
End Registration.

(** X6. A display that registers while the controller slot holds an OPEN
    socket makes the server ask that controller for the current state
    (REQUEST_CURRENT_STATE with the display's id) and then announce the
    display; when the slot is empty or its socket is not OPEN nothing at
    all is sent. In both cases the display joins the display set, the
    remote set and the controller slot stay as they were, and nothing is
    sent to the display itself unless it holds the slot. A later
    REGISTER_CONTROLLER from a connected socket writes CONTROLLER_STATUS
    to exactly the OPEN sockets of the remote set: the display receives
    it only if its socket is in the remote set as well, which registering
    as a display does not undo. *)
Theorem display_state_sync
        (env : WebsocketServer.WS -> bool) (w : WebsocketServer.WS)
        (client : WebsocketServer.Client) (durl : option string)
        (st : WebsocketServer.Server) :
  JsMap.get w (WebsocketServer.clients st) = Some client ->
  let r := WebsocketServer.onMessage env w (WebsocketServer.REGISTER_DISPLAY durl) st in
  In w (WebsocketServer.displayClients (fst r))
  /\ WebsocketServer.controllerClient (fst r) = WebsocketServer.controllerClient st
  /\ WebsocketServer.remoteClients (fst r) = WebsocketServer.remoteClients st
  /\ (forall c, WebsocketServer.controllerClient st = Some c -> env c = true ->
                snd r = [(c, WebsocketServer.Out.REQUEST_CURRENT_STATE
                               (WebsocketServer.id client));
                         (c, WebsocketServer.Out.DISPLAY_CONNECTED
                               (WebsocketServer.id client)
                               (WebsocketServer.DisplayClientName (WebsocketServer.id client))
                               (Some (match truthy durl with
                                      | Some u => u
                                      | None => "Unknown"
                                      end)))])
  /\ (match WebsocketServer.controllerClient st with
      | Some c => env c = false
      | None => True
      end -> snd r = [])
  /\ (forall env' c x m,
         In (x, m) (snd (WebsocketServer.onMessage env' c
                           WebsocketServer.REGISTER_CONTROLLER (fst r))) ->
         In x (WebsocketServer.remoteClients st)
         /\ m = WebsocketServer.Out.CONTROLLER_STATUS true)
  /\ (forall env' c cc x m,
         JsMap.get c (WebsocketServer.clients (fst r)) = Some cc ->
         (In (x, m) (snd (WebsocketServer.onMessage env' c
                            WebsocketServer.REGISTER_CONTROLLER (fst r)))
          <-> In x (WebsocketServer.remoteClients st) /\ env' x = true
              /\ m = WebsocketServer.Out.CONTROLLER_STATUS true)).
Proof.
  intros Hget r. subst r. unfold WebsocketServer.onMessage at 1 2 3 4 5.
  rewrite Hget.
  cbn [fst snd WebsocketServer.displayClients WebsocketServer.setDisplays
       WebsocketServer.controllerClient WebsocketServer.setClients
       WebsocketServer.remoteClients
       WebsocketServer.id WebsocketServer.name WebsocketServer.url].
  split; [apply JsSet_add_In; now left|]. split; [reflexivity|].
  split; [reflexivity|].
  split; [|split; [|split]].
  - intros c Hc He.
    rewrite !(@toController_open env _ _ c) by assumption. reflexivity.
  - intros Hclosed. rewrite !toController_closed by assumption. reflexivity.
  - intros env' c x m. unfold WebsocketServer.onMessage. rewrite Hget.
    cbn [fst].
    destruct (JsMap.get c _) as [cc|]; [|intros []].
    rewrite broadcastToRemotes_eq. cbn [snd WebsocketServer.remoteClients
      WebsocketServer.setController WebsocketServer.setClients
      WebsocketServer.setDisplays].
    rewrite in_map_iff. intros (y & [= <- <-] & Hy).
    apply filter_In in Hy. split; [exact (proj1 Hy)|reflexivity].
  - intros env' c cc x m. unfold WebsocketServer.onMessage. rewrite Hget.
    cbn [fst]. intros ->.
    rewrite broadcastToRemotes_eq. cbn [snd WebsocketServer.remoteClients
      WebsocketServer.setController WebsocketServer.setClients
      WebsocketServer.setDisplays].
    rewrite in_map_iff. split.
    + intros (y & [= <- <-] & Hy). apply filter_In in Hy.
      split; [exact (proj1 Hy)|]. split; [exact (proj2 Hy)|reflexivity].
    + intros (Hin & He & ->). exists x. split; [reflexivity|].
      apply filter_In. auto.
Qed.

Lemma display_state_sync_witness :
  let st := fst (WebsocketServer.run
                   [([1], WebsocketServer.Connection 1 101%Z);
                    ([1], WebsocketServer.Message 1 WebsocketServer.REGISTER_CONTROLLER);
                    ([1; 2], WebsocketServer.Connection 2 202%Z);
                    ([1; 2], WebsocketServer.Message 2
                               (WebsocketServer.REGISTER_REMOTE None None None None))]
                   WebsocketServer.initial) in
  let url := Some "http://stage/display" in
  let r := WebsocketServer.onMessage (WebsocketServer.openIn [1; 2]) 2
             (WebsocketServer.REGISTER_DISPLAY url) st in
  snd r
  = [(1, WebsocketServer.Out.REQUEST_CURRENT_STATE 202%Z);
     (1, WebsocketServer.Out.DISPLAY_CONNECTED 202%Z
           (WebsocketServer.DisplayClientName 202%Z) (Some "http://stage/display"))]
  /\ snd (WebsocketServer.onMessage (WebsocketServer.openIn [2]) 2
            (WebsocketServer.REGISTER_DISPLAY url) st) = []
  /\ In 2 (WebsocketServer.displayClients (fst r))
  /\ In (2, WebsocketServer.Out.CONTROLLER_STATUS true)
        (snd (WebsocketServer.onMessage (WebsocketServer.openIn [1; 2]) 1
                WebsocketServer.REGISTER_CONTROLLER (fst r))).
Proof.
  intros st url r.
  assert (exists client cc,
             JsMap.get 2 (WebsocketServer.clients st) = Some client
             /\ WebsocketServer.id client = 202%Z
             /\ JsMap.get 1 (WebsocketServer.clients (fst r)) = Some cc
             /\ WebsocketServer.controllerClient st = Some 1
             /\ In 2 (WebsocketServer.remoteClients st))
    as (client & cc & Hget & Hid & Hcc & Hslot & Hremote).
  { vm_compute. do 2 eexists. repeat split. now left. }
  destruct (@display_state_sync (WebsocketServer.openIn [1; 2]) 2 client url st Hget)
    as (Hin & _ & _ & Hopen & _ & _ & Hexact).
  destruct (@display_state_sync (WebsocketServer.openIn [2]) 2 client url st Hget)
    as (_ & _ & _ & _ & Hclosed & _).
  split.
  - fold r in Hopen. rewrite (Hopen 1 Hslot eq_refl), Hid. reflexivity.
  - split; [apply Hclosed; now rewrite Hslot|]. split; [exact Hin|].
    apply (proj2 (Hexact (WebsocketServer.openIn [1; 2]) 1 cc 2
                         (WebsocketServer.Out.CONTROLLER_STATUS true) Hcc)).
    split; [exact Hremote|]. split; reflexivity.
Defined.

(** X7. [POST /api/command] makes no permission check: whenever the
    controller slot holds an OPEN socket, any action is forwarded to it as
    a REMOTE_CONTROL message, the very action that the WebSocket path
    refuses to a client without permission; without an OPEN controller the
    route answers 503 and sends nothing. *)
Theorem apiCommand_unchecked
        (env : WebsocketServer.WS -> bool) (c w : WebsocketServer.WS)
        (client : WebsocketServer.Client) (action : string)
        (d : WebsocketServer.Payload) (st : WebsocketServer.Server) :
  JsMap.get w (WebsocketServer.clients st) = Some client ->
  WebsocketServer.hasPermission client action = Normal false ->
  WebsocketServer.onMessage env w (WebsocketServer.REMOTE_CONTROL action d) st
  = (st, [(w, WebsocketServer.Out.PERMISSION_DENIED action)])
  /\ (WebsocketServer.controllerClient st = Some c -> env c = true ->
      WebsocketServer.apiCommand env action d st
      = (WebsocketServer.CommandAccepted,
         [(c, WebsocketServer.Out.REMOTE_CONTROL action d)]))
  /\ (match WebsocketServer.controllerClient st with
      | Some c0 => env c0 = false
      | None => True
      end ->
      WebsocketServer.apiCommand env action d st
      = (WebsocketServer.ControllerNotConnected, [])).
Proof.
  intros Hget Hdenied. split; [|split].
  - unfold WebsocketServer.onMessage. now rewrite Hget, Hdenied.
  - intros Hc He. unfold WebsocketServer.apiCommand. now rewrite Hc, He.
  - unfold WebsocketServer.apiCommand.
    destruct (WebsocketServer.controllerClient st); auto. now intros ->.
Qed.

Lemma apiCommand_unchecked_witness :
  let st := fst (WebsocketServer.run
                   [([1], WebsocketServer.Connection 1 101%Z);
                    ([1], WebsocketServer.Message 1 WebsocketServer.REGISTER_CONTROLLER);
                    ([1; 2], WebsocketServer.Connection 2 202%Z);
                    ([1; 2], WebsocketServer.Message 2
                               (WebsocketServer.REGISTER_REMOTE
                                  None (Some "viewer") None None))]
                   WebsocketServer.initial) in
  snd (WebsocketServer.onMessage (WebsocketServer.openIn [1; 2]) 2
         (WebsocketServer.REMOTE_CONTROL "STOP" "{}") st)
  = [(2, WebsocketServer.Out.PERMISSION_DENIED "STOP")]
  /\ WebsocketServer.apiCommand (WebsocketServer.openIn [1; 2]) "STOP" "{}" st
     = (WebsocketServer.CommandAccepted, [(1, WebsocketServer.Out.REMOTE_CONTROL "STOP" "{}")]).
Proof.
  intros st.
  destruct (@apiCommand_unchecked (WebsocketServer.openIn [1; 2]) 1 2 _ "STOP" "{}" st
              eq_refl eq_refl) as (Hws & Hhttp & _).
  split.
  - now rewrite Hws.
  - apply Hhttp; reflexivity.
Defined.

Section MapKeys.
Context {K V : Type} `{Key K}.
Implicit Types (m : JsMap.t K V) (k : K) (v : V).

Lemma keys_set m k v :
  JsMap.keys (JsMap.set k v m)
  = if JsMap.has k m then JsMap.keys m else JsMap.keys m ++ [k].
Proof.
  unfold JsMap.has, JsMap.keys. induction m as [|[k' v'] m IH]; simpl; auto.
  destruct (keq_spec k k') as [->|Hne]; simpl; auto.
  rewrite IH. destruct (JsMap.get k m); reflexivity.
Qed.

Lemma has_In_keys m k : JsMap.has k m = true <-> In k (JsMap.keys m).
Proof.
  unfold JsMap.has, JsMap.keys. induction m as [|[k' v'] m IH]; simpl.
  - split; [discriminate|contradiction].
  - destruct (keq_spec k k') as [->|Hne].
    + split; auto.
    + rewrite IH. split; auto. intros [Heq|Hin]; [congruence|auto].
Qed.

Lemma keys_delete m k :
  JsMap.keys (JsMap.delete k m) = filter (fun x => negb (keq k x)) (JsMap.keys m).
Proof.
  unfold JsMap.keys, JsMap.delete. induction m as [|[k' v'] m IH]; simpl; auto.
  destruct (keq k k'); simpl; now rewrite IH.
Qed.

Lemma keys_set_NoDup m k v : NoDup (JsMap.keys m) -> NoDup (JsMap.keys (JsMap.set k v m)).
Proof.
  intros Hnd. rewrite keys_set. destruct (JsMap.has k m) eqn:Hk; auto.
  assert (~ In k (JsMap.keys m)) as Hnot.
  { intros Hin. apply has_In_keys in Hin. congruence. }
  clear Hk. induction (JsMap.keys m) as [|a l IH]; simpl.
  - repeat constructor. auto.
  - inversion Hnd; subst. constructor.
    + rewrite in_app_iff. simpl. intros [Hin|[->|[]]]; auto. apply Hnot. now left.
    + apply IH; auto. intros Hin. apply Hnot. now right.
Qed.

Lemma keys_delete_NoDup m k : NoDup (JsMap.keys m) -> NoDup (JsMap.keys (JsMap.delete k m)).
Proof. intros Hnd. rewrite keys_delete. now apply NoDup_filter. Qed.
End MapKeys.

Section GlobalInvariants.
Import WebsocketServer.

Lemma grantLoop_keys target perms entries :
  JsMap.keys (fst (grantLoop target perms entries)) = JsMap.keys entries.
Proof.
  unfold JsMap.keys. induction entries as [|[w0 c0] entries IH]; simpl; auto.
  destruct (Z.eqb (id c0) target && _); simpl; auto. now rewrite IH.
Qed.

(** The record rewritten by the grant loop has type [remote]. *)
Lemma grantLoop_get_type target perms entries : forall w c,
  JsMap.get w (fst (grantLoop target perms entries)) = Some c ->
  exists c0, JsMap.get w entries = Some c0
             /\ (c = c0 \/ (type c0 = remote /\ c = setPermissions perms c0)).
Proof.
  induction entries as [|[w0 c0] entries IH]; intros w c; simpl; [discriminate|].
  destruct (Z.eqb (id c0) target); simpl.
  - destruct (type c0) eqn:Ht; simpl;
      destruct (Nat.eqb_spec w w0) as [->|Hw];
      try (intros [= <-]; eauto);
      try (intros Hg; apply IH in Hg; exact Hg);
      try (intros Hg; eauto).
  - destruct (Nat.eqb_spec w w0) as [->|Hw].
    + intros [= <-]; eauto.
    + intros Hg. now apply IH in Hg.
Qed.

End GlobalInvariants.

Section GlobalRuns.
Import WebsocketServer.

Lemma onMessage_setsDistinct env w data st :
  setsDistinct st -> setsDistinct (fst (onMessage env w data st)).
Proof.
  intros (Hk & Hr & Hd). destruct data; unfold onMessage.
  - destruct (JsMap.get w (clients st)) as [client|]; [|repeat split; auto].
    rewrite broadcastToRemotes_eq. repeat split; simpl; auto.
    + now apply keys_set_NoDup.
    + now apply NoDup_filter.
  - destruct (JsMap.get w (clients st)) as [client|]; [|repeat split; auto].
    repeat split; simpl; auto.
    + now apply keys_set_NoDup.
    + now apply JsSet_add_NoDup.
  - destruct (JsMap.get w (clients st)) as [client|]; [|repeat split; auto].
    repeat split; simpl; auto.
    + now apply keys_set_NoDup.
    + now apply JsSet_add_NoDup.
  - rewrite broadcastToRemotes_eq. cbn [fst snd]. rewrite broadcastToDisplays_eq.
    repeat split; simpl; auto; now apply NoDup_filter.
  - rewrite broadcastToRemotes_eq. cbn [fst snd]. rewrite broadcastToDisplays_eq.
    repeat split; simpl; auto; now apply NoDup_filter.
  - destruct (JsMap.get w (clients st)) as [client|]; [|repeat split; auto].
    destruct (hasPermission client action) as [[|]|]; repeat split; auto.
  - destruct (JsMap.get w (clients st)) as [client|]; [|repeat split; auto].
    destruct (type client); repeat split; simpl; auto.
    now rewrite grantLoop_keys.
  - repeat split; auto.
Qed.

Lemma onClose_setsDistinct env w st :
  setsDistinct st -> setsDistinct (fst (onClose env w st)).
Proof.
  intros (Hk & Hr & Hd). unfold onClose.
  destruct (JsMap.get w (clients st)) as [client|].
  - destruct (type client).
    + repeat split; simpl; auto. now apply keys_delete_NoDup.
    + rewrite broadcastToRemotes_eq. repeat split; simpl; auto.
      * now apply keys_delete_NoDup.
      * now apply NoDup_filter.
    + repeat split; simpl; auto.
      * now apply keys_delete_NoDup.
      * now apply NoDup_filter.
    + repeat split; simpl; auto.
      * now apply keys_delete_NoDup.
      * now apply NoDup_filter.
  - repeat split; simpl; auto. now apply keys_delete_NoDup.
Qed.

Lemma unregisteredBare_set st st' w c' :
  clients st' = JsMap.set w c' (clients st) ->
  unregisteredBare st ->
  (type c' = unknown -> permissions c' = [] /\ role c' = None) ->
  unregisteredBare st'.
Proof.
  unfold unregisteredBare. intros -> Hst Hc' w0 c0.
  destruct (Nat.eqb_spec w w0) as [->|Hne].
  - rewrite get_set_eq. intros [= <-]. exact Hc'.
  - rewrite get_set_ne by exact Hne. apply Hst.
Qed.

Lemma onMessage_unregisteredBare env w data st :
  unregisteredBare st -> unregisteredBare (fst (onMessage env w data st)).
Proof.
  intros Hst. destruct data; unfold onMessage.
  - destruct (JsMap.get w (clients st)) as [client|]; auto.
    rewrite broadcastToRemotes_eq.
    eapply unregisteredBare_set with (w := w); [reflexivity|exact Hst|].
    simpl. discriminate.
  - destruct (JsMap.get w (clients st)) as [client|]; auto.
    eapply unregisteredBare_set with (w := w); [reflexivity|exact Hst|].
    simpl. discriminate.
  - destruct (JsMap.get w (clients st)) as [client|]; auto.
    eapply unregisteredBare_set with (w := w); [reflexivity|exact Hst|].
    simpl. discriminate.
  - rewrite broadcastToRemotes_eq. cbn [fst snd]. rewrite broadcastToDisplays_eq.
    exact Hst.
  - rewrite broadcastToRemotes_eq. cbn [fst snd]. rewrite broadcastToDisplays_eq.
    exact Hst.
  - destruct (JsMap.get w (clients st)) as [client|]; auto.
    destruct (hasPermission client action) as [[|]|]; auto.
  - destruct (JsMap.get w (clients st)) as [client|]; auto.
    destruct (type client); auto.
    intros w0 c0 Hget Ht. cbn [fst clients setClients] in Hget.
    apply grantLoop_get_type in Hget.
    destruct Hget as (c1 & Hc1 & [-> | [Hrem ->]]).
    + eapply Hst; eauto.
    + simpl in Ht. congruence.
  - exact Hst.
Qed.

Lemma onClose_unregisteredBare env w st :
  unregisteredBare st -> unregisteredBare (fst (onClose env w st)).
Proof.
  intros Hst. unfold onClose.
  set (r := match JsMap.get w (clients st) with
            | Some client => _
            | None => _
            end).
  assert (clients (fst r) = clients st) as Hr.
  { subst r. destruct (JsMap.get w (clients st)) as [client|]; auto.
    destruct (type client); simpl; auto. }
  intros w0 c Hget Ht. simpl in Hget. rewrite Hr in Hget.
  apply get_delete_Some in Hget. eapply Hst; eauto.
Qed.

Lemma run_invariants evs : forall st,
  setsDistinct st /\ unregisteredBare st ->
  setsDistinct (fst (run evs st)) /\ unregisteredBare (fst (run evs st)).
Proof.
  induction evs as [|[opened e] evs IH]; intros st [Hs Hu]; simpl; auto.
  apply IH. destruct e as [w cid|w data|w]; simpl.
  - split.
    + destruct Hs as (Hk & Hr & Hd). repeat split; simpl; auto.
      now apply keys_set_NoDup.
    + eapply unregisteredBare_set with (w := w); [reflexivity|exact Hu|]. auto.
  - split; [now apply onMessage_setsDistinct|now apply onMessage_unregisteredBare].
  - split; [now apply onClose_setsDistinct|now apply onClose_unregisteredBare].
Qed.

Lemma initial_invariants : setsDistinct initial /\ unregisteredBare initial.
Proof.
  split.
  - repeat split; constructor.
  - intros w c Hget. discriminate.
Qed.
End GlobalRuns.

(** X8. In every run of the global-mode server from start-up the client
    map has one entry per socket and the remote and display sets hold
    each socket at most once, so REMOTE_COUNT counts distinct sockets:
    registering a second time does not grow the set. *)
Theorem registry_without_duplicates
        (evs : list (list WebsocketServer.WS * WebsocketServer.Event))
        (env : WebsocketServer.WS -> bool) (w : WebsocketServer.WS)
        (n r : option string) (p : option (list string)) (sn : option string) :
  let st := fst (WebsocketServer.run evs WebsocketServer.initial) in
  let again := fst (WebsocketServer.onMessage env w
                      (WebsocketServer.REGISTER_REMOTE n r p sn) st) in
  NoDup (JsMap.keys (WebsocketServer.clients st))
  /\ NoDup (WebsocketServer.remoteClients st)
  /\ NoDup (WebsocketServer.displayClients st)
  /\ (In w (WebsocketServer.remoteClients st) ->
      WebsocketServer.remoteClients again = WebsocketServer.remoteClients st).
Proof.
  intros st again.
  destruct (run_invariants evs initial_invariants) as [(Hk & Hr & Hd) _].
  repeat split; auto.
  intros Hin. subst again. unfold WebsocketServer.onMessage.
  destruct (JsMap.get w (WebsocketServer.clients st)); auto.
  cbn [fst WebsocketServer.remoteClients WebsocketServer.setRemotes
       WebsocketServer.setClients].
  unfold JsSet.add. apply JsSet_has_In in Hin. now rewrite Hin.
Qed.

Lemma registry_without_duplicates_witness :
  let evs := [([1], WebsocketServer.Connection 1 101%Z);
              ([1], WebsocketServer.Message 1
                      (WebsocketServer.REGISTER_REMOTE None None None None));
              ([1], WebsocketServer.Message 1
                      (WebsocketServer.REGISTER_REMOTE (Some "again") None None None))] in
  In 1 (WebsocketServer.remoteClients (fst (WebsocketServer.run evs WebsocketServer.initial)))
  /\ WebsocketServer.remoteClients
       (fst (WebsocketServer.onMessage (WebsocketServer.openIn [1]) 1
               (WebsocketServer.REGISTER_REMOTE None None None None)
               (fst (WebsocketServer.run evs WebsocketServer.initial))))
     = [1].
Proof.
  intros evs. split; [simpl; auto|].
  rewrite (proj2 (proj2 (proj2
    (@registry_without_duplicates evs (WebsocketServer.openIn [1]) 1 None None None None))));
    [reflexivity|simpl; auto].
Defined.

(** X9. In every run from start-up, a socket that is connected but has
    not registered (its record still has type [unknown]) has no role and
    no grants, so each of its REMOTE_CONTROL frames is answered by
    PERMISSION_DENIED alone and nothing reaches the controller. *)
Theorem unregistered_socket_denied
        (evs : list (list WebsocketServer.WS * WebsocketServer.Event))
        (env : WebsocketServer.WS -> bool) (w : WebsocketServer.WS)
        (client : WebsocketServer.Client) (action : string)
        (d : WebsocketServer.Payload) :
  let st := fst (WebsocketServer.run evs WebsocketServer.initial) in
  JsMap.get w (WebsocketServer.clients st) = Some client ->
  WebsocketServer.type client = WebsocketServer.unknown ->
  WebsocketServer.permissions client = []
  /\ WebsocketServer.role client = None
  /\ WebsocketServer.onMessage env w (WebsocketServer.REMOTE_CONTROL action d) st
     = (st, [(w, WebsocketServer.Out.PERMISSION_DENIED action)]).
Proof.
  intros st Hget Ht.
  destruct (run_invariants evs initial_invariants) as [_ Hbare].
  destruct (Hbare w client Hget Ht) as [Hp Hr].
  split; [exact Hp|]. split; [exact Hr|].
  unfold WebsocketServer.onMessage. rewrite Hget.
  unfold WebsocketServer.hasPermission. now rewrite Hr, Hp.
Qed.

Lemma unregistered_socket_denied_witness :
  let evs := [([1], WebsocketServer.Connection 1 101%Z);
              ([1], WebsocketServer.Message 1 WebsocketServer.REGISTER_CONTROLLER);
              ([1; 2], WebsocketServer.Connection 2 202%Z);
              ([1; 2], WebsocketServer.Message 1
                         (WebsocketServer.GRANT_PERMISSIONS 202%Z ["FULL_CONTROL"]))] in
  let st := fst (WebsocketServer.run evs WebsocketServer.initial) in
  snd (WebsocketServer.onMessage (WebsocketServer.openIn [1; 2]) 2
         (WebsocketServer.REMOTE_CONTROL "PAUSE" "{}") st)
  = [(2, WebsocketServer.Out.PERMISSION_DENIED "PAUSE")].
Proof.
  intros evs st.
  exact (f_equal snd (proj2 (proj2
    (@unregistered_socket_denied evs (WebsocketServer.openIn [1; 2]) 2 _ "PAUSE" "{}"
       eq_refl eq_refl)))).
Defined.

(** X10. The close handler always drops the record of the closing socket
    and leaves every other record as it is. A closing remote is deleted
    from the remote set and an OPEN controller is told the new
    REMOTE_COUNT; a closing display is deleted from the display set and an
    OPEN controller is told DISPLAY_DISCONNECTED; a socket that never
    registered leaves without any message. Afterwards a REMOTE_CONTROL
    frame attributed to the closed socket is dropped. *)
Theorem close_cleans_registry
        (env env' : WebsocketServer.WS -> bool) (w : WebsocketServer.WS)
        (client : WebsocketServer.Client) (action : string)
        (d : WebsocketServer.Payload) (st : WebsocketServer.Server) :
  JsMap.get w (WebsocketServer.clients st) = Some client ->
  let r := WebsocketServer.onClose env w st in
  JsMap.get w (WebsocketServer.clients (fst r)) = None
  /\ (forall w', w' <> w ->
                 JsMap.get w' (WebsocketServer.clients (fst r))
                 = JsMap.get w' (WebsocketServer.clients st))
  /\ (WebsocketServer.type client = WebsocketServer.remote ->
      ~ In w (WebsocketServer.remoteClients (fst r))
      /\ snd r = WebsocketServer.toController env st
                   (WebsocketServer.Out.REMOTE_COUNT
                      (JsSet.size (JsSet.delete w (WebsocketServer.remoteClients st)))))
  /\ (WebsocketServer.type client = WebsocketServer.display ->
      ~ In w (WebsocketServer.displayClients (fst r))
      /\ snd r = WebsocketServer.toController env st
                   (WebsocketServer.Out.DISPLAY_DISCONNECTED
                      (WebsocketServer.id client) (WebsocketServer.name client)
                      (WebsocketServer.url client)))
  /\ (WebsocketServer.type client = WebsocketServer.unknown ->
      snd r = []
      /\ WebsocketServer.remoteClients (fst r) = WebsocketServer.remoteClients st
      /\ WebsocketServer.displayClients (fst r) = WebsocketServer.displayClients st)
  /\ WebsocketServer.onMessage env' w (WebsocketServer.REMOTE_CONTROL action d) (fst r)
     = (fst r, []).
Proof.
  intros Hget r.
  assert (WebsocketServer.clients (fst r)
          = JsMap.delete w (WebsocketServer.clients st)) as Hclients.
  { subst r. unfold WebsocketServer.onClose. rewrite Hget.
    destruct (WebsocketServer.type client); reflexivity. }
  assert (JsMap.get w (WebsocketServer.clients (fst r)) = None) as Hgone.
  { rewrite Hclients. apply get_delete_eq. }
  split; [exact Hgone|]. split.
  { intros w' Hne. rewrite Hclients. apply get_delete_ne. congruence. }
  split; [|split; [|split]].
  - intros Ht. subst r. unfold WebsocketServer.onClose. rewrite Hget, Ht.
    cbn [fst snd WebsocketServer.remoteClients WebsocketServer.setClients
         WebsocketServer.setRemotes].
    split; [|reflexivity].
    intros Hin. apply JsSet_delete_In in Hin. tauto.
  - intros Ht. subst r. unfold WebsocketServer.onClose. rewrite Hget, Ht.
    cbn [fst snd WebsocketServer.displayClients WebsocketServer.setClients
         WebsocketServer.setDisplays].
    split; [|reflexivity].
    intros Hin. apply JsSet_delete_In in Hin. tauto.
  - intros Ht. subst r. unfold WebsocketServer.onClose. rewrite Hget, Ht.
    repeat split.
  - unfold WebsocketServer.onMessage. now rewrite Hgone.
Qed.

Lemma close_cleans_registry_witness :
  let st := fst (WebsocketServer.run
                   [([1], WebsocketServer.Connection 1 101%Z);
                    ([1], WebsocketServer.Message 1 WebsocketServer.REGISTER_CONTROLLER);
                    ([1; 2], WebsocketServer.Connection 2 202%Z);
                    ([1; 2], WebsocketServer.Message 2
                               (WebsocketServer.REGISTER_REMOTE None None None None));
                    ([1; 2; 3], WebsocketServer.Connection 3 303%Z);
                    ([1; 2; 3], WebsocketServer.Message 3
                                  (WebsocketServer.REGISTER_REMOTE None None None None))]
                   WebsocketServer.initial) in
  let r := WebsocketServer.onClose (WebsocketServer.openIn [1; 3]) 2 st in
  WebsocketServer.remoteClients st = [2; 3]
  /\ ~ In 2 (WebsocketServer.remoteClients (fst r))
  /\ snd r = [(1, WebsocketServer.Out.REMOTE_COUNT 1)].
Proof.
  intros st r. split; [reflexivity|].
  destruct (@close_cleans_registry (WebsocketServer.openIn [1; 3])
              (WebsocketServer.openIn [1; 3]) 2 _ "PAUSE" "{}" st eq_refl)
    as (_ & _ & Hremote & _).
  destruct (Hremote eq_refl) as [Hout Hsend].
  split; [exact Hout|]. fold r in Hsend. rewrite Hsend. reflexivity.
Defined.

(* ================================================================== *)
(** * Further properties of the one-time tokens *)

Section TokenTraces.
Import WebsocketServer.
Variable token : string.

Lemma authStep_other now e s :
  match e with Generate t | Validate t | Timeout t => t <> token end ->
  JsMap.get token (snd (authStep now e s)) = JsMap.get token s.
Proof.
  intros Hother. destruct e as [t|t|t]; simpl.
  - now apply get_set_ne.
  - unfold validateAuthToken.
    destruct (JsMap.get t s) as [d|]; simpl; auto.
    destruct (expires d <? now)%Z; simpl.
    + now apply get_delete_ne.
    + destruct (used d); simpl; auto. now apply get_set_ne.
  - now apply get_delete_ne.
Qed.

Lemma authStore_untouched evs : forall s,
  regenerated token evs = false -> presented token evs = false ->
  timedOut token evs = false ->
  JsMap.get token (authStore evs s) = JsMap.get token s.
Proof.
  induction evs as [|[n e] evs IH]; intros s Hg Hv Ht; simpl; auto.
  unfold regenerated, presented, timedOut in *. simpl in Hg, Hv, Ht.
  apply orb_false_elim in Hg, Hv, Ht.
  destruct Hg as [Hg Hg'], Hv as [Hv Hv'], Ht as [Ht Ht'].
  rewrite IH by assumption. apply authStep_other.
  destruct e as [t|t|t]; intros ->; rewrite String.eqb_refl in *; discriminate.
Qed.

Lemma authStore_gone evs : forall s,
  regenerated token evs = false -> JsMap.get token s = None ->
  JsMap.get token (authStore evs s) = None.
Proof.
  induction evs as [|[n e] evs IH]; intros s Hg Hnone; simpl; auto.
  apply regenerated_cons in Hg. destruct Hg as [He Hg].
  apply IH; auto.
  destruct (authStep_entry n s He) as [Hs| [Hs| (d & Hd & _)]]; congruence.
Qed.

Lemma authStore_timedOut evs : forall s,
  regenerated token evs = false -> timedOut token evs = true ->
  JsMap.get token (authStore evs s) = None.
Proof.
  induction evs as [|[n e] evs IH]; intros s Hg Ht; simpl; [discriminate|].
  pose proof (regenerated_cons _ _ _ _ Hg) as [He Hg'].
  unfold timedOut in Ht. simpl in Ht. apply orb_true_iff in Ht.
  destruct Ht as [Ht|Ht]; [|now apply IH].
  destruct e as [t|t|t]; try discriminate.
  apply String.eqb_eq in Ht. subst t.
  apply authStore_gone; auto. simpl. apply get_delete_eq.
Qed.
End TokenTraces.

(** X11. A link works once and only in its window. A non-empty token is
    issued at time [g]; until it is first presented, other tokens are
    issued, presented and cleaned up, and the token's own clean-up timer
    (armed with REMOTE_AUTH_TIMEOUT, the delay after which the token
    expires) may fire. If the timer has not fired, [GET /remote] serves
    the page when the token is presented at a time up to and including
    [g + REMOTE_AUTH_TIMEOUT], refuses a further request with the same
    token, and refuses a first request made after that time, dropping the
    entry. If the timer has fired, the request is refused whatever the
    time. So a request made strictly before [g + REMOTE_AUTH_TIMEOUT] is
    always served, provided the timer fires no earlier than that on the
    clock; at that very instant the answer depends on whether the timer
    ran first. A request without a token is refused without touching the
    store. *)
Theorem remote_link_single_use (token : string) (g now now' : Z)
        (store : WebsocketServer.AuthTokens)
        (evs : list (Z * WebsocketServer.AuthEvent)) :
  token <> "" ->
  WebsocketServer.regenerated token evs = false ->
  WebsocketServer.presented token evs = false ->
  let issued := snd (WebsocketServer.generateAuthToken token g store) in
  let arrived := WebsocketServer.authStore evs issued in
  let served :=
    fst (WebsocketServer.getRemote (Some token) now arrived) = WebsocketServer.RemotePage
    /\ fst (WebsocketServer.getRemote (Some token) now'
              (snd (WebsocketServer.getRemote (Some token) now arrived)))
       = WebsocketServer.AuthenticationRequired in
  (WebsocketServer.timedOut token evs = false ->
   (now <= g + WebsocketServer.REMOTE_AUTH_TIMEOUT)%Z -> served)
  /\ (WebsocketServer.timedOut token evs = false ->
      (g + WebsocketServer.REMOTE_AUTH_TIMEOUT < now)%Z ->
      fst (WebsocketServer.getRemote (Some token) now arrived)
      = WebsocketServer.AuthenticationRequired
      /\ JsMap.get token (snd (WebsocketServer.getRemote (Some token) now arrived)) = None)
  /\ (WebsocketServer.timedOut token evs = true ->
      WebsocketServer.getRemote (Some token) now arrived
      = (WebsocketServer.AuthenticationRequired, arrived))
  /\ ((forall n e, In (n, e) evs -> (n <= now)%Z) ->
      (forall n, In (n, WebsocketServer.Timeout token) evs ->
                 (g + WebsocketServer.REMOTE_AUTH_TIMEOUT <= n)%Z) ->
      (now < g + WebsocketServer.REMOTE_AUTH_TIMEOUT)%Z -> served)
  /\ WebsocketServer.getRemote None now arrived
     = (WebsocketServer.AuthenticationRequired, arrived)
  /\ WebsocketServer.getRemote (Some "") now arrived
     = (WebsocketServer.AuthenticationRequired, arrived).
Proof.
  intros Hne Hg Hv issued arrived served.
  assert (truthy (Some token) = Some token) as Htruthy.
  { simpl. destruct (String.eqb_spec token ""); congruence. }
  assert (WebsocketServer.timedOut token evs = false ->
          JsMap.get token arrived
          = Some {| WebsocketServer.expires := (g + WebsocketServer.REMOTE_AUTH_TIMEOUT)%Z;
                    WebsocketServer.used := false |}) as Hget.
  { intros Ht. subst arrived. rewrite authStore_untouched by assumption.
    subst issued. simpl. apply get_set_eq. }
  assert (WebsocketServer.timedOut token evs = false ->
          (now <= g + WebsocketServer.REMOTE_AUTH_TIMEOUT)%Z -> served) as Hserved.
  { intros Ht Hin. specialize (Hget Ht). subst served.
    unfold WebsocketServer.getRemote. rewrite Htruthy.
    assert (WebsocketServer.validateAuthToken token now arrived
            = (true, JsMap.set token
                       {| WebsocketServer.expires :=
                            (g + WebsocketServer.REMOTE_AUTH_TIMEOUT)%Z;
                          WebsocketServer.used := true |} arrived)) as Hval.
    { unfold WebsocketServer.validateAuthToken. rewrite Hget. simpl.
      assert ((g + WebsocketServer.REMOTE_AUTH_TIMEOUT <? now)%Z = false) as ->
          by (apply Z.ltb_ge; lia).
      reflexivity. }
    rewrite Hval. cbn [fst snd]. split; [reflexivity|].
    rewrite (@spent_validate token now' _ (@validate_accept_spent token now _ _ Hval)).
    reflexivity. }
  split; [exact Hserved|]. split; [|split; [|split; [|split; reflexivity]]].
  - intros Ht Hlate. specialize (Hget Ht).
    unfold WebsocketServer.getRemote. rewrite Htruthy.
    unfold WebsocketServer.validateAuthToken. rewrite Hget. simpl.
    assert ((g + WebsocketServer.REMOTE_AUTH_TIMEOUT <? now)%Z = true) as ->
        by (apply Z.ltb_lt; lia).
    simpl. split; [reflexivity|]. apply get_delete_eq.
  - intros Ht. unfold WebsocketServer.getRemote. rewrite Htruthy.
    unfold WebsocketServer.validateAuthToken. subst arrived.
    now rewrite authStore_timedOut.
  - intros Hpast Htimer Hin. apply Hserved; [|lia].
    destruct (WebsocketServer.timedOut token evs) eqn:Ht; auto.
    unfold WebsocketServer.timedOut in Ht. apply existsb_exists in Ht.
    destruct Ht as ([n e] & Hev & He). simpl in He.
    destruct e as [t|t|t]; try discriminate.
    apply String.eqb_eq in He. subst t.
    pose proof (Hpast _ _ Hev). pose proof (Htimer _ Hev). lia.
Qed.

Lemma remote_link_single_use_witness :
  let issued := snd (WebsocketServer.generateAuthToken "t0k3n" 1000 []) in
  let calm := [(2000, WebsocketServer.Generate "other");
               (3000, WebsocketServer.Validate "other")]%Z in
  let late := calm ++ [(301000, WebsocketServer.Timeout "t0k3n")]%Z in
  fst (WebsocketServer.getRemote (Some "t0k3n") 300999
         (WebsocketServer.authStore calm issued)) = WebsocketServer.RemotePage
  /\ fst (WebsocketServer.getRemote (Some "t0k3n") 301000
            (WebsocketServer.authStore calm issued)) = WebsocketServer.RemotePage
  /\ fst (WebsocketServer.getRemote (Some "t0k3n") 301000
            (WebsocketServer.authStore late issued))
     = WebsocketServer.AuthenticationRequired
  /\ fst (WebsocketServer.getRemote (Some "t0k3n") 301001
            (WebsocketServer.authStore calm issued))
     = WebsocketServer.AuthenticationRequired.
Proof.
  intros issued calm late.
  assert ("t0k3n" <> "") as Hne by discriminate.
  pose proof (@remote_link_single_use "t0k3n" 1000 300999 0 [] calm Hne eq_refl eq_refl)
    as (_ & _ & _ & Hinside & _).
  pose proof (@remote_link_single_use "t0k3n" 1000 301000 0 [] calm Hne eq_refl eq_refl)
    as (Hedge & _).
  pose proof (@remote_link_single_use "t0k3n" 1000 301000 0 [] late Hne eq_refl eq_refl)
    as (_ & _ & Hfired & _).
  pose proof (@remote_link_single_use "t0k3n" 1000 301001 0 [] calm Hne eq_refl eq_refl)
    as (_ & Hlate & _).
  split.
  - apply Hinside.
    + intros n e [[= <- <-]|[[= <- <-]|[]]]; lia.
    + intros n [[=]|[[=]|[]]].
    + vm_compute. reflexivity.
  - split; [apply Hedge; [reflexivity|vm_compute; discriminate]|].
    split; [exact (f_equal fst (Hfired eq_refl))|].
    apply Hlate; reflexivity.
Defined.

(** X12. Tokens do not interfere: issuing, validating or timing out
    another token leaves the entry of [token] as it was, so the answer of
    a later validation of [token] is the same as without that step. *)
Theorem tokens_independent (token : string) (now now' : Z)
        (e : WebsocketServer.AuthEvent) (store : WebsocketServer.AuthTokens) :
  match e with
  | WebsocketServer.Generate t | WebsocketServer.Validate t
  | WebsocketServer.Timeout t => t <> token
  end ->
  let store' := snd (WebsocketServer.authStep now e store) in
  JsMap.get token store' = JsMap.get token store
  /\ fst (WebsocketServer.validateAuthToken token now' store')
     = fst (WebsocketServer.validateAuthToken token now' store).
Proof.
  intros Hother store'.
  assert (JsMap.get token store' = JsMap.get token store) as Hsame.
  { subst store'. destruct e as [t|t|t]; simpl.
    - now apply get_set_ne.
    - unfold WebsocketServer.validateAuthToken.
      destruct (JsMap.get t store) as [d|]; simpl; auto.
      destruct (WebsocketServer.expires d <? now)%Z; simpl.
      + now apply get_delete_ne.
      + destruct (WebsocketServer.used d); simpl; auto. now apply get_set_ne.
    - now apply get_delete_ne. }
  split; [exact Hsame|].
  unfold WebsocketServer.validateAuthToken. rewrite Hsame.
  destruct (JsMap.get token store) as [d|]; auto.
  destruct (WebsocketServer.expires d <? now')%Z; auto.
  destruct (WebsocketServer.used d); auto.
Qed.

Lemma tokens_independent_witness :
  let store := snd (WebsocketServer.generateAuthToken "b"  5
                      (snd (WebsocketServer.generateAuthToken "a" 0 []))) in
  fst (WebsocketServer.validateAuthToken "a" 20
         (snd (WebsocketServer.authStep 10 (WebsocketServer.Validate "b") store)))
  = true.
Proof.
  intros store.
  assert ("b" <> "a") as Hne by discriminate.
  rewrite (proj2 (@tokens_independent "a" 10 20 (WebsocketServer.Validate "b") store Hne)).
  reflexivity.
Defined.

(* ================================================================== *)
(** * Further properties of the room store and its connections *)

Section MapFilter.
Context {K V : Type} `{Key K}.
Implicit Types (m : JsMap.t K V) (k : K) (v : V).

Lemma get_Some_In_keys m k v : JsMap.get k m = Some v -> In k (JsMap.keys m).
Proof.
  intros Hget. apply has_In_keys. unfold JsMap.has. now rewrite Hget.
Qed.

Lemma get_None_not_In m k : ~ In k (JsMap.keys m) -> JsMap.get k m = None.
Proof.
  intros Hnot. destruct (JsMap.get k m) as [v|] eqn:Hget; auto.
  exfalso. apply Hnot. eapply get_Some_In_keys; eauto.
Qed.

Lemma keys_filter_In (f : K * V -> bool) m k :
  In k (JsMap.keys (filter f m)) -> In k (JsMap.keys m).
Proof.
  unfold JsMap.keys. rewrite !in_map_iff.
  intros (kv & Hk & Hin). apply filter_In in Hin. exists kv. tauto.
Qed.

Lemma keys_filter_NoDup (f : K * V -> bool) m :
  NoDup (JsMap.keys m) -> NoDup (JsMap.keys (filter f m)).
Proof.
  induction m as [|[k v] m IH]; simpl; auto.
  intros Hnd. inversion Hnd; subst.
  destruct (f (k, v)); simpl; auto.
  constructor; auto. intros Hin. apply keys_filter_In in Hin. auto.
Qed.

Lemma get_filter (f : K * V -> bool) m k :
  NoDup (JsMap.keys m) ->
  JsMap.get k (filter f m)
  = match JsMap.get k m with
    | Some v => if f (k, v) then Some v else None
    | None => None
    end.
Proof.
  induction m as [|[k' v'] m IH]; simpl; auto.
  intros Hnd. inversion Hnd as [|? ? Hnot Hnd']; subst.
  destruct (keq_spec k k') as [->|Hne].
  - destruct (f (k', v')); simpl.
    + now rewrite keq_refl.
    + apply get_None_not_In. intros Hin. apply keys_filter_In in Hin. auto.
  - destruct (f (k', v')); simpl; auto.
    rewrite (keq_neq Hne). auto.
Qed.

Lemma size_delete_present m k v :
  NoDup (JsMap.keys m) -> JsMap.get k m = Some v ->
  S (JsMap.size (JsMap.delete k m)) = JsMap.size m.
Proof.
  unfold JsMap.size, JsMap.delete.
  induction m as [|[k' v'] m IH]; simpl; [discriminate|].
  intros Hnd. inversion Hnd as [|? ? Hnot Hnd']; subst.
  destruct (keq_spec k k') as [->|Hne]; simpl.
  - intros _. f_equal.
    assert (filter (fun kv : K * V => negb (keq k' (fst kv))) m = m) as ->; auto.
    clear IH Hnd Hnd'. induction m as [|[k0 v0] m IHm]; simpl; auto.
    simpl in Hnot. destruct (keq_spec k' k0) as [->|Hne0]; [tauto|].
    simpl. f_equal. apply IHm. tauto.
  - intros Hget. f_equal. now apply IH.
Qed.

End MapFilter.

Section Codes.

Lemma truthy_nonempty s c : truthy s = Some c -> c <> "".
Proof.
  destruct s as [x|]; simpl; [|discriminate].
  destruct (String.eqb_spec x ""); [discriminate|]. now intros [= <-].
Qed.

Lemma generateRoomCode_nonempty random : generateRoomCode random <> "".
Proof. destruct random as [[b0 b1] b2]. discriminate. Qed.

End Codes.

Section CodeFormat.

Lemma hexByte_format b :
  exists c1 c2,
    hexByte b = String c1 (String c2 EmptyString)
    /\ isUpperHex c1 = true /\ isUpperHex c2 = true.
Proof. destruct b; do 2 eexists; vm_compute; repeat split. Qed.

Lemma unhexByte_hexByte b : unhexByte (hexByte b) = Some b.
Proof. destruct b; vm_compute; reflexivity. Qed.

Lemma hexByte_injective b b' : hexByte b = hexByte b' -> b = b'.
Proof.
  intros Heq. apply (f_equal unhexByte) in Heq.
  rewrite !unhexByte_hexByte in Heq. congruence.
Qed.
End CodeFormat.

(** X13. A generated room code has exactly six characters, each an
    upper-case hexadecimal digit, and different random bytes give
    different codes (the code determines the three bytes). *)
Theorem generateRoomCode_format (random random' : Bytes3) :
  String.length (generateRoomCode random) = 6
  /\ forallb isUpperHex (list_ascii_of_string (generateRoomCode random)) = true
  /\ (generateRoomCode random = generateRoomCode random' -> random = random').
Proof.
  destruct random as [[b0 b1] b2], random' as [[b0' b1'] b2'].
  unfold generateRoomCode.
  destruct (hexByte_format b0) as (x0 & y0 & E0 & Hx0 & Hy0).
  destruct (hexByte_format b1) as (x1 & y1 & E1 & Hx1 & Hy1).
  destruct (hexByte_format b2) as (x2 & y2 & E2 & Hx2 & Hy2).
  destruct (hexByte_format b0') as (x0' & y0' & E0' & _).
  destruct (hexByte_format b1') as (x1' & y1' & E1' & _).
  destruct (hexByte_format b2') as (x2' & y2' & E2' & _).
  split; [|split].
  - rewrite E0, E1, E2. reflexivity.
  - rewrite E0, E1, E2. simpl. now rewrite Hx0, Hy0, Hx1, Hy1, Hx2, Hy2.
  - intros Heq.
    assert (hexByte b0 = hexByte b0' /\ hexByte b1 = hexByte b1'
            /\ hexByte b2 = hexByte b2') as (H0 & H1 & H2).
    { rewrite E0, E1, E2, E0', E1', E2' in *. simpl in Heq.
      injection Heq as -> -> -> -> -> ->. auto. }
    apply hexByte_injective in H0, H1, H2. now subst.
Qed.

Lemma generateRoomCode_format_witness :
  generateRoomCode (Byte.x0f, Byte.x00, Byte.xd1) = "0F00D1"
  /\ forall random, generateRoomCode random = "0F00D1" ->
                    random = (Byte.x0f, Byte.x00, Byte.xd1).
Proof.
  split; [reflexivity|].
  intros random Heq. symmetry.
  apply (proj2 (proj2 (generateRoomCode_format (Byte.x0f, Byte.x00, Byte.xd1) random))).
  now rewrite Heq.
Defined.

Section KeyedInvariant.
Import RoomServer.

Lemma roomKeyed_same k r r' :
  code r' = code r -> users r' = users r -> roomKeyed (k, r) -> roomKeyed (k, r').
Proof.
  unfold roomKeyed. simpl. intros -> ->. auto.
Qed.

Lemma roomKeyed_users k r r' :
  code r' = code r ->
  NoDup (JsMap.keys (users r')) ->
  Forall (fun e => id (snd e) = fst e) (users r') ->
  roomKeyed (k, r) -> roomKeyed (k, r').
Proof.
  unfold roomKeyed. simpl. intros -> Hnd Hall (Hc & Hk & _ & _). auto.
Qed.

Lemma keyed_room_get st roomCode room :
  keyed st -> JsMap.get roomCode (rooms st) = Some room -> roomKeyed (roomCode, room).
Proof.
  intros (_ & Hall & _) Hget. apply get_In in Hget.
  exact (proj1 (Forall_forall _ _) Hall _ Hget).
Qed.

Lemma keyed_setRoom st roomCode room' :
  keyed st -> roomKeyed (roomCode, room') ->
  keyed (setRooms (JsMap.set roomCode room' (rooms st)) st).
Proof.
  intros (Hnd & Hall & Hc) Hroom. repeat split; simpl; auto.
  - now apply keys_set_NoDup.
  - now apply Forall_set.
Qed.

Lemma keyed_setConn st w c :
  keyed st -> connAttached c -> keyed (setConn w c st).
Proof.
  intros (Hnd & Hall & Hc) Hconn. repeat split; simpl; auto.
  now apply Forall_set.
Qed.

Lemma keyed_allocated st : keyed st -> keyed (allocated st).
Proof. intros (Hnd & Hall & Hc). repeat split; simpl; auto. Qed.

Lemma keyed_createRoom st hostInfo custom random now :
  keyed st ->
  keyed (setRooms (snd (createRoom hostInfo custom random now (rooms st))) st).
Proof.
  intros Hk. unfold createRoom. cbn [snd]. apply keyed_setRoom; auto.
  unfold roomKeyed. simpl. split; [reflexivity|]. split.
  - destruct (truthy custom) as [c|] eqn:Hc.
    + eapply truthy_nonempty; eauto.
    + apply generateRoomCode_nonempty.
  - split; constructor.
Qed.

Lemma keyed_leaveRoom st roomCode userId now :
  keyed st -> keyed (setRooms (leaveRoom roomCode userId now (rooms st)) st).
Proof.
  intros Hk. pose proof Hk as (Hnd & Hall & Hc). unfold leaveRoom.
  destruct (JsMap.get roomCode (rooms st)) as [room|] eqn:Hget.
  - pose proof (keyed_room_get _ Hk Hget) as Hroom.
    destruct (JsMap.size _ =? 0)%nat.
    + repeat split; simpl; auto.
      * now apply keys_delete_NoDup.
      * now apply Forall_delete.
    + apply keyed_setRoom; auto.
      destruct Hroom as (H1 & H2 & H3 & H4).
      eapply roomKeyed_users with (r := room); simpl; auto.
      * now apply keys_delete_NoDup.
      * now apply Forall_delete.
      * repeat split; auto.
  - destruct st; exact Hk.
Qed.

Lemma user_key (us : JsMap.t string User) userId u :
  Forall (fun e => id (snd e) = fst e) us ->
  JsMap.get userId us = Some u -> id u = userId.
Proof.
  intros Hall Hget. apply get_In in Hget.
  exact (proj1 (Forall_forall _ _) Hall _ Hget).
Qed.

Lemma roomKeyed_join k room u :
  roomKeyed (k, room) ->
  forall now,
    roomKeyed (k, setLastActivity now (setUsers (JsMap.set (id u) u (users room)) room)).
Proof.
  intros (H1 & H2 & H3 & H4) now.
  eapply roomKeyed_users with (r := room); simpl; auto.
  - now apply keys_set_NoDup.
  - now apply Forall_set.
  - repeat split; auto.
Qed.

Lemma connAttached_assignConn o v c : connAttached c -> connAttached (assignConn o v c).
Proof.
  unfold connAttached, assignConn. simpl. now destruct (currentUser c), (currentRoom c).
Qed.

Lemma keyed_assignConns o v st : keyed st -> keyed (assignConns o v st).
Proof.
  intros (Hnd & Hall & Hc). repeat split; simpl; auto.
  apply Forall_forall. intros kv Hin. apply in_map_iff in Hin.
  destruct Hin as (kv0 & <- & Hin0). simpl. apply connAttached_assignConn.
  exact (proj1 (Forall_forall _ _) Hc _ Hin0).
Qed.

Lemma keyed_setRoom_assign o v st roomCode room' :
  keyed st -> roomKeyed (roomCode, room') ->
  keyed (setRooms (JsMap.set roomCode room' (rooms st)) (assignConns o v st)).
Proof.
  intros Hk Hroom.
  now apply (@keyed_setRoom (assignConns o v st)); [apply keyed_assignConns|].
Qed.

Lemma roomMessage_keyed env w now uuid data st :
  keyed st -> keyed (fst (onMessage env w now uuid data st)).
Proof.
  intros Hk. pose proof (fun o v => keyed_assignConns o v Hk) as Hka.
  destruct data; unfold onMessage, handleWebSocketMessage; cbv beta iota.
  - unfold handleRegisterHost.
    destruct (JsMap.get roomCode (rooms st)) as [room|] eqn:Hget; auto.
    pose proof (keyed_room_get _ Hk Hget) as Hroom.
    cbn [fst]. apply keyed_setConn.
    + first [apply keyed_setRoom|apply keyed_setRoom_assign]; auto; eapply roomKeyed_same; eauto.
    + simpl. apply Hroom.
  - unfold handleJoinRoom.
    destruct (JsMap.get roomCode (rooms st)) as [room|] eqn:Hget; auto.
    pose proof (keyed_room_get _ Hk Hget) as Hroom.
    destruct (isHostType clientType); [|destruct clientInfo as [info|]; [|exact Hk]];
      cbn [fst].
    + apply keyed_setConn.
      * first [apply keyed_setRoom|apply keyed_setRoom_assign]; auto; eapply roomKeyed_same; eauto.
      * simpl. apply Hroom.
    + apply keyed_setConn.
      * apply keyed_allocated. first [apply keyed_setRoom|apply keyed_setRoom_assign]; auto.
        apply (roomKeyed_join
                 (webUser st w now uuid (ClientInfo.name info) (ClientInfo.role info))
                 Hroom).
      * simpl. apply Hroom.
  - unfold handleLeaveRoom.
    destruct (JsMap.get roomCode (rooms st)) as [room|] eqn:Hget; auto.
    pose proof (keyed_room_get _ Hk Hget) as Hroom.
    destruct (sameObject _ _); cbn [fst].
    + apply keyed_setConn; [|exact I].
      first [apply keyed_setRoom|apply keyed_setRoom_assign]; auto; eapply roomKeyed_same; eauto.
    + destruct (currentUser (connOf w st)) as [u|];
        [|apply keyed_setConn; auto; exact I].
      destruct (truthy (Some (id u))) as [userId|];
        [|apply keyed_setConn; auto; exact I].
      destruct (JsMap.has userId (users room));
        [|apply keyed_setConn; auto; exact I].
      cbn [fst]. apply keyed_setConn; [|exact I].
      first [apply keyed_setRoom|apply keyed_setRoom_assign]; auto.
      destruct Hroom as (H1 & H2 & H3 & H4).
      eapply roomKeyed_users with (r := room); simpl; auto.
      * now apply keys_delete_NoDup.
      * now apply Forall_delete.
      * repeat split; auto.
  - unfold handleRegisterUser.
    destruct (JsMap.get roomCode (rooms st)) as [room|] eqn:Hget; auto.
    pose proof (keyed_room_get _ Hk Hget) as Hroom.
    destruct (JsMap.get userId (users room)) as [user0|] eqn:Hu0; auto.
    cbn [fst]. apply keyed_setConn; [|simpl; apply Hroom].
    first [apply keyed_setRoom|apply keyed_setRoom_assign]; auto.
    destruct Hroom as (H1 & H2 & H3 & H4).
    eapply roomKeyed_users with (r := room); simpl; auto.
    + now apply keys_set_NoDup.
    + apply Forall_set; auto. simpl. eapply user_key; eauto.
    + repeat split; auto.
  - unfold handleRoomStateUpdate.
    destruct (truthy (currentRoom (connOf w st))) as [roomCode|]; auto.
    destruct (currentUser (connOf w st)) as [user|]; auto.
    destruct (isDesktop user); auto.
    destruct (JsMap.get roomCode (rooms st)) as [room|] eqn:Hget; auto.
    pose proof (keyed_room_get _ Hk Hget) as Hroom.
    cbn [fst]. first [apply keyed_setRoom|apply keyed_setRoom_assign]; auto; eapply roomKeyed_same; eauto.
  - unfold handleUserCommand.
    destruct (truthy (currentRoom (connOf w st))) as [roomCode|]; auto.
    destruct (currentUser (connOf w st)) as [user|]; auto.
    destruct (JsMap.get roomCode (rooms st)) as [room|]; auto.
    destruct (ws (host room)); auto.
  - unfold handleChatMessage.
    destruct (truthy (currentRoom (connOf w st))) as [roomCode|]; auto.
    destruct (currentUser (connOf w st)) as [user|]; auto.
  - exact Hk.
Qed.

Lemma step_keyed env now e st : keyed st -> keyed (fst (step env now e st)).
Proof.
  intros Hk. destruct e; cbn [step fst].
  - unfold postRooms. cbn [snd]. apply keyed_allocated. now apply keyed_createRoom.
  - unfold postRoomsCreate.
    destruct (JsMap.has _ (rooms st)); cbn [snd]; auto.
    apply keyed_allocated. now apply keyed_createRoom.
  - unfold postJoin, joinRoom.
    destruct (JsMap.get roomCode (rooms st)) as [room|] eqn:Hget;
      [|cbn [snd]; now apply keyed_allocated].
    pose proof (keyed_room_get _ Hk Hget) as Hroom.
    destruct (maxUsers (settings room) <=? JsMap.size (users room))%nat;
      cbn [snd]; apply keyed_allocated; auto.
    apply keyed_setRoom; auto.
    match goal with
    | |- roomKeyed (_, setLastActivity _ (setUsers (JsMap.set (id ?u) ?u _) _)) =>
        apply (roomKeyed_join u Hroom)
    end.
  - now apply roomMessage_keyed.
  - unfold onClose.
    destruct (currentUser (connOf w st)) as [user|]; auto.
    destruct (truthy (currentRoom (connOf w st))) as [roomCode|]; auto.
    cbn [fst]. now apply keyed_leaveRoom.
  - destruct Hk as (Hnd & Hall & Hc). repeat split; simpl; auto.
    + now apply keys_filter_NoDup.
    + unfold sweep. apply Forall_forall. intros kv Hin. apply filter_In in Hin.
      exact (proj1 (Forall_forall _ _) Hall _ (proj1 Hin)).
Qed.

Lemma run_keyed evs : forall st, keyed st -> keyed (fst (run evs st)).
Proof.
  induction evs as [|[[opened now] e] evs IH]; intros st Hk; simpl; auto.
  apply IH. now apply step_keyed.
Qed.

Lemma initial_keyed : keyed initial.
Proof. repeat split; constructor. Qed.

Lemma connOf_attached st w : keyed st -> connAttached (connOf w st).
Proof.
  intros (_ & _ & Hc). unfold connOf.
  destruct (JsMap.get w (conns st)) as [c|] eqn:Hget.
  - apply get_In in Hget. exact (proj1 (Forall_forall _ _) Hc _ Hget).
  - exact I.
Qed.
End KeyedInvariant.

(** X14. In every run of the room server from start-up the store holds
    one room per code, each room is stored under its own non-empty code,
    and each participant under its own id, once. The closure variables of
    a connection are set and cleared together, so the guard
    [!currentRoom || !currentUser] of the frame handlers holds exactly
    for a connection with no current user. *)
Theorem store_is_keyed
        (evs : list (list RoomServer.WS * Z * RoomServer.Event))
        (w : RoomServer.WS) (roomCode userId : string)
        (room : RoomServer.Room) (user : RoomServer.User) :
  let st := fst (RoomServer.run evs RoomServer.initial) in
  NoDup (JsMap.keys (RoomServer.rooms st))
  /\ (JsMap.get roomCode (RoomServer.rooms st) = Some room ->
      RoomServer.code room = roomCode
      /\ roomCode <> ""
      /\ NoDup (JsMap.keys (RoomServer.users room))
      /\ (JsMap.get userId (RoomServer.users room) = Some user ->
          RoomServer.id user = userId))
  /\ (RoomServer.currentUser (RoomServer.connOf w st) = None
      <-> truthy (RoomServer.currentRoom (RoomServer.connOf w st)) = None).
Proof.
  intros st.
  assert (RoomServer.keyed st) as Hk by (apply run_keyed, initial_keyed).
  split; [apply Hk|]. split.
  - intros Hget. destruct (keyed_room_get _ Hk Hget) as (H1 & H2 & H3 & H4).
    repeat split; auto. intros Hu. eapply user_key; eauto.
  - pose proof (connOf_attached w Hk) as Hc. unfold RoomServer.connAttached in Hc.
    destruct (RoomServer.currentUser (RoomServer.connOf w st)) as [u|],
             (RoomServer.currentRoom (RoomServer.connOf w st)) as [c|];
      try contradiction.
    + simpl. destruct (String.eqb_spec c ""); [contradiction|].
      split; discriminate.
    + split; reflexivity.
Qed.

Lemma store_is_keyed_witness :
  let st := fst (RoomServer.run (Samples.hosted ++ Samples.crowd 2) RoomServer.initial) in
  exists room user,
    JsMap.get "AB12CD" (RoomServer.rooms st) = Some room
    /\ JsMap.get "3" (RoomServer.users room) = Some user
    /\ RoomServer.code room = "AB12CD"
    /\ RoomServer.id user = "3".
Proof.
  intros st.
  assert (exists room user,
             JsMap.get "AB12CD" (RoomServer.rooms st) = Some room
             /\ JsMap.get "3" (RoomServer.users room) = Some user) as (room & user & Hr & Hu).
  { vm_compute. do 2 eexists. split; reflexivity. }
  exists room, user.
  destruct (@store_is_keyed (Samples.hosted ++ Samples.crowd 2) 1 "AB12CD" "3" room user)
    as (_ & Hroom & _).
  destruct (Hroom Hr) as (Hcode & _ & _ & Hid).
  repeat split; auto.
Defined.

(** X15. What the periodic clean-up keeps: in every reachable state, after
    a sweep at time [now] a room is still in the store exactly when its
    [lastActivity] is no older than ROOM_TIMEOUT (24 hours), whatever its
    participants and its host connection; the rooms kept are unchanged. *)
Theorem sweep_keeps_active
        (evs : list (list RoomServer.WS * Z * RoomServer.Event))
        (now : Z) (roomCode : string) :
  let st := fst (RoomServer.run evs RoomServer.initial) in
  RoomServer.ROOM_TIMEOUT = 86400000%Z
  /\ JsMap.get roomCode (RoomServer.sweep now (RoomServer.rooms st))
     = match JsMap.get roomCode (RoomServer.rooms st) with
       | Some room =>
           if (RoomServer.ROOM_TIMEOUT <? now - RoomServer.lastActivity room)%Z
           then None else Some room
       | None => None
       end.
Proof.
  intros st. split; [reflexivity|].
  assert (RoomServer.keyed st) as (Hnd & _) by (apply run_keyed, initial_keyed).
  unfold RoomServer.sweep. rewrite get_filter by exact Hnd.
  destruct (JsMap.get roomCode (RoomServer.rooms st)) as [room|]; auto.
  simpl. destruct (RoomServer.ROOM_TIMEOUT <? now - RoomServer.lastActivity room)%Z;
    reflexivity.
Qed.

Section Capacity.
Import RoomServer.

Lemma capped_get st roomCode room :
  capped st -> JsMap.get roomCode (rooms st) = Some room ->
  maxUsers (settings room) = MAX_USERS_PER_ROOM
  /\ JsMap.size (users room) <= MAX_USERS_PER_ROOM.
Proof.
  intros Hall Hget. apply get_In in Hget.
  exact (proj1 (Forall_forall _ _) Hall _ Hget).
Qed.

Lemma capped_setRoom (st st' : Server) roomCode room' :
  rooms st' = JsMap.set roomCode room' (rooms st) ->
  capped st ->
  maxUsers (settings room') = MAX_USERS_PER_ROOM ->
  JsMap.size (users room') <= MAX_USERS_PER_ROOM ->
  capped st'.
Proof.
  unfold capped. intros -> Hc Hm Hs. apply Forall_set; auto.
Qed.

Lemma capped_same (st st' : Server) : rooms st' = rooms st -> capped st -> capped st'.
Proof. unfold capped. now intros ->. Qed.

Lemma size_set_present (us : JsMap.t string User) k v v0 :
  JsMap.get k us = Some v0 -> JsMap.size (JsMap.set k v us) = JsMap.size us.
Proof.
  intros Hget. rewrite size_set. unfold JsMap.has. now rewrite Hget.
Qed.

Lemma capped_leaveRoom st roomCode userId now :
  capped st -> capped (setRooms (leaveRoom roomCode userId now (rooms st)) st).
Proof.
  intros Hc. unfold leaveRoom.
  destruct (JsMap.get roomCode (rooms st)) as [room|] eqn:Hget.
  - destruct (capped_get _ Hc Hget) as [Hm Hs].
    destruct (JsMap.size _ =? 0)%nat.
    + unfold capped. simpl. now apply Forall_delete.
    + eapply capped_setRoom with (st := st); [reflexivity|exact Hc|exact Hm|].
      simpl. pose proof (size_delete_le (users room) userId). lia.
  - eapply capped_same; [|exact Hc]. reflexivity.
Qed.

Lemma step_capped env now e st :
  notWebJoin e = true -> capped st -> capped (fst (step env now e st)).
Proof.
  intros Hnot Hc. destruct e; cbn [step fst].
  - unfold postRooms, createRoom. cbn [snd].
    eapply capped_setRoom with (st := st); [reflexivity|exact Hc|reflexivity|].
    simpl. unfold MAX_USERS_PER_ROOM. lia.
  - unfold postRoomsCreate.
    destruct (JsMap.has _ (rooms st)); cbn [snd]; auto.
    unfold createRoom. cbn [snd].
    eapply capped_setRoom with (st := st); [reflexivity|exact Hc|reflexivity|].
    simpl. unfold MAX_USERS_PER_ROOM. lia.
  - unfold postJoin, joinRoom.
    destruct (JsMap.get roomCode (rooms st)) as [room|] eqn:Hget;
      [|cbn [snd]; eapply capped_same; [|exact Hc]; reflexivity].
    destruct (capped_get _ Hc Hget) as [Hm Hs].
    destruct (Nat.leb_spec (maxUsers (settings room)) (JsMap.size (users room)));
      cbn [snd]; [eapply capped_same; [|exact Hc]; reflexivity|].
    eapply capped_setRoom with (st := st); [reflexivity|exact Hc|exact Hm|].
    simpl. rewrite size_set. destruct (JsMap.has _ _); lia.
  - destruct data; unfold onMessage, handleWebSocketMessage; cbv beta iota.
    + unfold handleRegisterHost.
      destruct (JsMap.get roomCode (rooms st)) as [room|] eqn:Hget; auto.
      destruct (capped_get _ Hc Hget) as [Hm Hs]. cbn [fst].
      eapply capped_setRoom with (st := st); [reflexivity|exact Hc|exact Hm|exact Hs].
    + simpl in Hnot. unfold handleJoinRoom.
      destruct (JsMap.get roomCode (rooms st)) as [room|] eqn:Hget; auto.
      destruct (capped_get _ Hc Hget) as [Hm Hs]. rewrite Hnot. cbn [fst].
      eapply capped_setRoom with (st := st); [reflexivity|exact Hc|exact Hm|exact Hs].
    + unfold handleLeaveRoom.
      destruct (JsMap.get roomCode (rooms st)) as [room|] eqn:Hget; auto.
      destruct (capped_get _ Hc Hget) as [Hm Hs].
      destruct (sameObject _ _); cbn [fst].
      * eapply capped_setRoom with (st := st); [reflexivity|exact Hc|exact Hm|exact Hs].
      * destruct (currentUser (connOf w st)) as [u|];
          [|eapply capped_same; [|exact Hc]; reflexivity].
        destruct (truthy (Some (id u))) as [uid|];
          [|eapply capped_same; [|exact Hc]; reflexivity].
        destruct (JsMap.has uid (users room));
          [|eapply capped_same; [|exact Hc]; reflexivity].
        cbn [fst].
        eapply capped_setRoom with (st := st); [reflexivity|exact Hc|exact Hm|].
        simpl. pose proof (size_delete_le (users room) uid). lia.
    + unfold handleRegisterUser.
      destruct (JsMap.get roomCode (rooms st)) as [room|] eqn:Hget; auto.
      destruct (capped_get _ Hc Hget) as [Hm Hs].
      destruct (JsMap.get userId (users room)) as [user0|] eqn:Hu0; auto.
      cbn [fst].
      eapply capped_setRoom with (st := st); [reflexivity|exact Hc|exact Hm|].
      simpl. erewrite size_set_present; eauto.
    + unfold handleRoomStateUpdate.
      destruct (truthy (currentRoom (connOf w st))) as [roomCode|]; auto.
      destruct (currentUser (connOf w st)) as [user|]; auto.
      destruct (isDesktop user); auto.
      destruct (JsMap.get roomCode (rooms st)) as [room|] eqn:Hget; auto.
      destruct (capped_get _ Hc Hget) as [Hm Hs]. cbn [fst].
      eapply capped_setRoom with (st := st); [reflexivity|exact Hc|exact Hm|exact Hs].
    + unfold handleUserCommand.
      destruct (truthy (currentRoom (connOf w st))) as [roomCode|]; auto.
      destruct (currentUser (connOf w st)) as [user|]; auto.
      destruct (JsMap.get roomCode (rooms st)) as [room|]; auto.
      destruct (ws (host room)); auto.
    + unfold handleChatMessage.
      destruct (truthy (currentRoom (connOf w st))) as [roomCode|]; auto.
      destruct (currentUser (connOf w st)) as [user|]; auto.
    + exact Hc.
  - unfold onClose.
    destruct (currentUser (connOf w st)) as [user|]; auto.
    destruct (truthy (currentRoom (connOf w st))) as [roomCode|]; auto.
    cbn [fst]. now apply capped_leaveRoom.
  - unfold capped. simpl. unfold sweep.
    apply Forall_forall. intros kv Hin. apply filter_In in Hin.
    exact (proj1 (Forall_forall _ _) Hc _ (proj1 Hin)).
Qed.

Lemma run_capped evs : forall st,
  forallb (fun x => notWebJoin (snd x)) evs = true ->
  capped st -> capped (fst (run evs st)).
Proof.
  induction evs as [|[[opened now] e] evs IH]; intros st Hall Hc; simpl; auto.
  simpl in Hall. apply andb_prop in Hall. destruct Hall as [He Hall].
  apply IH; auto. now apply step_capped.
Qed.
End Capacity.

(** X16. The capacity holds on every path but the participant branch of
    JOIN_ROOM: in a run from start-up that contains no JOIN_ROOM frame of
    a participant, every room has [maxUsers] 50 and at most 50
    participants, whatever numbers of HTTP joins, registrations, leaves,
    closes and sweeps occur. *)
Theorem capacity_without_web_join
        (evs : list (list RoomServer.WS * Z * RoomServer.Event))
        (roomCode : string) (room : RoomServer.Room) :
  forallb (fun x => RoomServer.notWebJoin (snd x)) evs = true ->
  JsMap.get roomCode (RoomServer.rooms (fst (RoomServer.run evs RoomServer.initial)))
  = Some room ->
  RoomServer.maxUsers (RoomServer.settings room) = 50
  /\ JsMap.size (RoomServer.users room) <= 50.
Proof.
  intros Hall Hget.
  assert (RoomServer.capped (fst (RoomServer.run evs RoomServer.initial))) as Hc.
  { apply run_capped; auto. constructor. }
  exact (capped_get _ Hc Hget).
Qed.

Lemma capacity_without_web_join_witness :
  let evs := Samples.hosted
             ++ map (fun k => ([], Z.of_nat k,
                               RoomServer.PostJoin "AB12CD" None None (Samples.uuidOf k)))
                    (seq 2 60) in
  exists room,
    JsMap.get "AB12CD" (RoomServer.rooms (fst (RoomServer.run evs RoomServer.initial)))
    = Some room
    /\ JsMap.size (RoomServer.users room) = 50.
Proof.
  intros evs.
  assert (exists room,
             JsMap.get "AB12CD"
               (RoomServer.rooms (fst (RoomServer.run evs RoomServer.initial)))
             = Some room /\ 50 <= JsMap.size (RoomServer.users room)) as (room & Hget & Hge).
  { vm_compute. eexists. split; [reflexivity|]. vm_compute. repeat constructor. }
  exists room. split; [exact Hget|].
  assert (forallb (fun x => RoomServer.notWebJoin (snd x)) evs = true) as Hall
      by (vm_compute; reflexivity).
  destruct (@capacity_without_web_join evs "AB12CD" room Hall Hget) as [_ Hle].
  lia.
Defined.

Section ConnFacts.
Import RoomServer.

Lemma connOf_setConn w c st : connOf w (setConn w c st) = c.
Proof. unfold connOf, setConn. simpl. now rewrite get_set_eq. Qed.

Lemma connOf_setConn_other w w' c st :
  w <> w' -> connOf w' (setConn w c st) = connOf w' st.
Proof. intros Hne. unfold connOf, setConn. simpl. now rewrite get_set_ne. Qed.

Lemma connOf_setRooms w rs st : connOf w (setRooms rs st) = connOf w st.
Proof. reflexivity. Qed.

Lemma onClose_unattached env w now st :
  currentUser (connOf w st) = None -> onClose env w now st = (st, []).
Proof. intros Hu. unfold onClose. now rewrite Hu. Qed.
End ConnFacts.

Section FlatMaps.
Context {K V A : Type} `{Key K}.
Variable g : V -> list A.
Implicit Types (m : JsMap.t K V) (k : K) (v : V).

Lemma flat_In m k v x : In (k, v) m -> In x (g v) -> In x (flatOf g m).
Proof.
  intros Hin Hx. unfold flatOf. apply in_flat_map. exists (k, v). auto.
Qed.

Lemma flat_get_In m k v x : JsMap.get k m = Some v -> In x (g v) -> In x (flatOf g m).
Proof. intros Hget. apply flat_In with (k := k). now apply get_In. Qed.

Lemma flat_set_In m k v x :
  In x (flatOf g (JsMap.set k v m)) -> In x (g v) \/ In x (flatOf g m).
Proof.
  induction m as [|[k' v'] m IH]; simpl.
  - rewrite app_nil_r. auto.
  - destruct (keq k k'); simpl; rewrite !in_app_iff; [tauto|].
    intros [Hx|Hx]; [tauto|]. destruct (IH Hx); tauto.
Qed.

(** With one entry per key, what [set] keeps comes from the other keys. *)
Lemma flat_set_In_other m k v x :
  NoDup (JsMap.keys m) ->
  In x (flatOf g (JsMap.set k v m)) ->
  In x (g v) \/ exists k' v', k' <> k /\ In (k', v') m /\ In x (g v').
Proof.
  induction m as [|[k' v'] m IH]; simpl; intros Hnd.
  - rewrite app_nil_r. auto.
  - inversion Hnd as [|? ? Hnot Hnd']; subst.
    destruct (keq_spec k k') as [->|Hne]; simpl; rewrite !in_app_iff.
    + intros [Hx|Hx]; [tauto|]. right.
      apply in_flat_map in Hx. destruct Hx as ([k0 v0] & Hin & Hx).
      exists k0, v0. split; [|tauto].
      intros ->. apply Hnot. change k' with (fst (k', v0)). now apply in_map.
    + intros [Hx|Hx].
      * right. exists k', v'. auto.
      * destruct (IH Hnd' Hx) as [Hv|(k0 & v0 & H0 & Hin & Hx0)]; [tauto|].
        right. exists k0, v0. auto.
Qed.

Lemma flat_filter_In (f : K * V -> bool) m x :
  In x (flatOf g (filter f m)) -> In x (flatOf g m).
Proof.
  unfold flatOf. rewrite !in_flat_map. intros (kv & Hin & Hx).
  apply filter_In in Hin. exists kv. tauto.
Qed.

Lemma flat_set_same m k v v0 :
  JsMap.get k m = Some v0 -> g v = g v0 -> flatOf g (JsMap.set k v m) = flatOf g m.
Proof.
  intros Hget Hg. induction m as [|[k' v'] m IH]; simpl in *; [discriminate|].
  destruct (keq k k'); simpl.
  - injection Hget as ->. now rewrite Hg.
  - f_equal. auto.
Qed.

Lemma flat_get_NoDup m k v : NoDup (flatOf g m) -> In (k, v) m -> NoDup (g v).
Proof.
  induction m as [|[k' v'] m IH]; simpl; [tauto|].
  intros Hnd [[= -> ->]|Hin].
  - eapply NoDup_app_remove_r; eauto.
  - apply IH; auto. eapply NoDup_app_remove_l; eauto.
Qed.

Lemma NoDup_app_disjoint (l l' : list A) x :
  NoDup (l ++ l') -> In x l -> In x l' -> False.
Proof.
  induction l as [|a l IH]; simpl; [tauto|].
  intros Hnd [->|Hx] Hx'.
  - inversion Hnd; subst. rewrite in_app_iff in *. tauto.
  - inversion Hnd; subst. auto.
Qed.

(** What two different keys hold has nothing in common. *)
Lemma flat_disjoint m k1 v1 k2 v2 x :
  NoDup (flatOf g m) -> In (k1, v1) m -> In (k2, v2) m -> k1 <> k2 ->
  In x (g v1) -> In x (g v2) -> False.
Proof.
  induction m as [|[k' v'] m IH]; simpl; [tauto|].
  intros Hnd [[= -> ->]|H1] [[= -> ->]|H2] Hne Hx1 Hx2.
  - congruence.
  - eapply NoDup_app_disjoint; eauto. eapply flat_In; eauto.
  - eapply NoDup_app_disjoint; eauto. eapply flat_In; eauto.
  - apply IH; auto. eapply NoDup_app_remove_l; eauto.
Qed.

Lemma flat_filter_NoDup (f : K * V -> bool) m :
  NoDup (flatOf g m) -> NoDup (flatOf g (filter f m)).
Proof.
  induction m as [|[k v] m IH]; simpl; auto.
  intros Hnd. pose proof (NoDup_app_remove_l _ _ Hnd) as Hm.
  destruct (f (k, v)); simpl; auto.
  apply NoDup_app; auto.
  - eapply NoDup_app_remove_r; eauto.
  - intros x Hx Hx'. apply flat_filter_In in Hx'.
    eapply NoDup_app_disjoint; eauto.
Qed.

(** [set] keeps what is held apart, when what the new value holds is
    either new to the map or held by the value it replaces. *)
Lemma flat_set_NoDup m k v :
  NoDup (flatOf g m) -> NoDup (g v) ->
  (forall x, In x (g v) -> In x (flatOf g m) ->
             exists v0, JsMap.get k m = Some v0 /\ In x (g v0)) ->
  NoDup (flatOf g (JsMap.set k v m)).
Proof.
  induction m as [|[k' v'] m IH]; simpl; intros Hnd Hv Hold.
  - now rewrite app_nil_r.
  - pose proof (NoDup_app_remove_l _ _ Hnd) as Hm.
    pose proof (NoDup_app_remove_r _ _ Hnd) as Hv'.
    destruct (keq_spec k k') as [->|Hne]; simpl.
    + apply NoDup_app; auto. intros x Hx Hx'.
      destruct (Hold x Hx) as (v0 & [= <-] & Hx0).
      * apply in_app_iff. now right.
      * eapply NoDup_app_disjoint; eauto.
    + apply NoDup_app; auto.
      * apply IH; auto. intros x Hx Hx'.
        destruct (Hold x Hx) as (v0 & Hget & Hx0); [apply in_app_iff; now right|].
        eauto.
      * intros x Hx Hx'. apply flat_set_In in Hx'. destruct Hx' as [Hxv|Hxm].
        -- destruct (Hold x Hxv) as (v0 & Hget & Hx0); [apply in_app_iff; now left|].
           eapply NoDup_app_disjoint; eauto. eapply flat_get_In; eauto.
        -- eapply NoDup_app_disjoint; eauto.
Qed.
End FlatMaps.

Section FlatImages.
Context {K V A B : Type} `{Key K}.

Lemma flat_map_values (g : V -> list A) (h : V -> V) (f : A -> A) (m : JsMap.t K V) :
  (forall v, g (h v) = map f (g v)) ->
  flatOf g (map (fun kv => (fst kv, h (snd kv))) m) = map f (flatOf g m).
Proof.
  intros Hg. induction m as [|[k v] m IH]; simpl; auto.
  now rewrite map_app, Hg, IH.
Qed.

Lemma get_map_values (h : V -> V) (m : JsMap.t K V) k :
  JsMap.get k (map (fun kv => (fst kv, h (snd kv))) m) = option_map h (JsMap.get k m).
Proof.
  induction m as [|[k' v] m IH]; simpl; auto. now destruct (keq k k').
Qed.

Lemma flat_single (f : V -> B) (m : JsMap.t K V) :
  flatOf (fun v => [f v]) m = map f (map snd m).
Proof. induction m as [|[k v] m IH]; simpl; auto. now f_equal. Qed.
End FlatImages.

Section References.
Import RoomServer.

Lemma assignWs_oid o v u : oid (assignWs o v u) = oid u.
Proof. unfold assignWs. now destruct (Nat.eqb (oid u) o). Qed.

Lemma assignWs_same o v u : oid u = o -> assignWs o v u = setWs v u.
Proof. unfold assignWs. intros ->. now rewrite Nat.eqb_refl. Qed.

Lemma assignWs_other o v u : oid u <> o -> assignWs o v u = u.
Proof. unfold assignWs. intros Hne. now destruct (Nat.eqb_spec (oid u) o). Qed.

Lemma connOf_assignConns o v w st :
  connOf w (assignConns o v st) = assignConn o v (connOf w st).
Proof.
  unfold connOf, assignConns. cbn [conns]. rewrite get_map_values.
  now destruct (JsMap.get w (conns st)).
Qed.

Lemma connRefs_assign o v cs :
  connRefs (map (fun kv => (fst kv, assignConn o v (snd kv))) cs)
  = map (assignWs o v) (connRefs cs).
Proof.
  unfold connRefs. apply flat_map_values. intros c. unfold connRef, assignConn. simpl.
  now destruct (currentUser c).
Qed.

Lemma storeOids_map rs : flatOf roomOids rs = map oid (storeRefs rs).
Proof.
  unfold storeRefs, flatOf. induction rs as [|[k r] rs IH]; simpl; auto.
  rewrite map_app, IH. reflexivity.
Qed.

Lemma refs_In st x :
  In x (refs st) <-> In x (storeRefs (rooms st)) \/ In x (connRefs (conns st)).
Proof. unfold refs. apply in_app_iff. Qed.

Lemma connOf_ref w st u : currentUser (connOf w st) = Some u -> In u (refs st).
Proof.
  unfold connOf. destruct (JsMap.get w (conns st)) as [c|] eqn:Hget; [|discriminate].
  intros Hu. apply refs_In. right. unfold connRefs.
  eapply flat_get_In; eauto. unfold connRef. rewrite Hu. now left.
Qed.

Lemma host_ref st roomCode room :
  JsMap.get roomCode (rooms st) = Some room -> In (host room) (refs st).
Proof.
  intros Hget. apply refs_In. left. unfold storeRefs.
  eapply flat_get_In; eauto. now left.
Qed.

Lemma user_ref st roomCode room userId u :
  JsMap.get roomCode (rooms st) = Some room -> JsMap.get userId (users room) = Some u ->
  In u (refs st).
Proof.
  intros Hget Hu. apply refs_In. left. unfold storeRefs.
  eapply flat_get_In; eauto. right. apply get_In in Hu.
  change u with (snd (userId, u)). now apply in_map.
Qed.

Lemma coherent_below st x : coherent st -> In x (refs st) -> oid x < nextOid st.
Proof. intros (_ & Hlt & _). apply Hlt. Qed.

Lemma store_below st o :
  coherent st -> In o (flatOf roomOids (rooms st)) -> o < nextOid st.
Proof.
  intros Hc Hin. rewrite storeOids_map in Hin. apply in_map_iff in Hin.
  destruct Hin as (x & <- & Hx). apply (@coherent_below _ _ Hc). apply refs_In. now left.
Qed.

Lemma userOids_map (us : JsMap.t string User) :
  flatOf userOid us = map oid (map snd us).
Proof. apply (flat_single oid). Qed.

(** What a room holds apart: the host is none of the participants and no
    participant is held twice. *)
Lemma room_apart st roomCode room :
  coherent st -> JsMap.get roomCode (rooms st) = Some room ->
  ~ In (oid (host room)) (map oid (map snd (users room)))
  /\ NoDup (flatOf userOid (users room)).
Proof.
  intros (Hnd & _) Hget. apply get_In in Hget.
  pose proof (@flat_get_NoDup _ _ _ roomOids _ _ _ Hnd Hget) as Hr. simpl in Hr.
  inversion Hr; subst. split; auto. now rewrite userOids_map.
Qed.

Lemma users_as_flat (us : JsMap.t string User) : map snd us = flatOf (fun u => [u]) us.
Proof. rewrite flat_single. now rewrite map_id. Qed.

(** The new state refers to images of what the old state referred to,
    under a map that keeps identities. *)
Lemma coherent_image (f : User -> User) st st' :
  (forall u, oid (f u) = oid u) ->
  coherent st ->
  NoDup (flatOf roomOids (rooms st')) ->
  nextOid st <= nextOid st' ->
  (forall x, In x (refs st') -> exists y, In y (refs st) /\ x = f y) ->
  coherent st'.
Proof.
  intros Hf (Hnd & Hlt & Hag) Hnd' Hn Him. split; [exact Hnd'|]. split.
  - intros u Hu. destruct (Him u Hu) as (y & Hy & ->). rewrite Hf.
    specialize (Hlt y Hy). lia.
  - intros u v Hu Hv Ho.
    destruct (Him u Hu) as (y & Hy & ->). destruct (Him v Hv) as (z & Hz & ->).
    rewrite !Hf in Ho. now rewrite (Hag y z Hy Hz Ho).
Qed.

Lemma coherent_kept st st' :
  coherent st ->
  NoDup (flatOf roomOids (rooms st')) ->
  nextOid st <= nextOid st' ->
  (forall x, In x (refs st') -> In x (refs st)) ->
  coherent st'.
Proof.
  intros Hc Hnd Hn Hsub. apply (@coherent_image (fun u => u) st); auto.
  intros x Hx. exists x. auto.
Qed.

(** The new state refers to what the old state referred to and to one
    newly allocated object. *)
Lemma coherent_fresh u0 st st' :
  coherent st ->
  NoDup (flatOf roomOids (rooms st')) ->
  oid u0 = nextOid st -> nextOid st' = S (nextOid st) ->
  (forall x, In x (refs st') -> In x (refs st) \/ x = u0) ->
  coherent st'.
Proof.
  intros (Hnd & Hlt & Hag) Hnd' Ho Hn Him. split; [exact Hnd'|]. split.
  - intros u Hu. destruct (Him u Hu) as [Hold| ->].
    + specialize (Hlt u Hold). lia.
    + lia.
  - intros u v Hu Hv Huv.
    destruct (Him u Hu) as [Hu'| ->], (Him v Hv) as [Hv'| ->]; auto.
    + specialize (Hlt u Hu'). lia.
    + specialize (Hlt v Hv'). lia.
Qed.

(** Replacing a room by one that holds the same objects. *)
Lemma store_same rs roomCode room room' :
  JsMap.get roomCode rs = Some room -> roomRefs room' = roomRefs room ->
  flatOf roomOids (JsMap.set roomCode room' rs) = flatOf roomOids rs
  /\ storeRefs (JsMap.set roomCode room' rs) = storeRefs rs.
Proof.
  intros Hget Hr. split.
  - eapply flat_set_same; eauto. unfold roomOids. now rewrite Hr.
  - unfold storeRefs. eapply flat_set_same; eauto.
Qed.

(** [room.host.ws = v] in the store. *)
Lemma store_assign_host st roomCode room room' v :
  keyed st -> coherent st -> JsMap.get roomCode (rooms st) = Some room ->
  host room' = setWs v (host room) -> users room' = users room ->
  NoDup (flatOf roomOids (JsMap.set roomCode room' (rooms st)))
  /\ forall x, In x (storeRefs (JsMap.set roomCode room' (rooms st))) ->
               exists y, In y (storeRefs (rooms st))
                         /\ x = assignWs (oid (host room)) v y.
Proof.
  intros (Hkeys & _) Hc Hget Hh Hu. pose proof Hc as (Hnd & _).
  destruct (@room_apart _ _ _ Hc Hget) as [Hhost _].
  split.
  - assert (roomOids room' = roomOids room) as Heq.
    { unfold roomOids, roomRefs. now rewrite Hh, Hu. }
    now rewrite (flat_set_same roomOids (rooms st) roomCode room' Hget Heq).
  - intros x Hx. unfold storeRefs in Hx.
    apply flat_set_In_other in Hx; auto.
    destruct Hx as [Hx|(k' & r' & Hk & Hin & Hx)].
    + unfold roomRefs in Hx. rewrite Hh, Hu in Hx. destruct Hx as [<-|Hx].
      * exists (host room). split; [|now rewrite assignWs_same].
        unfold storeRefs. eapply flat_get_In; eauto. now left.
      * exists x. split.
        -- unfold storeRefs. eapply flat_get_In; eauto. now right.
        -- rewrite assignWs_other; auto. intros Ho. apply Hhost. rewrite <- Ho.
           now apply in_map.
    + exists x. split; [unfold storeRefs; eapply flat_In; eauto|].
      rewrite assignWs_other; auto. intros Ho.
      apply (@flat_disjoint _ _ _ roomOids _ _ _ _ _ (oid x) Hnd Hin (get_In _ _ Hget) Hk).
      * now apply in_map.
      * rewrite Ho. now left.
Qed.

(** [user.ws = v] for a participant of the store. *)
Lemma store_assign_user st roomCode room userId user0 v :
  keyed st -> coherent st -> JsMap.get roomCode (rooms st) = Some room ->
  JsMap.get userId (users room) = Some user0 ->
  let room' := setUsers (JsMap.set userId (setWs v user0) (users room)) room in
  NoDup (flatOf roomOids (JsMap.set roomCode room' (rooms st)))
  /\ forall x, In x (storeRefs (JsMap.set roomCode room' (rooms st))) ->
               exists y, In y (storeRefs (rooms st)) /\ x = assignWs (oid user0) v y.
Proof.
  intros Hk Hc Hget Hu0 room'. pose proof Hk as (Hkeys & _). pose proof Hc as (Hnd & _).
  destruct (@room_apart _ _ _ Hc Hget) as [Hhost Husers].
  destruct (keyed_room_get _ Hk Hget) as (_ & _ & Hukeys & _). simpl in Hukeys.
  assert (In user0 (map snd (users room))) as Hin0.
  { apply get_In in Hu0. change user0 with (snd (userId, user0)). now apply in_map. }
  split.
  - assert (roomOids room' = roomOids room) as Heq.
    { unfold roomOids, roomRefs, room'. simpl. f_equal.
      rewrite <- !userOids_map. eapply flat_set_same; eauto. }
    now rewrite (flat_set_same roomOids (rooms st) roomCode room' Hget Heq).
  - intros x Hx. unfold storeRefs in Hx.
    apply flat_set_In_other in Hx; auto.
    destruct Hx as [Hx|(k' & r' & Hne & Hin & Hx)].
    + unfold roomRefs, room' in Hx. simpl in Hx. destruct Hx as [<-|Hx].
      * exists (host room). split; [unfold storeRefs; eapply flat_get_In; eauto; now left|].
        rewrite assignWs_other; auto. intros Ho. apply Hhost. rewrite Ho.
        now apply in_map.
      * rewrite users_as_flat in Hx. apply flat_set_In_other in Hx; auto.
        destruct Hx as [[<-|[]]|(id' & u1 & Hid & Hin1 & [<-|[]])].
        -- exists user0. split; [|now rewrite assignWs_same].
           unfold storeRefs. eapply flat_get_In; eauto. now right.
        -- exists u1. split.
           ++ unfold storeRefs. eapply flat_get_In; eauto. right.
              change u1 with (snd (id', u1)). now apply in_map.
           ++ rewrite assignWs_other; auto. intros Ho.
              apply (@flat_disjoint _ _ _ userOid _ _ _ _ _ (oid u1) Husers Hin1
                                    (get_In _ _ Hu0) Hid); simpl; auto.
    + exists x. split; [unfold storeRefs; eapply flat_In; eauto|].
      rewrite assignWs_other; auto. intros Ho.
      apply (@flat_disjoint _ _ _ roomOids _ _ _ _ _ (oid x) Hnd Hin (get_In _ _ Hget) Hne).
      * now apply in_map.
      * rewrite Ho. right. now apply in_map.
Qed.

(** A newly allocated participant is put into a room. *)
Lemma store_join st roomCode room u now :
  coherent st -> JsMap.get roomCode (rooms st) = Some room -> oid u = nextOid st ->
  let room' := setLastActivity now (setUsers (JsMap.set (id u) u (users room)) room) in
  NoDup (flatOf roomOids (JsMap.set roomCode room' (rooms st)))
  /\ forall x, In x (storeRefs (JsMap.set roomCode room' (rooms st))) ->
               In x (storeRefs (rooms st)) \/ x = u.
Proof.
  intros Hc Hget Ho room'. pose proof Hc as (Hnd & _).
  destruct (@room_apart _ _ _ Hc Hget) as [Hhost Husers].
  assert (forall x, In x (map snd (JsMap.set (id u) u (users room))) ->
                    In x (map snd (users room)) \/ x = u) as Hnew.
  { intros x Hx. rewrite !users_as_flat in *. apply flat_set_In in Hx.
    destruct Hx as [[<-|[]]|Hx]; auto. }
  assert (forall x, In x (map snd (users room)) -> oid x < nextOid st) as Hlow.
  { intros x Hx. apply (@coherent_below _ _ Hc). apply refs_In. left.
    unfold storeRefs. eapply flat_get_In; eauto. now right. }
  pose proof (@coherent_below _ _ Hc (@host_ref _ _ _ Hget)) as Hhlow.
  split.
  - apply flat_set_NoDup; auto.
    + unfold roomOids, roomRefs, room'. cbn [host users setLastActivity setUsers map]. constructor.
      * intros Hin. apply in_map_iff in Hin. destruct Hin as (x & Hox & Hx).
        destruct (Hnew x Hx) as [Hold| ->]; [|lia].
        apply Hhost. rewrite <- Hox. now apply in_map.
      * rewrite <- userOids_map. apply flat_set_NoDup; auto.
        -- simpl. repeat constructor. intros [].
        -- intros o [<-|[]] Hin. rewrite userOids_map in Hin.
           apply in_map_iff in Hin. destruct Hin as (x & Hox & Hx).
           specialize (Hlow x Hx). lia.
    + intros o Hin Hold. exists room. split; auto.
      unfold roomOids, roomRefs, room' in *. cbn [host users setLastActivity setUsers map] in *.
      destruct Hin as [<-|Hin]; [now left|].
      apply in_map_iff in Hin. destruct Hin as (x & <- & Hx).
      destruct (Hnew x Hx) as [Hx'| ->].
      * right. now apply in_map.
      * pose proof (@store_below _ _ Hc Hold). lia.
  - intros x Hx. unfold storeRefs in Hx. apply flat_set_In in Hx.
    destruct Hx as [Hx|Hx]; auto.
    unfold roomRefs, room' in Hx. cbn [host users setLastActivity setUsers map] in Hx. destruct Hx as [<-|Hx].
    + left. unfold storeRefs. eapply flat_get_In; eauto. now left.
    + destruct (Hnew x Hx) as [Hx'| ->]; auto.
      left. unfold storeRefs. eapply flat_get_In; eauto. now right.
Qed.

(** A participant is taken out of a room. *)
Lemma store_remove st roomCode room room' userId :
  coherent st -> JsMap.get roomCode (rooms st) = Some room ->
  host room' = host room -> users room' = JsMap.delete userId (users room) ->
  NoDup (flatOf roomOids (JsMap.set roomCode room' (rooms st)))
  /\ forall x, In x (storeRefs (JsMap.set roomCode room' (rooms st))) ->
               In x (storeRefs (rooms st)).
Proof.
  intros Hc Hget Hh Hu. pose proof Hc as (Hnd & _).
  destruct (@room_apart _ _ _ Hc Hget) as [Hhost Husers].
  assert (forall x, In x (map snd (users room')) -> In x (map snd (users room))) as Hsub.
  { intros x Hx. rewrite Hu in Hx. rewrite !users_as_flat in *.
    unfold JsMap.delete in Hx. now apply flat_filter_In in Hx. }
  split.
  - apply flat_set_NoDup; auto.
    + unfold roomOids, roomRefs. cbn [host users setLastActivity setUsers map]. rewrite Hh. constructor.
      * intros Hin. apply in_map_iff in Hin. destruct Hin as (x & Hox & Hx).
        apply Hhost. rewrite <- Hox. apply in_map. auto.
      * rewrite <- userOids_map, Hu. now apply flat_filter_NoDup.
    + intros o Hin _. exists room. split; auto.
      unfold roomOids, roomRefs in *. cbn [host users setLastActivity setUsers map] in *. rewrite Hh in Hin.
      destruct Hin as [<-|Hin]; [now left|].
      right. apply in_map_iff in Hin. destruct Hin as (x & <- & Hx).
      apply in_map. auto.
  - intros x Hx. unfold storeRefs in *. apply flat_set_In in Hx.
    destruct Hx as [Hx|Hx]; auto.
    eapply flat_get_In; eauto. unfold roomRefs in *. rewrite Hh in Hx.
    destruct Hx as [<-|Hx]; [now left|right; auto].
Qed.

Lemma store_filter st (f : string * Room -> bool) :
  coherent st ->
  NoDup (flatOf roomOids (filter f (rooms st)))
  /\ forall x, In x (storeRefs (filter f (rooms st))) -> In x (storeRefs (rooms st)).
Proof.
  intros (Hnd & _). split; [now apply flat_filter_NoDup|].
  intros x. apply flat_filter_In.
Qed.

Lemma store_leaveRoom st roomCode userId now :
  coherent st ->
  NoDup (flatOf roomOids (leaveRoom roomCode userId now (rooms st)))
  /\ forall x, In x (storeRefs (leaveRoom roomCode userId now (rooms st))) ->
               In x (storeRefs (rooms st)).
Proof.
  intros Hc. unfold leaveRoom.
  destruct (JsMap.get roomCode (rooms st)) as [room|] eqn:Hget.
  - destruct (JsMap.size _ =? 0)%nat.
    + apply store_filter; auto.
    + apply (@store_remove st roomCode room _ userId Hc Hget); reflexivity.
  - split; [apply Hc|auto].
Qed.

(** A newly allocated host gets a room of its own. *)
Lemma store_create st hostInfo custom random now :
  coherent st -> oid hostInfo = nextOid st ->
  let rs := snd (createRoom hostInfo custom random now (rooms st)) in
  NoDup (flatOf roomOids rs)
  /\ forall x, In x (storeRefs rs) -> In x (storeRefs (rooms st)) \/ x = hostInfo.
Proof.
  intros Hc Ho rs. subst rs. unfold createRoom. cbn [snd]. pose proof Hc as (Hnd & _).
  split.
  - apply flat_set_NoDup; auto.
    + simpl. repeat constructor. intros [].
    + intros o [<-|[]] Hin. pose proof (@store_below _ _ Hc Hin). simpl in *. lia.
  - intros x Hx. unfold storeRefs in Hx. apply flat_set_In in Hx.
    destruct Hx as [[<-|[]]|Hx]; auto.
Qed.

Lemma connRefs_set_In cs w c x :
  In x (connRefs (JsMap.set w c cs)) -> In x (connRef c) \/ In x (connRefs cs).
Proof. apply flat_set_In. Qed.

(** The shape of the states that the handlers with an assignment to [ws]
    return. *)
Lemma coherent_assigned o v w c rs' st :
  coherent st ->
  NoDup (flatOf roomOids rs') ->
  (forall x, In x (storeRefs rs') ->
             exists y, In y (storeRefs (rooms st)) /\ x = assignWs o v y) ->
  (forall x, In x (connRef c) -> exists y, In y (refs st) /\ x = assignWs o v y) ->
  coherent (setConn w c (setRooms rs' (assignConns o v st))).
Proof.
  intros Hc Hnd Hstore Hconn.
  apply (@coherent_image (assignWs o v) st); auto.
  - apply assignWs_oid.
  - intros x Hx. apply refs_In in Hx.
    cbn [rooms conns setConn setRooms assignConns] in Hx.
    destruct Hx as [Hx|Hx].
    + destruct (Hstore x Hx) as (y & Hy & ->). exists y. split; auto.
      apply refs_In. now left.
    + apply connRefs_set_In in Hx. destruct Hx as [Hx|Hx]; auto.
      rewrite connRefs_assign in Hx. apply in_map_iff in Hx.
      destruct Hx as (y & <- & Hy). exists y. split; auto. apply refs_In. now right.
Qed.

(** The shape of the states that the other handlers return. *)
Lemma coherent_updated w c rs' st :
  coherent st ->
  NoDup (flatOf roomOids rs') ->
  (forall x, In x (storeRefs rs') -> In x (storeRefs (rooms st))) ->
  (forall x, In x (connRef c) -> In x (refs st)) ->
  coherent (setConn w c (setRooms rs' st)).
Proof.
  intros Hc Hnd Hstore Hconn. apply (@coherent_kept st); auto.
  intros x Hx. apply refs_In in Hx. cbn [rooms conns setConn setRooms] in Hx.
  destruct Hx as [Hx|Hx].
  - apply refs_In. left. auto.
  - apply connRefs_set_In in Hx. destruct Hx as [Hx|Hx]; auto.
    apply refs_In. now right.
Qed.

Lemma coherent_setRooms rs' st :
  coherent st ->
  NoDup (flatOf roomOids rs') ->
  (forall x, In x (storeRefs rs') -> In x (storeRefs (rooms st))) ->
  coherent (setRooms rs' st).
Proof.
  intros Hc Hnd Hstore. apply (@coherent_kept st); auto.
  intros x Hx. apply refs_In in Hx. cbn [rooms conns setRooms] in Hx.
  apply refs_In. destruct Hx as [Hx|Hx]; auto.
Qed.

Lemma coherent_cleared w st : coherent st -> coherent (setConn w noConn st).
Proof.
  intros Hc. apply (@coherent_kept st); auto; [apply Hc|].
  intros x Hx. apply refs_In in Hx. cbn [rooms conns setConn] in Hx.
  apply refs_In. destruct Hx as [Hx|Hx]; auto.
  apply connRefs_set_In in Hx. destruct Hx as [[]|Hx]; auto.
Qed.

Lemma coherent_allocated st : coherent st -> coherent (allocated st).
Proof.
  intros Hc. apply (@coherent_kept st); auto; [apply Hc|simpl; lia].
Qed.

Lemma attach_coherent w now roomCode room st :
  keyed st -> coherent st -> JsMap.get roomCode (rooms st) = Some room ->
  coherent (setConn w {| currentUser := Some (host (attachHost w now room));
                         currentRoom := Some roomCode |}
              (setRooms (JsMap.set roomCode (attachHost w now room) (rooms st))
                        (assignConns (oid (host room)) (Some w) st))).
Proof.
  intros Hk Hc Hget.
  destruct (@store_assign_host st roomCode room (attachHost w now room) (Some w)
              Hk Hc Hget eq_refl eq_refl) as [Hnd Hstore].
  apply coherent_assigned; auto.
  intros x [<-|[]]. exists (host room). split; [eapply host_ref; eauto|].
  simpl. now rewrite assignWs_same.
Qed.

Lemma roomMessage_coherent env w now uuid data st :
  keyed st -> coherent st -> coherent (fst (onMessage env w now uuid data st)).
Proof.
  intros Hk Hc. destruct data; unfold onMessage, handleWebSocketMessage; cbv beta iota.
  - (* REGISTER_HOST *)
    unfold handleRegisterHost.
    destruct (JsMap.get roomCode (rooms st)) as [room|] eqn:Hget; auto.
    cbn [fst]. now apply attach_coherent.
  - (* JOIN_ROOM *)
    unfold handleJoinRoom.
    destruct (JsMap.get roomCode (rooms st)) as [room|] eqn:Hget; auto.
    destruct (isHostType clientType); [|destruct clientInfo as [info|]; [|exact Hc]];
      cbn [fst].
    + now apply attach_coherent.
    + set (u := webUser st w now uuid (ClientInfo.name info) (ClientInfo.role info)).
      destruct (@store_join st roomCode room u now Hc Hget eq_refl) as [Hnd Hstore].
      apply (@coherent_fresh u st); auto.
      intros x Hx. apply refs_In in Hx.
      cbn [rooms conns setConn setRooms allocated] in Hx.
      destruct Hx as [Hx|Hx].
      * destruct (Hstore x Hx) as [Hold| ->]; auto. left. apply refs_In. now left.
      * apply connRefs_set_In in Hx. destruct Hx as [[<-|[]]|Hx]; auto.
        left. apply refs_In. now right.
  - (* LEAVE_ROOM *)
    unfold handleLeaveRoom.
    destruct (JsMap.get roomCode (rooms st)) as [room|] eqn:Hget; auto.
    destruct (sameObject _ _); cbn [fst].
    + match goal with
      | |- coherent (setConn _ _ (setRooms (JsMap.set _ ?r _) _)) =>
          destruct (@store_assign_host st roomCode room r None Hk Hc Hget eq_refl eq_refl)
            as [Hnd Hstore]
      end.
      apply coherent_assigned; auto. intros x [].
    + destruct (currentUser (connOf w st)) as [u|]; [|now apply coherent_cleared].
      destruct (truthy (Some (id u))) as [userId|]; [|now apply coherent_cleared].
      destruct (JsMap.has userId (users room)); [|now apply coherent_cleared].
      cbn [fst].
      match goal with
      | |- coherent (setConn _ _ (setRooms (JsMap.set _ ?r _) _)) =>
          destruct (@store_remove st roomCode room r userId Hc Hget eq_refl eq_refl)
            as [Hnd Hstore]
      end.
      apply coherent_updated; auto. intros x [].
  - (* REGISTER_USER *)
    unfold handleRegisterUser.
    destruct (JsMap.get roomCode (rooms st)) as [room|] eqn:Hget; auto.
    destruct (JsMap.get userId (users room)) as [user0|] eqn:Hu0; auto.
    cbn [fst].
    destruct (@store_assign_user st roomCode room userId user0 (Some w) Hk Hc Hget Hu0)
      as [Hnd Hstore].
    apply coherent_assigned; auto.
    intros x [<-|[]]. exists user0. split; [eapply user_ref; eauto|].
    now rewrite assignWs_same.
  - (* ROOM_STATE_UPDATE *)
    unfold handleRoomStateUpdate.
    destruct (truthy (currentRoom (connOf w st))) as [roomCode|]; auto.
    destruct (currentUser (connOf w st)) as [user|]; auto.
    destruct (isDesktop user); auto.
    destruct (JsMap.get roomCode (rooms st)) as [room|] eqn:Hget; auto.
    cbn [fst].
    match goal with
    | |- coherent (setRooms (JsMap.set _ ?r _) _) =>
        destruct (@store_same (rooms st) roomCode room r Hget eq_refl) as [Ho Hr]
    end.
    apply coherent_setRooms; auto.
    + rewrite Ho. apply Hc.
    + intros x. now rewrite Hr.
  - unfold handleUserCommand.
    destruct (truthy (currentRoom (connOf w st))) as [roomCode|]; auto.
    destruct (currentUser (connOf w st)) as [user|]; auto.
    destruct (JsMap.get roomCode (rooms st)) as [room|]; auto.
    destruct (ws (host room)); auto.
  - unfold handleChatMessage.
    destruct (truthy (currentRoom (connOf w st))) as [roomCode|]; auto.
    destruct (currentUser (connOf w st)) as [user|]; auto.
  - exact Hc.
Qed.

Lemma create_coherent st uuid hostName hostType defaultName custom random now :
  coherent st ->
  coherent (allocated
              (setRooms
                 (snd (createRoom (newHost st uuid hostName hostType defaultName now)
                                  custom random now (rooms st))) st)).
Proof.
  intros Hc.
  set (h := newHost st uuid hostName hostType defaultName now).
  destruct (@store_create st h custom random now Hc eq_refl) as [Hnd Hstore].
  apply (@coherent_fresh h st); auto.
  intros x Hx. apply refs_In in Hx. cbn [rooms conns setRooms allocated] in Hx.
  destruct Hx as [Hx|Hx].
  - destruct (Hstore x Hx) as [Hold| ->]; auto. left. apply refs_In. now left.
  - left. apply refs_In. now right.
Qed.

Lemma step_coherent env now e st :
  keyed st -> coherent st -> coherent (fst (step env now e st)).
Proof.
  intros Hk Hc. destruct e; cbn [step fst].
  - unfold postRooms. cbn [snd]. now apply create_coherent.
  - unfold postRoomsCreate.
    destruct (JsMap.has _ (rooms st)); cbn [snd]; auto.
    now apply create_coherent.
  - unfold postJoin, joinRoom.
    destruct (JsMap.get roomCode (rooms st)) as [room|] eqn:Hget;
      [|cbn [snd]; now apply coherent_allocated].
    destruct (maxUsers (settings room) <=? JsMap.size (users room))%nat;
      cbn [snd]; [now apply coherent_allocated|].
    match goal with
    | |- coherent (allocated (setRooms (JsMap.set _ (setLastActivity _
                     (setUsers (JsMap.set (id ?u0) ?u0 _) _)) _) _)) =>
        set (u := u0);
        destruct (@store_join st roomCode room u now Hc Hget eq_refl) as [Hnd Hstore]
    end.
    apply (@coherent_fresh u st); auto.
    intros x Hx. apply refs_In in Hx. cbn [rooms conns setRooms allocated] in Hx.
    destruct Hx as [Hx|Hx].
    + destruct (Hstore x Hx) as [Hold| ->]; auto. left. apply refs_In. now left.
    + left. apply refs_In. now right.
  - now apply roomMessage_coherent.
  - unfold onClose.
    destruct (currentUser (connOf w st)) as [user|]; auto.
    destruct (truthy (currentRoom (connOf w st))) as [roomCode|]; auto.
    cbn [fst]. destruct (@store_leaveRoom st roomCode (id user) now Hc) as [Hnd Hstore].
    now apply coherent_setRooms.
  - destruct (@store_filter st
                (fun kv => negb (ROOM_TIMEOUT <? now - lastActivity (snd kv))%Z) Hc)
      as [Hnd Hstore].
    now apply coherent_setRooms.
Qed.

Lemma run_coherent evs : forall st,
  keyed st -> coherent st -> coherent (fst (run evs st)).
Proof.
  induction evs as [|[[opened now] e] evs IH]; intros st Hk Hc; simpl; auto.
  apply IH; [now apply step_keyed|now apply step_coherent].
Qed.

Lemma initial_coherent : coherent initial.
Proof.
  split; [constructor|]. split; [intros u []|intros u v []].
Qed.

(** In a state of a run, a closure that refers to the host object of a
    stored room, or to one of its participants, shows the fields that the
    store shows. *)
Lemma conn_is_host w st roomCode room u :
  coherent st -> currentUser (connOf w st) = Some u ->
  JsMap.get roomCode (rooms st) = Some room ->
  oid u = oid (host room) -> u = host room.
Proof.
  intros Hc Hu Hget Ho. destruct Hc as (_ & _ & Hag).
  apply Hag; auto; [eapply connOf_ref; eauto|eapply host_ref; eauto].
Qed.

Lemma conn_is_user w st roomCode room userId u p :
  coherent st -> currentUser (connOf w st) = Some u ->
  JsMap.get roomCode (rooms st) = Some room ->
  JsMap.get userId (users room) = Some p ->
  oid u = oid p -> u = p.
Proof.
  intros Hc Hu Hget Hp Ho. destruct Hc as (_ & _ & Hag).
  apply Hag; auto; [eapply connOf_ref; eauto|eapply user_ref; eauto].
Qed.
End References.

(** X17. In every run from start-up, a connection whose current user is
    the host object of a stored room refers to the host record as the
    store has it. When it sends LEAVE_ROOM for that room the host is
    detached and the room stays: the participants are the same, [host.ws]
    is cleared, [isConnected] is set to [false], HOST_DISCONNECTED goes to
    every participant whose socket is OPEN, and the connection's closure
    is cleared, so its later close changes nothing. The assignment to
    [host.ws] shows through every other reference to the host; the current
    user of another connection attached to the room is otherwise as
    before, and a chat message it then sends is broadcast to the room's
    participants with that user, the fresh id and the clock as
    timestamp. *)
Theorem host_leave_keeps_room
        (evs : list (list RoomServer.WS * Z * RoomServer.Event))
        (env env' : RoomServer.WS -> bool) (w w2 : RoomServer.WS) (now : Z)
        (roomCode uuid message : string)
        (room : RoomServer.Room) (h p : RoomServer.User) :
  let st := fst (RoomServer.run evs RoomServer.initial) in
  JsMap.get roomCode (RoomServer.rooms st) = Some room ->
  RoomServer.currentUser (RoomServer.connOf w st) = Some h ->
  RoomServer.oid h = RoomServer.oid (RoomServer.host room) ->
  w2 <> w ->
  RoomServer.currentUser (RoomServer.connOf w2 st) = Some p ->
  RoomServer.currentRoom (RoomServer.connOf w2 st) = Some roomCode ->
  let r := RoomServer.handleLeaveRoom env w roomCode st in
  let p' := RoomServer.assignWs (RoomServer.oid (RoomServer.host room)) None p in
  h = RoomServer.host room
  /\ (exists room',
         JsMap.get roomCode (RoomServer.rooms (fst r)) = Some room'
         /\ RoomServer.users room' = RoomServer.users room
         /\ RoomServer.host room' = RoomServer.setWs None (RoomServer.host room)
         /\ RoomServer.stateIsConnected room' = Some (RoomServer.JBool false)
         /\ RoomServer.lastActivity room' = RoomServer.lastActivity room)
  /\ snd r = RoomServer.broadcastUsers env RoomServer.Out.HOST_DISCONNECTED None
                                       (RoomServer.users room)
  /\ RoomServer.connOf w (fst r) = RoomServer.noConn
  /\ RoomServer.onClose env' w now (fst r) = (fst r, [])
  /\ RoomServer.currentUser (RoomServer.connOf w2 (fst r)) = Some p'
  /\ (RoomServer.oid p <> RoomServer.oid (RoomServer.host room) -> p' = p)
  /\ (RoomServer.oid p = RoomServer.oid (RoomServer.host room) ->
      p' = RoomServer.setWs None (RoomServer.host room))
  /\ (forall q, JsMap.get (RoomServer.id p) (RoomServer.users room) = Some q ->
                RoomServer.oid q = RoomServer.oid p -> q = p /\ p' = p)
  /\ RoomServer.handleChatMessage env' w2 now uuid message (fst r)
     = (fst r,
        RoomServer.broadcastUsers env'
          (RoomServer.Out.CHAT_MESSAGE uuid p' message now) None (RoomServer.users room)).
Proof.
  intros st Hget Hh Hoid Hw2 Hp Hroom2 r p'.
  assert (RoomServer.keyed st) as Hk by (apply run_keyed, initial_keyed).
  assert (RoomServer.coherent st) as Hc
      by (apply run_coherent; [apply initial_keyed|apply initial_coherent]).
  assert (roomCode <> "") as Hne.
  { pose proof (connOf_attached w2 Hk) as Ha. unfold RoomServer.connAttached in Ha.
    now rewrite Hp, Hroom2 in Ha. }
  assert (h = RoomServer.host room) as Hhost
      by (eapply conn_is_host; eauto).
  set (o := RoomServer.oid (RoomServer.host room)) in *.
  assert (r = (RoomServer.setConn w RoomServer.noConn
                 (RoomServer.setRooms
                    (JsMap.set roomCode
                       (RoomServer.setState
                          (JsMap.set "isConnected" (RoomServer.JBool false)
                                     (RoomServer.state room))
                          (RoomServer.setHost (RoomServer.setWs None (RoomServer.host room))
                                              room))
                       (RoomServer.rooms st))
                    (RoomServer.assignConns o None st)),
               RoomServer.broadcastUsers env RoomServer.Out.HOST_DISCONNECTED None
                                         (RoomServer.users room))) as Hr.
  { subst r. unfold RoomServer.handleLeaveRoom. rewrite Hget, Hh.
    unfold RoomServer.sameObject. rewrite Hoid, Nat.eqb_refl.
    cbn [RoomServer.rooms RoomServer.setRooms].
    now rewrite broadcastToRoom_after_set. }
  assert (RoomServer.connOf w2 (fst r)
          = RoomServer.assignConn o None (RoomServer.connOf w2 st)) as Hc2.
  { rewrite Hr. cbn [fst].
    rewrite connOf_setConn_other by congruence.
    now rewrite connOf_setRooms, connOf_assignConns. }
  assert (RoomServer.oid p <> o -> p' = p) as Hkept
      by (intros Hd; now apply assignWs_other).
  rewrite Hc2. rewrite Hr. cbn [fst snd].
  split; [exact Hhost|].
  split.
  { eexists. split; [apply get_set_eq|]. cbn.
    repeat split; auto. unfold RoomServer.stateIsConnected.
    cbn [RoomServer.state RoomServer.setState]. apply get_set_eq. }
  split; [reflexivity|]. split; [apply connOf_setConn|].
  split; [apply onClose_unattached; now rewrite connOf_setConn|].
  split; [unfold RoomServer.assignConn; cbn [RoomServer.currentUser]; now rewrite Hp|].
  split; [exact Hkept|]. split.
  { intros Hsame. unfold p'. rewrite assignWs_same by exact Hsame. f_equal.
    destruct Hc as (_ & _ & Hag). apply Hag; auto.
    - eapply connOf_ref; eauto.
    - eapply host_ref; eauto. }
  split.
  { intros q Hq Hqp.
    assert (q = p) as -> by (symmetry; eapply conn_is_user; eauto).
    split; [reflexivity|]. apply Hkept. intros Ho.
    destruct (@room_apart _ _ _ Hc Hget) as [Habs _]. apply Habs.
    fold o. rewrite <- Ho. apply in_map. apply get_In in Hq.
    change p with (snd (RoomServer.id p, p)). now apply in_map. }
  unfold RoomServer.handleChatMessage.
  rewrite connOf_setConn_other by congruence.
  rewrite connOf_setRooms, connOf_assignConns.
  unfold RoomServer.assignConn. cbn [RoomServer.currentUser RoomServer.currentRoom].
  rewrite Hp, Hroom2.
  assert (truthy (Some roomCode) = Some roomCode) as ->.
  { simpl. destruct (String.eqb_spec roomCode ""); congruence. }
  cbn [option_map RoomServer.rooms RoomServer.setConn RoomServer.setRooms].
  now rewrite broadcastToRoom_after_set.
Qed.

Lemma host_leave_keeps_room_witness :
  let evs := Samples.hosted ++ Samples.crowd 2 in
  let st := fst (RoomServer.run evs RoomServer.initial) in
  let r := RoomServer.handleLeaveRoom (RoomServer.openIn [1; 2; 3]) 1 "AB12CD" st in
  snd r = [(2, RoomServer.Out.HOST_DISCONNECTED); (3, RoomServer.Out.HOST_DISCONNECTED)]
  /\ map fst (snd (RoomServer.handleChatMessage (RoomServer.openIn [2; 3]) 2 70 "m-1" "hi"
                     (fst r))) = [2; 3]
  /\ RoomServer.onClose (RoomServer.openIn [2; 3]) 1 80 (fst r) = (fst r, []).
Proof.
  intros evs st r.
  assert (exists room h p,
             JsMap.get "AB12CD" (RoomServer.rooms st) = Some room
             /\ RoomServer.currentUser (RoomServer.connOf 1 st) = Some h
             /\ RoomServer.oid h = RoomServer.oid (RoomServer.host room)
             /\ RoomServer.currentUser (RoomServer.connOf 2 st) = Some p
             /\ RoomServer.currentRoom (RoomServer.connOf 2 st) = Some "AB12CD")
    as (room & h & p & H1 & H2 & H3 & H4 & H5).
  { vm_compute. do 3 eexists. repeat split. }
  assert (2 <> 1) as Hne by discriminate.
  destruct (@host_leave_keeps_room evs (RoomServer.openIn [1; 2; 3]) (RoomServer.openIn [2; 3])
              1 2 80 "AB12CD" "m-1" "hi" room h p H1 H2 H3 Hne H4 H5)
    as (_ & _ & _ & _ & Hclose & _).
  split; [vm_compute; reflexivity|]. split; [vm_compute; reflexivity|].
  exact Hclose.
Defined.



(** X19. The two-step join. After [POST /api/rooms/:roomCode/join] has
    let a participant in (room known and not full) the participant is in
    the room without a socket; REGISTER_USER with the returned id then
    attaches the sender's socket to that participant, makes it the
    connection's current user, answers ROOM_STATE first, with the room's
    state blob and, as [isHostConnected], the value stored under the
    blob's [isConnected] key as it is, and tells the other participants
    USER_JOINED, never the sender by its own id. *)
Theorem http_join_then_register
        (env : RoomServer.WS -> bool) (w : RoomServer.WS) (now : Z)
        (roomCode uuid : string) (userName userRole : option string)
        (st : RoomServer.Server) (room : RoomServer.Room) :
  JsMap.get roomCode (RoomServer.rooms st) = Some room ->
  JsMap.size (RoomServer.users room) < RoomServer.maxUsers (RoomServer.settings room) ->
  let j := RoomServer.postJoin roomCode userName userRole uuid now st in
  let r := RoomServer.handleRegisterUser env w roomCode uuid (snd j) in
  exists u room1 room2,
    fst j = RoomServer.RoomJoined u (RoomServer.code room) (RoomServer.settings room)
                                  (JsMap.size (RoomServer.users room1))
    /\ RoomServer.id u = uuid /\ RoomServer.ws u = None
    /\ JsMap.get roomCode (RoomServer.rooms (snd j)) = Some room1
    /\ JsMap.get uuid (RoomServer.users room1) = Some u
    /\ JsMap.get roomCode (RoomServer.rooms (fst r)) = Some room2
    /\ JsMap.get uuid (RoomServer.users room2) = Some (RoomServer.setWs (Some w) u)
    /\ JsMap.size (RoomServer.users room2) = JsMap.size (RoomServer.users room1)
    /\ RoomServer.connOf w (fst r)
       = {| RoomServer.currentUser := Some (RoomServer.setWs (Some w) u);
            RoomServer.currentRoom := Some roomCode |}
    /\ snd r = (w, RoomServer.Out.ROOM_STATE
                        (RoomServer.state room)
                        (JsMap.get "isConnected" (RoomServer.state room)))
               :: RoomServer.broadcastUsers env
                    (RoomServer.Out.USER_JOINED (RoomServer.setWs (Some w) u))
                    (Some uuid) (RoomServer.users room2).
Proof.
  intros Hget Hroom j r.
  apply Nat.leb_gt in Hroom.
  set (u := {| RoomServer.oid := RoomServer.nextOid st; RoomServer.id := uuid;
               RoomServer.name := RoomServer.orElse userName "Anonymous User";
               RoomServer.type := None;
               RoomServer.role := Some (RoomServer.orElse userRole "viewer");
               RoomServer.joinedAt := now; RoomServer.ws := None |}).
  set (room1 := RoomServer.setLastActivity now
                  (RoomServer.setUsers (JsMap.set uuid u (RoomServer.users room)) room)).
  assert (j = (RoomServer.RoomJoined u (RoomServer.code room1) (RoomServer.settings room1)
                                     (JsMap.size (RoomServer.users room1)),
               RoomServer.allocated
                 (RoomServer.setRooms (JsMap.set roomCode room1 (RoomServer.rooms st)) st)))
    as Hj.
  { subst j. unfold RoomServer.postJoin, RoomServer.joinRoom. fold u.
    rewrite Hget, Hroom. reflexivity. }
  assert (JsMap.get uuid (RoomServer.users room1) = Some u) as Hu1.
  { subst room1. simpl. apply get_set_eq. }
  set (room2 := RoomServer.setUsers
                  (JsMap.set uuid (RoomServer.setWs (Some w) u) (RoomServer.users room1))
                  room1).
  assert (r = (RoomServer.setConn w
                 {| RoomServer.currentUser := Some (RoomServer.setWs (Some w) u);
                    RoomServer.currentRoom := Some roomCode |}
                 (RoomServer.setRooms
                    (JsMap.set roomCode room2 (RoomServer.rooms (snd j)))
                    (RoomServer.assignConns (RoomServer.oid u) (Some w) (snd j))),
               (w, RoomServer.Out.ROOM_STATE (RoomServer.state room2)
                                             (RoomServer.stateIsConnected room2))
               :: RoomServer.broadcastUsers env
                    (RoomServer.Out.USER_JOINED (RoomServer.setWs (Some w) u))
                    (Some uuid) (RoomServer.users room2))) as Hr.
  { subst r. unfold RoomServer.handleRegisterUser. rewrite Hj.
    cbn [snd RoomServer.rooms RoomServer.allocated RoomServer.setRooms].
    rewrite get_set_eq, Hu1. fold room2.
    cbn [RoomServer.rooms RoomServer.setConn RoomServer.setRooms RoomServer.allocated].
    now rewrite broadcastToRoom_after_set. }
  exists u, room1, room2. rewrite Hr, Hj. cbn [fst snd].
  split; [reflexivity|]. split; [reflexivity|]. split; [reflexivity|].
  split; [apply get_set_eq|]. split; [exact Hu1|].
  split; [apply get_set_eq|]. split; [apply get_set_eq|].
  split; [eapply size_set_present; eauto|].
  split; [apply connOf_setConn|reflexivity].
Qed.

Lemma http_join_then_register_witness :
  let st := fst (RoomServer.run
                   (Samples.hosted
                    ++ [([1], 15%Z,
                         RoomServer.Message 1 ""
                           (RoomServer.ROOM_STATE_UPDATE
                              (Some [("isConnected", RoomServer.JRaw "0")])))])
                   RoomServer.initial) in
  let j := RoomServer.postJoin "AB12CD" (Some "Ann") None "u-1" 20 st in
  let r := RoomServer.handleRegisterUser (RoomServer.openIn [1; 5]) 5 "AB12CD" "u-1" (snd j) in
  (exists u,
      RoomServer.currentUser (RoomServer.connOf 5 (fst r)) = Some u
      /\ RoomServer.id u = "u-1" /\ RoomServer.ws u = Some 5)
  /\ exists state others,
       snd r = (5, RoomServer.Out.ROOM_STATE state (Some (RoomServer.JRaw "0")))
               :: others.
Proof.
  intros st j r.
  assert (exists room,
             JsMap.get "AB12CD" (RoomServer.rooms st) = Some room
             /\ JsMap.size (RoomServer.users room) = 0
             /\ RoomServer.maxUsers (RoomServer.settings room) = 50
             /\ JsMap.get "isConnected" (RoomServer.state room)
                = Some (RoomServer.JRaw "0")
             /\ RoomServer.users room = [])
    as (room & Hget & Hsz & Hmax & Hraw & Hnone).
  { vm_compute. eexists. repeat split. }
  destruct (@http_join_then_register (RoomServer.openIn [1; 5]) 5 20 "AB12CD" "u-1"
              (Some "Ann") None st room Hget)
    as (u & room1 & room2 & _ & Hid & Hws & Hg1 & Hu1 & Hg2 & Hu2 & Hsize & Hconn & Hsent).
  { lia. }
  fold j r in Hconn, Hsent, Hg1, Hg2.
  split.
  - exists (RoomServer.setWs (Some 5) u). rewrite Hconn.
    split; [reflexivity|]. split; [exact Hid|reflexivity].
  - do 2 eexists. rewrite Hsent, Hraw. reflexivity.
Defined.

(** X20. Frames and requests that name a room that is not in the store
    change nothing and raise nothing. REGISTER_HOST, JOIN_ROOM (with or
    without [clientInfo]) and REGISTER_USER answer the sender with ERROR
    "Room not found"; REGISTER_USER for a known room but
    an unknown user id answers ERROR "User not found in room"; the HTTP
    join answers 400 "Room not found" and leaves the rooms as they were;
    LEAVE_ROOM answers nothing and, unlike a LEAVE_ROOM for a known room,
    leaves the connection attached. *)
Theorem unknown_room_is_refused
        (env : RoomServer.WS -> bool) (w : RoomServer.WS) (now : Z)
        (uuid roomCode known userId : string) (ct cn cr : option string)
        (ci : option RoomServer.ClientInfo.t)
        (st : RoomServer.Server) (room : RoomServer.Room) :
  JsMap.get roomCode (RoomServer.rooms st) = None ->
  JsMap.get known (RoomServer.rooms st) = Some room ->
  JsMap.get userId (RoomServer.users room) = None ->
  let notFound := (st, [(w, RoomServer.Out.ERROR "Room not found")]) in
  RoomServer.handleWebSocketMessage env w now uuid (RoomServer.REGISTER_HOST roomCode) st
  = Normal notFound
  /\ RoomServer.handleWebSocketMessage env w now uuid
       (RoomServer.JOIN_ROOM roomCode ct ci) st = Normal notFound
  /\ RoomServer.handleWebSocketMessage env w now uuid
       (RoomServer.REGISTER_USER roomCode userId) st = Normal notFound
  /\ RoomServer.handleWebSocketMessage env w now uuid
       (RoomServer.REGISTER_USER known userId) st
     = Normal (st, [(w, RoomServer.Out.ERROR "User not found in room")])
  /\ RoomServer.handleWebSocketMessage env w now uuid (RoomServer.LEAVE_ROOM roomCode) st
     = Normal (st, [])
  /\ fst (RoomServer.postJoin roomCode cn cr uuid now st)
     = RoomServer.Failed 400 "Room not found"
  /\ RoomServer.rooms (snd (RoomServer.postJoin roomCode cn cr uuid now st))
     = RoomServer.rooms st.
Proof.
  intros Hnone Hknown Huser notFound. subst notFound.
  unfold RoomServer.handleWebSocketMessage, RoomServer.handleRegisterHost,
    RoomServer.handleJoinRoom, RoomServer.handleRegisterUser,
    RoomServer.handleLeaveRoom, RoomServer.postJoin, RoomServer.joinRoom.
  rewrite Hnone, Hknown, Huser. repeat split.
Qed.

Lemma unknown_room_is_refused_witness :
  let st := fst (RoomServer.run (Samples.hosted ++ Samples.crowd 1) RoomServer.initial) in
  RoomServer.handleWebSocketMessage (RoomServer.openIn [1; 2; 7]) 7 30 "x"
    (RoomServer.REGISTER_USER "AB12CD" "nobody") st
  = Normal (st, [(7, RoomServer.Out.ERROR "User not found in room")])
  /\ RoomServer.handleWebSocketMessage (RoomServer.openIn [1; 2; 7]) 2 30 "x"
       (RoomServer.LEAVE_ROOM "ZZZZZZ") st
     = Normal (st, []).
Proof.
  intros st.
  assert (exists room,
             JsMap.get "AB12CD" (RoomServer.rooms st) = Some room
             /\ JsMap.get "nobody" (RoomServer.users room) = None)
    as (room & Hk & Hu).
  { vm_compute. eexists. split; reflexivity. }
  assert (JsMap.get "ZZZZZZ" (RoomServer.rooms st) = None) as Hn
      by (vm_compute; reflexivity).
  split.
  - exact (proj1 (proj2 (proj2 (proj2
      (@unknown_room_is_refused (RoomServer.openIn [1; 2; 7]) 7 30 "x" "ZZZZZZ" "AB12CD"
         "nobody" None None None None st room Hn Hk Hu))))).
  - exact (proj1 (proj2 (proj2 (proj2 (proj2
      (@unknown_room_is_refused (RoomServer.openIn [1; 2; 7]) 2 30 "x" "ZZZZZZ" "AB12CD"
         "nobody" None None None None st room Hn Hk Hu)))))).
Defined.

(** X21. LEAVE_ROOM is not tied to the sender's own room. When a
    connection names another existing room, of which its user is neither
    the host nor a participant, no room changes and nothing is sent, but
    the connection's closure is cleared all the same: its user stays a
    participant of its own room and the later close of the socket removes
    nothing. *)
Theorem leave_names_other_room
        (env env' : RoomServer.WS -> bool) (w : RoomServer.WS) (now : Z)
        (other : string) (st : RoomServer.Server)
        (room : RoomServer.Room) (u : RoomServer.User) :
  RoomServer.currentUser (RoomServer.connOf w st) = Some u ->
  JsMap.get other (RoomServer.rooms st) = Some room ->
  RoomServer.oid u <> RoomServer.oid (RoomServer.host room) ->
  JsMap.get (RoomServer.id u) (RoomServer.users room) = None ->
  let r := RoomServer.handleLeaveRoom env w other st in
  RoomServer.rooms (fst r) = RoomServer.rooms st
  /\ snd r = []
  /\ RoomServer.connOf w (fst r) = RoomServer.noConn
  /\ RoomServer.onClose env' w now (fst r) = (fst r, []).
Proof.
  intros Hu Hget Hoid Habs r.
  assert (r = (RoomServer.setConn w RoomServer.noConn st, [])) as Hr.
  { subst r. unfold RoomServer.handleLeaveRoom. rewrite Hget, Hu.
    unfold RoomServer.sameObject.
    destruct (Nat.eqb_spec (RoomServer.oid u) (RoomServer.oid (RoomServer.host room)));
      [contradiction|].
    destruct (truthy (Some (RoomServer.id u))) as [userId|] eqn:Ht; [|reflexivity].
    assert (userId = RoomServer.id u) as ->.
    { simpl in Ht. destruct (String.eqb (RoomServer.id u) ""); congruence. }
    unfold JsMap.has. now rewrite Habs. }
  rewrite Hr. cbn [fst snd].
  split; [reflexivity|]. split; [reflexivity|]. split; [apply connOf_setConn|].
  apply onClose_unattached. now rewrite connOf_setConn.
Qed.

Lemma leave_names_other_room_witness :
  let st := fst (RoomServer.run
                   (Samples.hosted ++ Samples.crowd 1
                    ++ [([1; 2], 40%Z,
                         RoomServer.PostRoomsCreate (Some "EF34AB") None None "h-2"
                           (Byte.x00, Byte.x00, Byte.x00) (Byte.x00, Byte.x00, Byte.x00))])
                   RoomServer.initial) in
  let r := RoomServer.handleLeaveRoom (RoomServer.openIn [1; 2]) 2 "EF34AB" st in
  (exists room, JsMap.get "AB12CD" (RoomServer.rooms (fst r)) = Some room
                /\ JsMap.keys (RoomServer.users room) = ["2"])
  /\ RoomServer.onClose (RoomServer.openIn [1]) 2 50 (fst r) = (fst r, []).
Proof.
  intros st r.
  assert (exists u room,
             RoomServer.currentUser (RoomServer.connOf 2 st) = Some u
             /\ JsMap.get "EF34AB" (RoomServer.rooms st) = Some room
             /\ RoomServer.oid u <> RoomServer.oid (RoomServer.host room)
             /\ JsMap.get (RoomServer.id u) (RoomServer.users room) = None)
    as (u & room & H1 & H2 & H3 & H4).
  { vm_compute. do 2 eexists. repeat split. discriminate. }
  destruct (@leave_names_other_room (RoomServer.openIn [1; 2]) (RoomServer.openIn [1])
              2 50 "EF34AB" st room u H1 H2 H3 H4) as (Hrooms & _ & _ & Hclose).
  fold r in Hrooms, Hclose. split; [|exact Hclose].
  rewrite Hrooms. vm_compute. eexists. split; reflexivity.
Defined.

(* ================================================================== *)
(** * Further properties of the auth server's room creation *)

Section AuthRooms.
Import AuthServer.

Lemma codeLoop_first_free draws owners k :
  k < 9 ->
  JsMap.has (generateRoomCode (draws k)) owners = false ->
  (forall j, j < k -> JsMap.has (generateRoomCode (draws j)) owners = true) ->
  codeLoop draws owners 0 = (generateRoomCode (draws k), S k).
Proof.
  intros Hk Hfree Htaken.
  destruct (codeLoop_spec draws owners 0) as (H1 & H2 & H3 & H4 & H5).
  set (r := codeLoop draws owners 0) in *.
  assert (snd r = S k) as Hn.
  { destruct (Nat.lt_trichotomy (snd r) (S k)) as [Hlt|[Heq|Hgt]]; auto.
    - assert (JsMap.has (fst r) owners = false) as Hf by (apply H4; lia).
      rewrite H3, Htaken in Hf; [discriminate|lia].
    - rewrite H5 in Hfree; [discriminate|lia|lia]. }
  rewrite (surjective_pairing r), H3, Hn. simpl. now rewrite Nat.sub_0_r.
Qed.

Lemma allRooms_push (us : JsMap.t string Account) email user code :
  JsMap.get email us = Some user ->
  Permutation
    (flat_map (fun kv => rooms (snd kv))
       (JsMap.set email {| id := id user; name := name user; email := AuthServer.email user;
                           rooms := rooms user ++ [code] |} us))
    (code :: flat_map (fun kv => rooms (snd kv)) us).
Proof.
  induction us as [|[k u] us IH]; simpl; [discriminate|].
  destruct (String.eqb_spec email k) as [->|Hne].
  - intros [= ->]. simpl. rewrite <- app_assoc. simpl.
    symmetry. apply Permutation_middle.
  - intros Hget. simpl. rewrite (IH Hget). symmetry. apply Permutation_middle.
Qed.

Lemma has_set_keeps {V : Type} (m : JsMap.t string V) k k' v :
  JsMap.has k' m = true -> JsMap.has k' (JsMap.set k v m) = true.
Proof.
  unfold JsMap.has. destruct (String.eqb_spec k k') as [<-|Hne].
  - now rewrite get_set_eq.
  - now rewrite get_set_ne.
Qed.

Lemma postRoomsCreate_owned userId userEmail draws st :
  owned st -> owned (snd (postRoomsCreate userId userEmail draws st)).
Proof.
  intros [Hnd Hown]. unfold postRoomsCreate.
  destruct (JsMap.get userEmail (users st)) as [user|] eqn:Huser; [|split; auto].
  destruct (codeLoop_spec draws (roomOwners st) 0) as (_ & _ & _ & Hfresh & _).
  set (r := codeLoop draws (roomOwners st) 0) in *.
  destruct (Nat.leb_spec 10 (snd r)) as [Hge|Hlt]; [split; auto|].
  specialize (Hfresh Hlt).
  pose proof (allRooms_push (users st) userEmail (fst r) Huser) as Hperm.
  assert (~ In (fst r) (allRooms st)) as Hnew.
  { intros Hin. apply Hown in Hin. congruence. }
  split; cbn [snd allRooms users roomOwners].
  - eapply Permutation_NoDup; [symmetry; exact Hperm|]. constructor; auto.
  - intros c Hin. eapply Permutation_in in Hin; [|exact Hperm].
    destruct Hin as [<-|Hin].
    + unfold JsMap.has. now rewrite get_set_eq.
    + apply has_set_keeps. now apply Hown.
Qed.

Lemma createAll_owned calls : forall st, owned st -> owned (createAll calls st).
Proof.
  induction calls as [|[[userId userEmail] draws] calls IH]; intros st Hst; simpl; auto.
  apply IH. now apply postRoomsCreate_owned.
Qed.
End AuthRooms.

(** X22. When the caller's account exists, the auth server's room
    creation succeeds exactly when one of the first nine draws is absent
    from the ownership map, and the room then gets the first such draw; a
    tenth draw is made when the first nine are taken, but its value is
    never used: the request fails even if that draw is free. *)
Theorem auth_creation_uses_first_nine
        (userId userEmail : string) (draws : nat -> Bytes3)
        (st : AuthServer.Server) (user : AuthServer.Account) (code : string) :
  JsMap.get userEmail (AuthServer.users st) = Some user ->
  let owners := AuthServer.roomOwners st in
  let r := AuthServer.postRoomsCreate userId userEmail draws st in
  (fst r = AuthServer.RoomCreated code userId
   <-> exists k, k < 9
                 /\ code = generateRoomCode (draws k)
                 /\ JsMap.has (generateRoomCode (draws k)) owners = false
                 /\ forall j, j < k ->
                              JsMap.has (generateRoomCode (draws j)) owners = true)
  /\ ((forall j, j < 9 -> JsMap.has (generateRoomCode (draws j)) owners = true) ->
      r = (AuthServer.Failed 500 "Failed to generate unique room code", st)).
Proof.
  intros Huser owners r. subst r. unfold AuthServer.postRoomsCreate. rewrite Huser.
  destruct (codeLoop_spec draws owners 0) as (H1 & H2 & H3 & H4 & H5).
  fold owners. set (l := AuthServer.codeLoop draws owners 0) in *.
  split; [split|].
  - destruct (Nat.leb_spec 10 (snd l)) as [Hge|Hlt]; cbn [fst]; [discriminate|].
    intros [= <-]. exists (snd l - 1).
    split; [lia|]. split; [exact H3|]. split.
    + rewrite <- H3. now apply H4.
    + intros j Hj. apply H5; lia.
  - intros (k & Hk & -> & Hfree & Htaken).
    unfold l. rewrite (codeLoop_first_free draws owners Hk Hfree Htaken).
    cbn [fst snd]. destruct (Nat.leb_spec 10 (S k)); [lia|reflexivity].
  - intros Hall.
    destruct (Nat.leb_spec 10 (snd l)) as [Hge|Hlt]; [reflexivity|].
    exfalso. specialize (H4 Hlt). rewrite H3, Hall in H4; [discriminate|lia].
Qed.

Lemma auth_creation_uses_first_nine_witness :
  let st := {| AuthServer.users :=
                 [("a@b.c", {| AuthServer.id := "user_1"; AuthServer.name := "A";
                               AuthServer.email := "a@b.c"; AuthServer.rooms := [] |})];
               AuthServer.roomOwners := [("AB12CD", "user_0")] |} in
  let lateDraws := fun k => if (k <? 9)%nat then (Byte.xab, Byte.x12, Byte.xcd)
                            else (Byte.x0f, Byte.x00, Byte.xd1) in
  AuthServer.codeLoop lateDraws (AuthServer.roomOwners st) 0 = ("0F00D1", 10)
  /\ JsMap.has "0F00D1" (AuthServer.roomOwners st) = false
  /\ AuthServer.postRoomsCreate "user_1" "a@b.c" lateDraws st
     = (AuthServer.Failed 500 "Failed to generate unique room code", st).
Proof.
  intros st lateDraws. split; [reflexivity|]. split; [reflexivity|].
  apply (proj2 (@auth_creation_uses_first_nine "user_1" "a@b.c" lateDraws st _ "" eq_refl)).
  intros j Hj. unfold lateDraws.
  apply Nat.ltb_lt in Hj. rewrite Hj. reflexivity.
Defined.

(** X23. Codes handed out by the auth server are never shared. Starting
    from a state in which no code is listed twice in the accounts' room
    lists and every listed code has an owner, the same holds after any
    sequence of room creations by any callers with any random draws; a
    created code is appended to the caller's list and owned by the
    caller's id. *)
Theorem auth_codes_never_shared
        (calls : list (string * string * (nat -> Bytes3))) (st : AuthServer.Server) :
  NoDup (AuthServer.allRooms st) ->
  (forall c, In c (AuthServer.allRooms st) ->
             JsMap.has c (AuthServer.roomOwners st) = true) ->
  let st' := AuthServer.createAll calls st in
  NoDup (AuthServer.allRooms st')
  /\ forall c, In c (AuthServer.allRooms st') ->
               JsMap.has c (AuthServer.roomOwners st') = true.
Proof.
  intros Hnd Hown st'.
  exact (createAll_owned calls (conj Hnd Hown)).
Qed.

Lemma auth_codes_never_shared_witness :
  let st := {| AuthServer.users :=
                 [("a@b.c", {| AuthServer.id := "user_1"; AuthServer.name := "A";
                               AuthServer.email := "a@b.c"; AuthServer.rooms := [] |});
                  ("d@e.f", {| AuthServer.id := "user_2"; AuthServer.name := "D";
                               AuthServer.email := "d@e.f"; AuthServer.rooms := [] |})];
               AuthServer.roomOwners := [] |} in
  let draws := fun k => match k with
                        | 0 => (Byte.xab, Byte.x12, Byte.xcd)
                        | _ => (Byte.x0f, Byte.x00, Byte.xd1)
                        end in
  let st' := AuthServer.createAll [("user_1", "a@b.c", draws); ("user_2", "d@e.f", draws)]
                                  st in
  AuthServer.allRooms st' = ["AB12CD"; "0F00D1"]
  /\ NoDup (AuthServer.allRooms st').
Proof.
  intros st draws st'. split; [reflexivity|].
  apply (@auth_codes_never_shared
           [("user_1", "a@b.c", draws); ("user_2", "d@e.f", draws)] st).
  - constructor.
  - intros c [].
Defined.

(* ================================================================== *)
(** * Accounts of the auth server *)

Section AccountRoutes.
Import AuthAccounts.
Variable hashPassword : string -> string -> string.
Variable verifyPassword : string -> string -> bool.
Variable lowerTrim : string -> string.
Variable trim : string -> string.

Lemma truthy_Some_eq s : s <> "" -> truthy (Some s) = Some s.
Proof. intros Hne. simpl. destruct (String.eqb_spec s ""); congruence. Qed.

(** What a successful registration required and stored. *)
Lemma register_success dname demail dpassword uuid salt stamp users u :
  fst (register hashPassword lowerTrim trim dname demail dpassword uuid salt stamp users)
  = Success u ->
  exists n e p,
    truthy dname = Some n /\ truthy demail = Some e /\ truthy dpassword = Some p
    /\ 6 <= String.length p
    /\ JsMap.has e users = false
    /\ snd (register hashPassword lowerTrim trim dname demail dpassword uuid salt stamp users)
       = JsMap.set e {| id := ("user_" ++ uuid)%string; name := trim n;
                        email := lowerTrim e; password := hashPassword salt p;
                        createdAt := stamp; rooms := []; lastLogin := None |} users.
Proof.
  unfold register.
  destruct (truthy dname) as [n|]; [|discriminate].
  destruct (truthy demail) as [e|]; [|discriminate].
  destruct (truthy dpassword) as [p|]; [|discriminate].
  destruct (Nat.ltb_spec (String.length p) 6); [discriminate|].
  destruct (JsMap.has e users) eqn:Hhas; [discriminate|].
  intros _. exists n, e, p. repeat split; auto.
Qed.
End AccountRoutes.

(** X24. Registration stores the account under the e-mail as received,
    login looks it up under the lower-cased, trimmed e-mail. So after a
    successful registration, logging in with the same e-mail and password
    succeeds when the e-mail is already in that form, and fails with
    "Invalid email or password" when it is not (and no other account is
    stored under the lower-cased form). *)
Theorem login_after_register
        (hashPassword : string -> string -> string)
        (verifyPassword : string -> string -> bool)
        (lowerTrim trim : string -> string)
        (n e p uuid salt stamp stamp' : string) (users : AuthAccounts.Users)
        (u : AuthAccounts.Account) :
  verifyPassword p (hashPassword salt p) = true ->
  let r := AuthAccounts.register hashPassword lowerTrim trim
             (Some n) (Some e) (Some p) uuid salt stamp users in
  fst r = AuthAccounts.Success u ->
  let l := AuthAccounts.login verifyPassword lowerTrim (Some e) (Some p) stamp' (snd r) in
  (lowerTrim e = e ->
   exists v, fst l = AuthAccounts.Success v
             /\ AuthAccounts.id v = AuthAccounts.id u
             /\ AuthAccounts.email v = e)
  /\ (lowerTrim e <> e -> JsMap.get (lowerTrim e) users = None ->
      l = (AuthAccounts.Failed 401 "Invalid email or password", snd r)).
Proof.
  intros Hverify r Hok l.
  destruct (register_success _ _ _ _ _ _ _ _ _ _ Hok)
    as (n' & e' & p' & Hn & He & Hp & Hlen & Hfree & Hstore).
  fold r in Hstore.
  assert (e' = e) as ->.
  { simpl in He. destruct (String.eqb e ""); congruence. }
  assert (p' = p) as ->.
  { simpl in Hp. destruct (String.eqb p ""); congruence. }
  assert (n' = n) as ->.
  { simpl in Hn. destruct (String.eqb n ""); congruence. }
  assert (AuthAccounts.id u = ("user_" ++ uuid)%string) as Hid.
  { subst r. unfold AuthAccounts.register in Hok. rewrite Hn, He, Hp, Hfree in Hok.
    destruct (Nat.ltb_spec (String.length p) 6); [lia|].
    cbn [fst] in Hok. injection Hok as <-. reflexivity. }
  subst l. unfold AuthAccounts.login. rewrite He, Hp, Hstore. split.
  - intros Hnorm. rewrite Hnorm, get_set_eq.
    cbn [AuthAccounts.password]. rewrite Hverify.
    eexists. split; [reflexivity|]. cbn. split; [now rewrite Hid|reflexivity].
  - intros Hnorm Hnone. rewrite get_set_ne by congruence. now rewrite Hnone.
Qed.

Lemma login_after_register_witness :
  let hash := fun salt x => (salt ++ x)%string in
  let verify := fun x h => String.eqb h ("s:" ++ x)%string in
  let lower := fun s => if String.eqb s "Ann@Stage.io" then "ann@stage.io" else s in
  let trim := fun s : string => s in
  let plain := AuthAccounts.register hash lower trim (Some "Ann") (Some "ann@stage.io")
                                     (Some "secret1") "7" "s:" "t0" [] in
  let mixed := AuthAccounts.register hash lower trim (Some "Ann") (Some "Ann@Stage.io")
                                     (Some "secret1") "7" "s:" "t0" [] in
  (exists v, fst (AuthAccounts.login verify lower (Some "ann@stage.io") (Some "secret1")
                                     "t1" (snd plain)) = AuthAccounts.Success v)
  /\ fst (AuthAccounts.login verify lower (Some "Ann@Stage.io") (Some "secret1")
                             "t1" (snd mixed))
     = AuthAccounts.Failed 401 "Invalid email or password".
Proof.
  intros hash verify lower trim plain mixed. split.
  - destruct (@login_after_register hash verify lower trim "Ann" "ann@stage.io" "secret1"
                "7" "s:" "t0" "t1" [] _ eq_refl eq_refl) as [Hyes _].
    destruct (Hyes eq_refl) as (v & Hv & _). exists v. exact Hv.
  - destruct (@login_after_register hash verify lower trim "Ann" "Ann@Stage.io" "secret1"
                "7" "s:" "t0" "t1" [] _ eq_refl eq_refl) as [_ Hno].
    refine (f_equal fst (Hno _ eq_refl)).
    vm_compute. discriminate.
Defined.

(** X25. Duplicate detection is on the e-mail as received. After a
    successful registration a second registration with the same e-mail
    string is refused with status 409 and stores nothing; with an e-mail
    that differs as a string (and is not yet a key) it succeeds even when
    both have the same lower-cased, trimmed form, so that two accounts
    then carry the same [email] field. *)
Theorem register_duplicates
        (hashPassword : string -> string -> string)
        (lowerTrim trim : string -> string)
        (n e p uuid salt stamp n2 e2 p2 uuid2 salt2 stamp2 : string)
        (users : AuthAccounts.Users) (u : AuthAccounts.Account) :
  let r := AuthAccounts.register hashPassword lowerTrim trim
             (Some n) (Some e) (Some p) uuid salt stamp users in
  fst r = AuthAccounts.Success u ->
  n2 <> "" -> e2 <> "" -> 6 <= String.length p2 ->
  AuthAccounts.register hashPassword lowerTrim trim
    (Some n2) (Some e) (Some p2) uuid2 salt2 stamp2 (snd r)
  = (AuthAccounts.Failed 409 "User with this email already exists", snd r)
  /\ (e2 <> e -> JsMap.has e2 users = false -> lowerTrim e2 = lowerTrim e ->
      exists u2,
        fst (AuthAccounts.register hashPassword lowerTrim trim
               (Some n2) (Some e2) (Some p2) uuid2 salt2 stamp2 (snd r))
        = AuthAccounts.Success u2
        /\ AuthAccounts.email u2 = AuthAccounts.email u).
Proof.
  intros r Hok Hn2 He2 Hp2.
  destruct (register_success _ _ _ _ _ _ _ _ _ _ Hok)
    as (n' & e' & p' & Hn & He & Hp & Hlen & Hfree & Hstore).
  fold r in Hstore.
  assert (e' = e) as ->.
  { simpl in He. destruct (String.eqb e ""); congruence. }
  assert (AuthAccounts.email u = lowerTrim e) as Hemail.
  { subst r. unfold AuthAccounts.register in Hok. rewrite Hn, He, Hp, Hfree in Hok.
    destruct (Nat.ltb_spec (String.length p') 6); [lia|].
    cbn [fst] in Hok. injection Hok as <-. reflexivity. }
  assert (p2 <> "") as Hp2ne.
  { intros ->. simpl in Hp2. lia. }
  assert ((String.length p2 <? 6)%nat = false) as Hlong by (apply Nat.ltb_ge; lia).
  split.
  - unfold AuthAccounts.register at 1.
    rewrite (truthy_Some_eq Hn2), He, (truthy_Some_eq Hp2ne), Hlong.
    unfold JsMap.has. now rewrite Hstore, get_set_eq.
  - intros Hne Hfree2 Hsame. unfold AuthAccounts.register at 1.
    rewrite (truthy_Some_eq Hn2), (truthy_Some_eq He2), (truthy_Some_eq Hp2ne), Hlong.
    assert (JsMap.has e2 (snd r) = false) as ->.
    { unfold JsMap.has in *. rewrite Hstore, get_set_ne by congruence. exact Hfree2. }
    eexists. split; [reflexivity|]. cbn. now rewrite Hemail.
Qed.

Lemma register_duplicates_witness :
  let hash := fun salt x => (salt ++ x)%string in
  let lower := fun s => if String.eqb s "Ann@Stage.io" then "ann@stage.io" else s in
  let trim := fun s : string => s in
  let first := AuthAccounts.register hash lower trim (Some "Ann") (Some "ann@stage.io")
                                     (Some "secret1") "7" "s:" "t0" [] in
  fst (AuthAccounts.register hash lower trim (Some "Bob") (Some "ann@stage.io")
                             (Some "secret2") "8" "s:" "t1" (snd first))
  = AuthAccounts.Failed 409 "User with this email already exists"
  /\ exists u2,
       fst (AuthAccounts.register hash lower trim (Some "Bob") (Some "Ann@Stage.io")
                                  (Some "secret2") "8" "s:" "t1" (snd first))
       = AuthAccounts.Success u2
       /\ AuthAccounts.email u2 = "ann@stage.io".
Proof.
  intros hash lower trim first.
  assert ("Bob" <> "") as Hn by discriminate.
  assert ("Ann@Stage.io" <> "") as He by discriminate.
  assert (6 <= String.length "secret2") as Hp by (simpl; lia).
  destruct (@register_duplicates hash lower trim "Ann" "ann@stage.io" "secret1" "7" "s:" "t0"
              "Bob" "Ann@Stage.io" "secret2" "8" "s:" "t1" [] _ eq_refl Hn He Hp)
    as [Hdup Hcase].
  split.
  - exact (f_equal fst Hdup).
  - destruct Hcase as (u2 & Hu2 & Hmail); [discriminate|reflexivity|reflexivity|].
    exists u2. split; [exact Hu2|]. rewrite Hmail. reflexivity.
Defined.

(** X26. A password change needs the current password and replaces only
    the hash. With a wrong current password the request is refused with
    status 401 and nothing changes, whatever the new password; with the
    right one and a new password of at least six characters the stored
    hash becomes that of the new password, every other account is
    untouched, and a login with the new password then succeeds when the
    key is a non-empty e-mail in lower-cased, trimmed form. *)
Theorem password_change
        (hashPassword : string -> string -> string)
        (verifyPassword : string -> string -> bool)
        (lowerTrim : string -> string)
        (key current new salt stamp : string) (maybeNew : option string)
        (users : AuthAccounts.Users) (user : AuthAccounts.Account) :
  JsMap.get key users = Some user ->
  (verifyPassword current (AuthAccounts.password user) = false ->
   AuthAccounts.changePassword hashPassword verifyPassword key current maybeNew salt users
   = (Some (401, "Current password is incorrect"), users))
  /\ (verifyPassword current (AuthAccounts.password user) = true ->
      6 <= String.length new ->
      verifyPassword new (hashPassword salt new) = true ->
      key <> "" -> lowerTrim key = key ->
      let r := AuthAccounts.changePassword hashPassword verifyPassword key current
                                           (Some new) salt users in
      fst r = None
      /\ (exists user', JsMap.get key (snd r) = Some user'
                        /\ AuthAccounts.password user' = hashPassword salt new
                        /\ AuthAccounts.id user' = AuthAccounts.id user
                        /\ AuthAccounts.rooms user' = AuthAccounts.rooms user)
      /\ (forall other, other <> key -> JsMap.get other (snd r) = JsMap.get other users)
      /\ exists v, fst (AuthAccounts.login verifyPassword lowerTrim (Some key) (Some new)
                                           stamp (snd r))
                   = AuthAccounts.Success v).
Proof.
  intros Hget. split.
  - intros Hwrong. unfold AuthAccounts.changePassword. now rewrite Hget, Hwrong.
  - intros Hright Hlen Hnew Hk Hnorm r.
    assert (new <> "") as Hne by (intros ->; simpl in Hlen; lia).
    assert (r = (None,
                 JsMap.set key
                   {| AuthAccounts.id := AuthAccounts.id user;
                      AuthAccounts.name := AuthAccounts.name user;
                      AuthAccounts.email := AuthAccounts.email user;
                      AuthAccounts.password := hashPassword salt new;
                      AuthAccounts.createdAt := AuthAccounts.createdAt user;
                      AuthAccounts.rooms := AuthAccounts.rooms user;
                      AuthAccounts.lastLogin := AuthAccounts.lastLogin user |} users))
      as Hr.
    { subst r. unfold AuthAccounts.changePassword.
      rewrite Hget, Hright, (truthy_Some_eq Hne).
      assert ((String.length new <? 6)%nat = false) as -> by (apply Nat.ltb_ge; lia).
      reflexivity. }
    rewrite Hr. cbn [fst snd].
    split; [reflexivity|]. split.
    { eexists. split; [apply get_set_eq|]. repeat split. }
    split.
    { intros other Hother. apply get_set_ne. congruence. }
    unfold AuthAccounts.login.
    rewrite (truthy_Some_eq Hk), (truthy_Some_eq Hne), Hnorm, get_set_eq.
    cbn [AuthAccounts.password]. rewrite Hnew. eexists. reflexivity.
Qed.

Lemma password_change_witness :
  let hash := fun salt x => (salt ++ x)%string in
  let verify := fun x h => String.eqb h ("s:" ++ x) in
  let lower := fun s : string => s in
  let users := snd (AuthAccounts.register hash lower lower (Some "Ann") (Some "ann@stage.io")
                                          (Some "secret1") "7" "s:" "t0" []) in
  AuthAccounts.changePassword hash verify "ann@stage.io" "guess" (Some "x") "s:" users
  = (Some (401, "Current password is incorrect"), users)
  /\ exists v,
       fst (AuthAccounts.login verify lower (Some "ann@stage.io") (Some "secret2") "t2"
              (snd (AuthAccounts.changePassword hash verify "ann@stage.io" "secret1"
                                                (Some "secret2") "s:" users)))
       = AuthAccounts.Success v.
Proof.
  intros hash verify lower users.
  assert ("ann@stage.io" <> "") as Hk by discriminate.
  assert (6 <= String.length "secret2") as Hlen by (simpl; lia).
  destruct (@password_change hash verify lower "ann@stage.io" "guess" "secret2" "s:" "t2"
              (Some "x") users _ eq_refl) as [Hwrong _].
  destruct (@password_change hash verify lower "ann@stage.io" "secret1" "secret2" "s:" "t2"
              None users _ eq_refl) as [_ Hright].
  split.
  - exact (Hwrong eq_refl).
  - exact (proj2 (proj2 (proj2 (Hright eq_refl Hlen eq_refl Hk eq_refl)))).
Defined.



(** X28. In every run from start-up no host or participant object is
    referred to from two places of the room store (a host belongs to one
    room, a participant to one entry of one room's user map, and no
    object is both), and the current user of a connection shows the same
    fields as any other reference to the same object: the host record or
    the participant entry of a stored room, or the current user of another
    connection. *)
Theorem references_agree
        (evs : list (list RoomServer.WS * Z * RoomServer.Event))
        (w w' : RoomServer.WS) (roomCode userId : string)
        (room : RoomServer.Room) (u u' q : RoomServer.User) :
  let st := fst (RoomServer.run evs RoomServer.initial) in
  NoDup (map RoomServer.oid (RoomServer.storeRefs (RoomServer.rooms st)))
  /\ (RoomServer.currentUser (RoomServer.connOf w st) = Some u ->
      (JsMap.get roomCode (RoomServer.rooms st) = Some room ->
       (RoomServer.oid u = RoomServer.oid (RoomServer.host room) ->
        u = RoomServer.host room)
       /\ (JsMap.get userId (RoomServer.users room) = Some q ->
           RoomServer.oid u = RoomServer.oid q -> u = q))
      /\ (RoomServer.currentUser (RoomServer.connOf w' st) = Some u' ->
          RoomServer.oid u = RoomServer.oid u' -> u = u')).
Proof.
  intros st.
  assert (RoomServer.coherent st) as Hc
      by (apply run_coherent; [apply initial_keyed|apply initial_coherent]).
  split; [rewrite <- storeOids_map; apply Hc|].
  intros Hu. split.
  - intros Hget. split.
    + intros Ho. eapply conn_is_host; eauto.
    + intros Hq Ho. eapply conn_is_user; eauto.
  - intros Hu' Ho. destruct Hc as (_ & _ & Hag).
    apply Hag; auto; eapply connOf_ref; eauto.
Qed.

Lemma references_agree_witness :
  let evs := Samples.hosted
             ++ [([1], 20%Z, RoomServer.PostJoin "AB12CD" (Some "Ann") None "u-1");
                 ([1; 5], 21%Z,
                  RoomServer.Message 5 "" (RoomServer.REGISTER_USER "AB12CD" "u-1"));
                 ([1; 5; 6], 22%Z,
                  RoomServer.Message 6 "" (RoomServer.REGISTER_USER "AB12CD" "u-1"))] in
  let st := fst (RoomServer.run evs RoomServer.initial) in
  exists room u q,
    JsMap.get "AB12CD" (RoomServer.rooms st) = Some room
    /\ JsMap.get "u-1" (RoomServer.users room) = Some q
    /\ RoomServer.currentUser (RoomServer.connOf 5 st) = Some u
    /\ RoomServer.ws q = Some 6
    /\ u = q.
Proof.
  intros evs st.
  assert (exists room u q,
             JsMap.get "AB12CD" (RoomServer.rooms st) = Some room
             /\ JsMap.get "u-1" (RoomServer.users room) = Some q
             /\ RoomServer.currentUser (RoomServer.connOf 5 st) = Some u
             /\ RoomServer.ws q = Some 6
             /\ RoomServer.oid u = RoomServer.oid q)
    as (room & u & q & Hget & Hq & Hu & Hws & Hoid).
  { vm_compute. do 3 eexists. repeat split. }
  exists room, u, q. repeat (split; [assumption|]).
  exact (proj2 (proj1 (proj2 (@references_agree evs 5 5 "AB12CD" "u-1" room u u q) Hu) Hget)
               Hq Hoid).
Defined.
